(** * Alpha model: from trading signals to rebalancing trades

    A shallow embedding of [tradeexecutor/strategy/alpha_model.py] and of the
    identifiers of [tradeexecutor/state/identifier.py].

    Conventions of the embedding.

    - Python [float] values (signals, weights, US dollar amounts) are
      exact rationals [Q]; Python's [==] on them is [Qeq_bool], [<] is
      [Qltb], [abs] is [Qabs].  Rounding, infinities and NaN are outside
      that model.  Where a statement depends on rounding, the code is
      embedded over binary64 floats instead (module [Binary64]).
    - A value whose run-time type the code inspects ([type(x) == float])
      is a [PyNum], which remembers the Python type next to the number.
    - A Python [dict] is an insertion-ordered association list ([dict]).
    - A method that mutates [self] or that can raise is a computation
      [M S A := S -> outcome A * S]: it returns a value or an exception
      together with the state as it stands at that point, so that a
      mutation made before a failing assertion stays visible.
    - Collaborators whose code is not part of these sources (the pair
      kind predicates, the position manager, the weight checker) are
      interfaces: type classes whose members are the calls the code makes.
      The module [Demo] instantiates them, to run the model on concrete
      portfolios.

    Embedded are [TradingPairSignal] with [__post_init__], [has_trades],
    [is_short], [is_spot], [is_new], [is_closing], [is_flipping] and
    [get_flip_label]; the methods [iterate_signals],
    [get_signal_by_pair_id], [get_signal_by_pair],
    [get_signals_sorted_by_weight], [set_signal], [set_old_weight],
    [select_top_signals], [calculate_weight_diffs],
    [map_pair_for_signal], [calculate_target_positions] and
    [generate_rebalance_trades_and_triggers] of [AlphaModel]; and
    [get_human_description] of [TradingPairIdentifier]. *)

From Stdlib Require Import String List ZArith QArith Qabs Bool Lia Lqa.
From Stdlib Require Import Permutation Sorted.
From Stdlib Require Floats.PrimFloat.
Import ListNotations.

Set Implicit Arguments.

(* ===================================================================== *)
(** ** Python values *)
(* ===================================================================== *)

Module Py.

(** Strict comparison of two floats, [x < y]. *)
Definition Qltb (x y : Q) : bool := negb (Qle_bool y x).

(** A number together with its Python type. *)
Inductive PyNum : Type :=
| PyFloat (x : Q)
| PyInt (n : Z)
| PyDecimal (d : Q).

Definition num_value (v : PyNum) : Q :=
  match v with
  | PyFloat x => x
  | PyInt n => inject_Z n
  | PyDecimal d => d
  end.

(** [type(v) == float] *)
Definition is_float (v : PyNum) : bool :=
  match v with PyFloat _ => true | _ => false end.

(** Truth value of a number: [bool(v)], false exactly at zero. *)
Definition truthy (v : PyNum) : bool := negb (Qeq_bool (num_value v) 0).

Definition is_none {A : Type} (o : option A) : bool :=
  match o with None => true | Some _ => false end.

(** Exceptions the code raises, with the constant part of the message.
    [ExternalError] stands for whatever a collaborator raises. *)
Inductive exn : Type :=
| AssertionError (msg : string)
| NotImplementedError (msg : string)
| AttributeError (msg : string)
| TypeError (msg : string)
| ExternalError (msg : string).

Inductive outcome (A : Type) : Type :=
| Ok (a : A)
| Raise (e : exn).
Arguments Ok {A} a.
Arguments Raise {A} e.

(** Computations over a mutable state [S] that may raise. *)
Definition M (S A : Type) : Type := S -> outcome A * S.

Definition ret {S A : Type} (a : A) : M S A := fun s => (Ok a, s).

Definition bind {S A B : Type} (c : M S A) (k : A -> M S B) : M S B :=
  fun s => match c s with
           | (Ok a, s') => k a s'
           | (Raise e, s') => (Raise e, s')
           end.

Definition raise {S A : Type} (e : exn) : M S A := fun s => (Raise e, s).
Definition get {S : Type} : M S S := fun s => (Ok s, s).
Definition put {S : Type} (s : S) : M S unit := fun _ => (Ok tt, s).
Definition modify {S : Type} (f : S -> S) : M S unit := fun s => (Ok tt, f s).

(** [assert cond, msg] *)
Definition assert_ {S : Type} (cond : bool) (msg : string) : M S unit :=
  if cond then ret tt else raise (AssertionError msg).

(** [assert cond, msg] with a message whose evaluation can raise.
    Python evaluates the message only when the condition fails, and an
    exception of that evaluation replaces the [AssertionError]. *)
Definition assert_with {S : Type} (cond : bool) (msg : outcome string) : M S unit :=
  if cond then ret tt
  else match msg with
       | Ok text => raise (AssertionError text)
       | Raise e => raise e
       end.

(** A computation that does not touch the state. *)
Definition lift_outcome {S A : Type} (o : outcome A) : M S A := fun s => (o, s).

(** [if cond: body] *)
Definition when {S : Type} (cond : bool) (body : M S unit) : M S unit :=
  if cond then body else ret tt.

End Py.
Export Py.

Declare Scope py_scope.
Delimit Scope py_scope with py.
Notation "x <- c1 ;; c2" := (bind c1 (fun x => c2))
  (at level 61, c1 at next level, right associativity) : py_scope.
Notation "c1 ;; c2" := (bind c1 (fun _ => c2))
  (at level 61, right associativity) : py_scope.

(* ===================================================================== *)
(** ** Insertion-ordered dictionaries *)
(* ===================================================================== *)

Module Dict.

Definition dict (K V : Type) : Type := list (K * V).

Section WithValue.
Context {K V : Type} (eqb : K -> K -> bool).

(** [d.get(k)] *)
Fixpoint dict_get (k : K) (d : dict K V) : option V :=
  match d with
  | [] => None
  | (k', v) :: d' => if eqb k k' then Some v else dict_get k d'
  end.

(** [k in d] *)
Definition dict_mem (k : K) (d : dict K V) : bool :=
  match dict_get k d with Some _ => true | None => false end.

(** [d[k] = v]: an existing key keeps its place, a new one goes last. *)
Fixpoint dict_set (k : K) (v : V) (d : dict K V) : dict K V :=
  match d with
  | [] => [(k, v)]
  | (k', v') :: d' =>
      if eqb k k' then (k', v) :: d' else (k', v') :: dict_set k v d'
  end.

(** [del d[k]] *)
Fixpoint dict_del (k : K) (d : dict K V) : dict K V :=
  match d with
  | [] => []
  | (k', v') :: d' => if eqb k k' then d' else (k', v') :: dict_del k d'
  end.

Definition dict_keys (d : dict K V) : list K := map fst d.
Definition dict_values (d : dict K V) : list V := map snd d.

(** [{k: v for (k, v) in l}] *)
Definition dict_of_list (l : list (K * V)) : dict K V :=
  fold_left (fun d kv => dict_set (fst kv) (snd kv) d) l [].

End WithValue.
End Dict.
Export Dict.

(* ===================================================================== *)
(** ** Identifiers ([state/identifier.py]) *)
(* ===================================================================== *)

Record AssetIdentifier : Type := mkAsset {
  chain_id : Z;
  address : string;
  token_symbol : string;
  decimals : option Z;
  asset_internal_id : option Z;
  asset_info_url : option string
}.

Record TradingPairIdentifier : Type := mkPair {
  base : AssetIdentifier;
  quote : AssetIdentifier;
  pool_address : string;
  internal_id : option Z;
  info_url : option string
}.

(** [TradingPairIdentifier.get_human_description]: no parameter besides
    [self]. *)
Definition get_human_description (p : TradingPairIdentifier) : string :=
  (token_symbol (base p) ++ "-" ++ token_symbol (quote p))%string.

(** The call [pair.get_human_description(describe_type=True)] that
    [alpha_model.py] makes: the method above has no such parameter, so
    the call raises [TypeError] before the body runs. *)
Definition get_human_description_describe_type (p : TradingPairIdentifier)
    : outcome string :=
  Raise (TypeError "get_human_description() got an unexpected keyword argument 'describe_type'").

(** [PairInternalId], the key of the signal dictionaries.  The field is
    [Optional[int]], so [None] is a possible key. *)
Definition PairInternalId : Type := option Z.

Definition id_eqb (a b : PairInternalId) : bool :=
  match a, b with
  | None, None => true
  | Some x, Some y => Z.eqb x y
  | _, _ => false
  end.

(** Methods of [TradingPairIdentifier] that [alpha_model.py] calls and
    that [state/identifier.py] does not define here. *)
Class PairKinds : Type := {
  is_spot : TradingPairIdentifier -> bool;
  is_long : TradingPairIdentifier -> bool;
  is_short : TradingPairIdentifier -> bool;
  get_pricing_pair : TradingPairIdentifier -> outcome TradingPairIdentifier
}.

(* ===================================================================== *)
(** ** [TradingPairSignal] *)
(* ===================================================================== *)

(** One asset of the alpha model for one strategy cycle.  The fields and
    their defaults are those of the dataclass. *)
Record TradingPairSignal : Type := mkSignal {
  pair : TradingPairIdentifier;
  signal : Q;
  stop_loss : option Q;
  take_profit : option Q;
  trailing_stop_loss : option Q;
  raw_weight : Q;
  normalised_weight : Q;
  old_weight : Q;
  old_value : Q;
  old_pair : option TradingPairIdentifier;
  position_target : Q;
  position_adjust_usd : Q;
  position_adjust_quantity : PyNum;
  position_id : option Z;
  position_adjust_ignored : bool;
  profit_before_trades : Q;
  profit_before_trades_pct : Q;
  synthetic_pair : option TradingPairIdentifier;
  leverage : option PyNum
}.

(** Attribute assignments [s.field = v]. *)
Definition set_old (w v : Q) (p : option TradingPairIdentifier)
    (s : TradingPairSignal) : TradingPairSignal :=
  mkSignal (pair s) (signal s) (stop_loss s) (take_profit s)
    (trailing_stop_loss s) (raw_weight s) (normalised_weight s) w v p
    (position_target s) (position_adjust_usd s) (position_adjust_quantity s)
    (position_id s) (position_adjust_ignored s) (profit_before_trades s)
    (profit_before_trades_pct s) (synthetic_pair s) (leverage s).

Definition set_position_target (v : Q) (s : TradingPairSignal) : TradingPairSignal :=
  mkSignal (pair s) (signal s) (stop_loss s) (take_profit s)
    (trailing_stop_loss s) (raw_weight s) (normalised_weight s) (old_weight s)
    (old_value s) (old_pair s) v (position_adjust_usd s)
    (position_adjust_quantity s) (position_id s) (position_adjust_ignored s)
    (profit_before_trades s) (profit_before_trades_pct s) (synthetic_pair s)
    (leverage s).

Definition set_position_adjust_usd (v : Q) (s : TradingPairSignal) : TradingPairSignal :=
  mkSignal (pair s) (signal s) (stop_loss s) (take_profit s)
    (trailing_stop_loss s) (raw_weight s) (normalised_weight s) (old_weight s)
    (old_value s) (old_pair s) (position_target s) v
    (position_adjust_quantity s) (position_id s) (position_adjust_ignored s)
    (profit_before_trades s) (profit_before_trades_pct s) (synthetic_pair s)
    (leverage s).

Definition set_position_adjust_quantity (v : PyNum) (s : TradingPairSignal) : TradingPairSignal :=
  mkSignal (pair s) (signal s) (stop_loss s) (take_profit s)
    (trailing_stop_loss s) (raw_weight s) (normalised_weight s) (old_weight s)
    (old_value s) (old_pair s) (position_target s) (position_adjust_usd s)
    v (position_id s) (position_adjust_ignored s)
    (profit_before_trades s) (profit_before_trades_pct s) (synthetic_pair s)
    (leverage s).

Definition set_position_id (v : option Z) (s : TradingPairSignal) : TradingPairSignal :=
  mkSignal (pair s) (signal s) (stop_loss s) (take_profit s)
    (trailing_stop_loss s) (raw_weight s) (normalised_weight s) (old_weight s)
    (old_value s) (old_pair s) (position_target s) (position_adjust_usd s)
    (position_adjust_quantity s) v (position_adjust_ignored s)
    (profit_before_trades s) (profit_before_trades_pct s) (synthetic_pair s)
    (leverage s).

Definition set_position_adjust_ignored (v : bool) (s : TradingPairSignal) : TradingPairSignal :=
  mkSignal (pair s) (signal s) (stop_loss s) (take_profit s)
    (trailing_stop_loss s) (raw_weight s) (normalised_weight s) (old_weight s)
    (old_value s) (old_pair s) (position_target s) (position_adjust_usd s)
    (position_adjust_quantity s) (position_id s) v
    (profit_before_trades s) (profit_before_trades_pct s) (synthetic_pair s)
    (leverage s).

Definition set_profit_before_trades (v : Q) (s : TradingPairSignal) : TradingPairSignal :=
  mkSignal (pair s) (signal s) (stop_loss s) (take_profit s)
    (trailing_stop_loss s) (raw_weight s) (normalised_weight s) (old_weight s)
    (old_value s) (old_pair s) (position_target s) (position_adjust_usd s)
    (position_adjust_quantity s) (position_id s) (position_adjust_ignored s)
    v (profit_before_trades_pct s) (synthetic_pair s) (leverage s).

Definition set_profit_before_trades_pct (v : Q) (s : TradingPairSignal) : TradingPairSignal :=
  mkSignal (pair s) (signal s) (stop_loss s) (take_profit s)
    (trailing_stop_loss s) (raw_weight s) (normalised_weight s) (old_weight s)
    (old_value s) (old_pair s) (position_target s) (position_adjust_usd s)
    (position_adjust_quantity s) (position_id s) (position_adjust_ignored s)
    (profit_before_trades s) v (synthetic_pair s) (leverage s).

Definition set_synthetic_pair (v : option TradingPairIdentifier)
    (s : TradingPairSignal) : TradingPairSignal :=
  mkSignal (pair s) (signal s) (stop_loss s) (take_profit s)
    (trailing_stop_loss s) (raw_weight s) (normalised_weight s) (old_weight s)
    (old_value s) (old_pair s) (position_target s) (position_adjust_usd s)
    (position_adjust_quantity s) (position_id s) (position_adjust_ignored s)
    (profit_before_trades s) (profit_before_trades_pct s) v (leverage s).

Section Signal.
Context {PK : PairKinds}.

(** [TradingPairSignal.__post_init__].  The conversion of [signal] to
    [float] is the identity on [Q]. *)
Definition post_init (s : TradingPairSignal) : outcome TradingPairSignal :=
  if negb (is_spot (pair s)) then
    Raise (AssertionError "Signals must be identified by their spot pairs")
  else
    match leverage s with
    | Some l =>
        if truthy l then
          if negb (is_float l) then Raise (AssertionError "type(self.leverage) == float")
          else if negb (Qltb 0 (num_value l)) then Raise (AssertionError "self.leverage > 0")
          else Ok s
        else Ok s
    | None => Ok s
    end.

(** The dataclass constructor: the keyword arguments that the callers in
    this file pass, every other field at its default, then
    [__post_init__]. *)
Definition new_signal (p : TradingPairIdentifier) (alpha : Q)
    (sl tp tsl : option Q) (ow ov : Q) (op : option TradingPairIdentifier)
    (lev : option PyNum) : outcome TradingPairSignal :=
  post_init (mkSignal p alpha sl tp tsl 0 0 ow ov op 0 0 (PyFloat 0) None
               false 0 0 None lev).

(** [is_new]: no position on the previous cycle. *)
Definition is_new (s : TradingPairSignal) : bool := Qeq_bool (old_weight s) 0.

Definition is_closing (s : TradingPairSignal) : bool :=
  Qeq_bool (normalised_weight s) 0.

(** [is_flipping]: are we going between long and short on this cycle. *)
Definition is_flipping (s : TradingPairSignal) : bool :=
  if Qeq_bool (normalised_weight s) 0 then false
  else
    match old_pair s with
    | None => false
    | Some op =>
        if Qltb (signal s) 0 then is_long op || is_spot op
        else if Qltb 0 (signal s) then is_short op
        else false
    end.

(** [get_flip_label] *)
Definition get_flip_label (s : TradingPairSignal) : outcome string :=
  match old_pair s with
  | None =>
      if Qltb 0 (signal s) then Ok "none -> spot"%string
      else if Qltb (signal s) 0 then Ok "none -> short"%string
      else if Qeq_bool (signal s) 0 then Ok "spot -> close"%string
      else Ok "no flip"%string
  | Some op =>
      if is_spot op then
        if Qltb (signal s) 0 then Ok "spot -> short"%string
        else if Qeq_bool (signal s) 0 then Ok "spot -> close"%string
        else Ok "no flip"%string
      else if is_short op then
        if Qltb 0 (signal s) then Ok "short -> spot"%string
        else if Qeq_bool (signal s) 0 then Ok "short -> close"%string
        else Ok "no flip"%string
      else Raise (AssertionError "Unsupported")
  end.

End Signal.

(* ===================================================================== *)
(** ** [AlphaModel]: registration and selection *)
(* ===================================================================== *)

(** The signal object that [set_signal] builds from its arguments. *)
Definition registered (p : TradingPairIdentifier) (alpha : Q)
    (sl tp tsl : option Q) (lev : option PyNum) : TradingPairSignal :=
  mkSignal p alpha sl tp tsl 0 0 0 0 None 0 0 (PyFloat 0) None false 0 0 None lev.

Definition signal_dict : Type := dict PairInternalId TradingPairSignal.

(** The alpha model state of one strategy cycle.  [timestamp] is kept
    as an opaque number.  The two dictionaries hold their signals by
    value.  In Python [select_top_signals] puts the very objects of
    [raw_signals] into [signals], so that what [set_old_weight], the
    target computation and the trade generation write on a signal of
    [signals] shows in [raw_signals] as well; here [raw_signals] stays
    as it stood, and no statement below concludes anything about
    [raw_signals] after one of these three.  [set_signal] builds a new
    object on each call and [select_top_signals] writes on none. *)
Record AlphaModel : Type := mkModel {
  timestamp : option Z;
  raw_signals : signal_dict;
  signals : signal_dict;
  investable_equity : option Q;
  close_position_weight_epsilon : Q
}.

(** The class attribute [override_stop_loss = False]. *)
Definition override_stop_loss : bool := false.

Definition set_raw_signals (d : signal_dict) (m : AlphaModel) : AlphaModel :=
  mkModel (timestamp m) d (signals m) (investable_equity m)
    (close_position_weight_epsilon m).

Definition set_signals (d : signal_dict) (m : AlphaModel) : AlphaModel :=
  mkModel (timestamp m) (raw_signals m) d (investable_equity m)
    (close_position_weight_epsilon m).

Definition set_investable_equity (v : option Q) (m : AlphaModel) : AlphaModel :=
  mkModel (timestamp m) (raw_signals m) (signals m) v
    (close_position_weight_epsilon m).

(** A fresh model, [AlphaModel(timestamp)]. *)
Definition new_model (ts : option Z) : AlphaModel :=
  mkModel ts [] [] (Some 0) (5 # 1000).

(** [heapq.nlargest(n, iterable, key)] of the Python library, by its
    documented meaning [sorted(iterable, key=key, reverse=True)[:n]]:
    a stable sort, highest key first, then the first [n] entries; no
    entry for [n <= 0]. *)
Fixpoint insert_desc {A : Type} (key : A -> Q) (x : A) (l : list A) : list A :=
  match l with
  | [] => [x]
  | y :: ys =>
      if Qltb (key x) (key y) then y :: insert_desc key x ys else x :: y :: ys
  end.

(** [a] ranks at least as high as [b]. *)
Definition ranks_above {A : Type} (key : A -> Q) (a b : A) : Prop :=
  key b <= key a.

Definition sorted_reverse {A : Type} (key : A -> Q) (l : list A) : list A :=
  fold_right (insert_desc key) [] l.

Definition nlargest {A : Type} (n : Z) (l : list A) (key : A -> Q) : list A :=
  firstn (Z.to_nat n) (sorted_reverse key l).

Section Model.
Context {PK : PairKinds}.
Local Open Scope py_scope.

(** The message of the leverage assertion of [set_signal], an f-string
    that ends in [pair.get_human_description(describe_type=True)]. *)
Definition leverage_message (p : TradingPairIdentifier) : outcome string :=
  match get_human_description_describe_type p with
  | Ok description =>
      Ok ("Leverage must be set for short, received signal for pair "
            ++ description)%string
  | Raise e => Raise e
  end.

(** [AlphaModel.set_signal].  The signal object is built anew on every
    call; the assertion on a short signal without leverage fails while
    its message is put together. *)
Definition set_signal (p : TradingPairIdentifier) (alpha : Q)
    (sl tp tsl : option Q) (lev : option PyNum) : M AlphaModel unit :=
  assert_ (is_spot p) "Signals are tracked by their spot pairs" ;;
  when (Qltb alpha 0)
       (assert_with (negb (is_none lev)) (leverage_message p)) ;;
  if Qeq_bool alpha 0 then
    m <- get ;;
    when (dict_mem id_eqb (internal_id p) (raw_signals m))
         (put (set_raw_signals (dict_del id_eqb (internal_id p) (raw_signals m)) m))
  else
    s <- lift_outcome (new_signal p alpha sl tp tsl 0 0 None lev) ;;
    modify (fun m =>
      set_raw_signals (dict_set id_eqb (internal_id p) s (raw_signals m)) m).

(** [AlphaModel.set_old_weight] *)
Definition set_old_weight (p : TradingPairIdentifier) (w v : Q)
    (old_synthetic_pair : TradingPairIdentifier) : M AlphaModel unit :=
  assert_ (is_spot p) "pair.is_spot()" ;;
  m <- get ;;
  match dict_get id_eqb (internal_id p) (signals m) with
  | Some s =>
      put (set_signals
             (dict_set id_eqb (internal_id p)
                (set_old w v (Some old_synthetic_pair) s) (signals m)) m)
  | None =>
      s <- lift_outcome
             (new_signal p 0 None None None w v (Some old_synthetic_pair) None) ;;
      put (set_signals (dict_set id_eqb (internal_id p) s (signals m)) m)
  end.

(** [AlphaModel.select_top_signals], with its two local lists. *)
Definition filtered_signals (threshold : Q) (m : AlphaModel) : list TradingPairSignal :=
  filter (fun s => Qle_bool threshold (Qabs (signal s)))
         (dict_values (raw_signals m)).

Definition top_signals (count : Z) (threshold : Q) (m : AlphaModel) : list TradingPairSignal :=
  nlargest count (filtered_signals threshold m) raw_weight.

Definition select_top_signals (count : Z) (threshold : Q) : M AlphaModel unit :=
  modify (fun m =>
    set_signals
      (dict_of_list id_eqb
         (map (fun s => (internal_id (pair s), s)) (top_signals count threshold m)))
      m).

End Model.

(* ===================================================================== *)
(** ** Collaborators *)
(* ===================================================================== *)

(** [check_normalised_weights] of [tradeexecutor.strategy.weighting]:
    returns nothing, raises when a non-empty set of weights does not sum
    to one. *)
Class Weighting : Type := {
  check_normalised_weights : dict PairInternalId Q -> outcome unit
}.

(** Text of [repr(signal)] and of a formatted float inside the notes
    handed to the position manager. *)
Class Rendering : Type := {
  repr_signal : TradingPairSignal -> string;
  format_float : Q -> string
}.

(** [TradeType.rebalance], the one member this file uses. *)
Inductive TradeType : Type := rebalance.

(** [PositionManager], with the portfolio and the trading universe it
    holds.  A position is a handle whose content lives in the state
    [pm_state]; queries read the state, the trade-creating calls may
    change it and may raise. *)
Class PositionManager : Type := {
  pm_state : Type;
  TradingPosition : Type;
  TradeExecution : Type;
  (* [trade.position_id] and [trade.get_execution_sort_position()] *)
  trade_position_id : TradeExecution -> option Z;
  get_execution_sort_position : TradeExecution -> Z;
  (* [position.get_total_profit_usd()], [position.get_total_profit_percent()] *)
  get_total_profit_usd : TradingPosition -> pm_state -> Q;
  get_total_profit_percent : TradingPosition -> pm_state -> Q;
  get_current_position_for_pair :
    TradingPairIdentifier -> pm_state -> option TradingPosition;
  (* [position_manager.strategy_universe.get_shorting_pair(pair)] *)
  get_shorting_pair : TradingPairIdentifier -> pm_state -> outcome TradingPairIdentifier;
  estimate_asset_quantity : TradingPairIdentifier -> Q -> pm_state -> outcome PyNum;
  (* [close_position(position, trade_type, notes)] *)
  close_position :
    TradingPosition -> TradeType -> string -> M pm_state (list TradeExecution);
  (* [open_short(pair, value, leverage, take_profit_pct, stop_loss_pct,
      trailing_stop_loss_pct, notes)] *)
  open_short :
    TradingPairIdentifier -> Q -> Q -> option Q -> option Q -> option Q ->
    string -> M pm_state (list TradeExecution);
  (* [adjust_short(position, new_value, notes)] *)
  adjust_short :
    option TradingPosition -> Q -> string -> M pm_state (list TradeExecution);
  (* [adjust_position(pair, dollar_delta, quantity_delta, weight, stop_loss,
      take_profit, trailing_stop_loss, override_stop_loss, notes)] *)
  adjust_position :
    TradingPairIdentifier -> Q -> PyNum -> Q -> option Q -> option Q ->
    option Q -> bool -> string -> M pm_state (list TradeExecution)
}.

(* ===================================================================== *)
(** ** Loops over the signals *)
(* ===================================================================== *)

(** [for s in d.values(): body(s)], where the body mutates the object
    [s] in place and shares a second state [P] with its caller.  The
    result lists, per key and in iteration order, what each body
    returned.  When a body raises the loop stops; the object it was
    working on keeps the mutations made so far. *)
Fixpoint for_each_value {K V P A : Type} (body : M (V * P) A)
    (d : dict K V) (p : P) : outcome (list (K * A)) * (dict K V * P) :=
  match d with
  | [] => (Ok [], ([], p))
  | (k, v) :: d' =>
      match body (v, p) with
      | (Ok a, (v', p')) =>
          match for_each_value body d' p' with
          | (Ok r, (d'', p'')) => (Ok ((k, a) :: r), ((k, v') :: d'', p''))
          | (Raise e, (d'', p'')) => (Raise e, ((k, v') :: d'', p''))
          end
      | (Raise e, (v', p')) => (Raise e, ((k, v') :: d', p'))
      end
  end.

(** The loop as a method of the model: the dictionary is
    [self.signals], the second state is the position manager. *)
Definition for_each_signal {P A : Type} (body : M (TradingPairSignal * P) A)
    : M (AlphaModel * P) (list (PairInternalId * A)) :=
  fun st =>
    match for_each_value body (signals (fst st)) (snd st) with
    | (r, (d, p)) => (r, (set_signals d (fst st), p))
    end.

(** [p1] is the shared state in which the loop over [d], started in
    [p], reaches the entry that [d.get(k)] finds: the bodies of the
    entries before it have returned and left [p1]. *)
Definition loop_reaches {K V P A : Type} (eqb : K -> K -> bool)
    (body : M (V * P) A) (d : dict K V) (p : P) (k : K) (p1 : P) : Prop :=
  exists before k0 v after r before',
    d = before ++ (k0, v) :: after
    /\ eqb k k0 = true
    /\ dict_get eqb k before = None
    /\ for_each_value body before p = (Ok r, (before', p1)).

(** Access to the two halves of the state of a loop body. *)
Definition this {V P : Type} : M (V * P) V := fun st => (Ok (fst st), st).

Definition update {V P : Type} (f : V -> V) : M (V * P) unit :=
  fun st => (Ok tt, (f (fst st), snd st)).

Definition ask {V P A : Type} (q : P -> A) : M (V * P) A :=
  fun st => (Ok (q (snd st)), st).

Definition ask_outcome {V P A : Type} (q : P -> outcome A) : M (V * P) A :=
  fun st => (q (snd st), st).

Definition call {V P A : Type} (c : M P A) : M (V * P) A :=
  fun st => match c (snd st) with (r, p') => (r, (fst st, p')) end.

(* ===================================================================== *)
(** ** Weight differences and target positions *)
(* ===================================================================== *)

Definition weight_dict : Type := dict PairInternalId Q.

(** [sum(d.values())] *)
Definition dict_sum (d : weight_dict) : Q :=
  fold_right Qplus 0 (dict_values d).

(** [{s.pair.internal_id: s.normalised_weight for s in self.signals.values()}] *)
Definition new_weights (m : AlphaModel) : weight_dict :=
  dict_of_list id_eqb
    (map (fun s => (internal_id (pair s), normalised_weight s))
         (dict_values (signals m))).

(** [{s.pair.internal_id: s.old_weight for s in self.signals.values()}] *)
Definition existing_weights (m : AlphaModel) : weight_dict :=
  dict_of_list id_eqb
    (map (fun s => (internal_id (pair s), old_weight s))
         (dict_values (signals m))).

(** [existing_weights.get(id, 0)] *)
Definition get_or_zero (k : PairInternalId) (d : weight_dict) : Q :=
  match dict_get id_eqb k d with Some w => w | None => 0 end.

(** The two loops of [calculate_weight_diffs] that fill [diffs]. *)
Definition weight_diffs (new existing : weight_dict) : weight_dict :=
  let diffs :=
    fold_left
      (fun diffs kv =>
         dict_set id_eqb (fst kv) (snd kv - get_or_zero (fst kv) existing) diffs)
      new [] in
  fold_left
    (fun diffs kv =>
       if dict_mem id_eqb (fst kv) diffs then diffs
       else dict_set id_eqb (fst kv) (- snd kv) diffs)
    existing diffs.

Section Targets.
Context {PK : PairKinds} {W : Weighting} {PM : PositionManager}.
Local Open Scope py_scope.

(** [AlphaModel.calculate_weight_diffs] *)
Definition calculate_weight_diffs : M AlphaModel weight_dict :=
  m <- get ;;
  lift_outcome (check_normalised_weights (new_weights m)) ;;
  lift_outcome (check_normalised_weights (existing_weights m)) ;;
  ret (weight_diffs (new_weights m) (existing_weights m)).

(** [AlphaModel.map_pair_for_signal] *)
Definition map_pair_for_signal (s : TradingPairSignal)
    : pm_state -> outcome TradingPairIdentifier :=
  fun pm =>
    let underlying := pair s in
    if Qltb 0 (signal s) then Ok underlying
    else if Qltb (signal s) 0 then get_shorting_pair underlying pm
    else Ok underlying.

(** The body of the loop of [calculate_target_positions]. *)
Definition target_position (equity : Q) : M (TradingPairSignal * pm_state) unit :=
  update (fun s => set_position_target (normalised_weight s * equity) s) ;;
  s <- this ;;
  synthetic <- ask_outcome (map_pair_for_signal s) ;;
  update (set_synthetic_pair (Some synthetic)) ;;
  s <- this ;;
  if is_flipping s then
    update (fun s => set_position_adjust_usd (position_target s) s)
  else
    update (fun s => set_position_adjust_usd (position_target s - old_value s) s) ;;
    s <- this ;;
    when (Qltb (position_adjust_usd s) 0)
      (q <- ask_outcome (estimate_asset_quantity (pair s) (position_adjust_usd s)) ;;
       update (set_position_adjust_quantity q) ;;
       assert_ (is_float q) "type(s.position_adjust_quantity) == float").

(** [AlphaModel.calculate_target_positions] *)
Definition calculate_target_positions (equity : Q) : M (AlphaModel * pm_state) unit :=
  update (set_investable_equity (Some equity)) ;;
  for_each_signal (target_position equity) ;;
  ret tt.

End Targets.

(* ===================================================================== *)
(** ** Rebalance trade generation *)
(* ===================================================================== *)

(** [list.sort(key=...)]: stable, lowest key first. *)
Fixpoint insert_asc {A : Type} (key : A -> Z) (x : A) (l : list A) : list A :=
  match l with
  | [] => [x]
  | y :: ys =>
      if (key y <? key x)%Z then y :: insert_asc key x ys else x :: y :: ys
  end.

Definition sort_by {A : Type} (key : A -> Z) (l : list A) : list A :=
  fold_right (insert_asc key) [] l.

(** Truth value of [Optional[int]], as in [assert last_trade.position_id]. *)
Definition truthy_id (o : option Z) : bool :=
  match o with None => false | Some z => negb (z =? 0)%Z end.

Section Rebalance.
Context {PK : PairKinds} {R : Rendering} {PM : PositionManager}.
Local Open Scope py_scope.
Local Open Scope string_scope.

Definition St : Type := (TradingPairSignal * pm_state)%type.

(** The notes handed to the position manager.  Two of them are plain
    strings in the code, not f-strings, and keep their braces. *)
Definition dust_close_notes (s : TradingPairSignal) : string :=
  "Closing position, because the signal weight is below close position weight threshold: "
    ++ repr_signal s.

Definition flip_close_notes (s : TradingPairSignal) : string :=
  "Closing because switching between long/short for " ++ repr_signal s.

Definition open_short_notes : string :=
  "Rebalance opening a new short for signal {signal}".

Definition adjust_short_notes (s : TradingPairSignal) : string :=
  "Rebalance existing short for signal: " ++ repr_signal s
    ++ " value: " ++ format_float (position_target s).

Definition adjust_position_notes : string := "Rebalance for signal {signal}".

(** The open position of [old_pair], as the position manager sees it. *)
Definition current_position (s : TradingPairSignal) (pm : pm_state)
    : option TradingPosition :=
  match old_pair s with
  | Some op => get_current_position_for_pair op pm
  | None => None
  end.

(** The record keeping at the head of the loop body: look up the open
    position of [old_pair] and note its profit on the signal. *)
Definition current_position_of : M St (option TradingPosition) :=
  s <- this ;;
  match old_pair s with
  | Some op =>
      current_position <- ask (get_current_position_for_pair op) ;;
      match current_position with
      | Some pos =>
          usd <- ask (get_total_profit_usd pos) ;;
          update (set_profit_before_trades usd) ;;
          pct <- ask (get_total_profit_percent pos) ;;
          update (set_profit_before_trades_pct pct) ;;
          ret (Some pos)
      | None =>
          update (set_profit_before_trades 0) ;;
          ret None
      end
  | None => ret None
  end.

(** The signal as that record keeping leaves it. *)
Definition noted (s : TradingPairSignal) (pm : pm_state) : TradingPairSignal :=
  match current_position s pm with
  | Some pos =>
      set_profit_before_trades_pct (get_total_profit_percent pos pm)
        (set_profit_before_trades (get_total_profit_usd pos pm) s)
  | None =>
      match old_pair s with
      | Some _ => set_profit_before_trades 0 s
      | None => s
      end
  end.

(** [if signal.is_flipping(): ...], the close of the old position. *)
Definition close_flipped (s : TradingPairSignal) : M St (list TradeExecution) :=
  if is_flipping s then
    lift_outcome (get_pricing_pair (pair s)) ;;
    lift_outcome (get_flip_label s) ;;
    old_position <-
      match old_pair s with
      | Some op => ask (get_current_position_for_pair op)
      | None => ret None
      end ;;
    match old_position with
    | Some pos => call (close_position pos rebalance (flip_close_notes s))
    | None => ret []
    end
  else ret [].

(** The three-way choice between short, spot and leveraged long. *)
Definition open_or_adjust (s : TradingPairSignal) (synthetic : TradingPairIdentifier)
    (current_position : option TradingPosition) : M St (list TradeExecution) :=
  let dollar_diff := position_adjust_usd s in
  let quantity_diff := position_adjust_quantity s in
  let value := position_target s in
  let underlying := pair s in
  if Qltb (signal s) 0 then
    match leverage s with
    | Some (PyFloat lev) =>
        if is_flipping s || is_new s then
          call (open_short underlying value lev (take_profit s) (stop_loss s)
                  (trailing_stop_loss s) open_short_notes)
        else
          call (adjust_short current_position value (adjust_short_notes s))
    | _ =>
        raise (AssertionError
                 "Signal is short, but does not have a leverage multiplier set")
    end
  else if is_none (leverage s) then
    call (adjust_position synthetic dollar_diff quantity_diff
            (normalised_weight s) (stop_loss s) (take_profit s)
            (trailing_stop_loss s) override_stop_loss adjust_position_notes)
  else
    lift_outcome (get_flip_label s) ;;
    raise (NotImplementedError "Leveraged long missing w/leverage").

(** The last [else] of the loop body: close on a flip, open or adjust,
    then connect the signal to the position of the first trade. *)
Definition rebalance_position (s : TradingPairSignal)
    (synthetic : TradingPairIdentifier)
    (current_position : option TradingPosition) : M St (list TradeExecution) :=
  closes <- close_flipped s ;;
  opens <- open_or_adjust s synthetic current_position ;;
  let position_rebalance_trades := (closes ++ opens)%list in
  match position_rebalance_trades with
  | [] => raise (AssertionError "Assuming always on trade for rebalance")
  | last_trade :: _ =>
      assert_ (truthy_id (trade_position_id last_trade)) "last_trade.position_id" ;;
      update (set_position_id (trade_position_id last_trade)) ;;
      ret position_rebalance_trades
  end.

(** The body of the loop of [generate_rebalance_trades_and_triggers]:
    the trades of one signal, [position_rebalance_trades]. *)
Definition rebalance_signal (min_trade_threshold epsilon : Q)
    : M St (list TradeExecution) :=
  s0 <- this ;;
  let dollar_diff := position_adjust_usd s0 in
  current_position <- current_position_of ;;
  (* the arguments of the log line: [synthetic.base.token_symbol] *)
  synthetic <-
    match synthetic_pair s0 with
    | Some p => ret p
    | None => raise (AttributeError "'NoneType' object has no attribute 'base'")
    end ;;
  s <- this ;;
  if Qltb (Qabs dollar_diff) min_trade_threshold && negb (is_flipping s) then
    update (set_position_adjust_ignored true) ;;
    ret []
  else if Qltb (normalised_weight s) epsilon then
    match current_position with
    | Some pos => call (close_position pos rebalance (dust_close_notes s))
    | None => ret []
    end
  else rebalance_position s synthetic current_position.

(** [pm1] is the state of the position manager when the loop of
    [generate_rebalance_trades_and_triggers], started in [pm], reaches
    the signal under the key [k]. *)
Definition reached (min_trade_threshold : Q) (m : AlphaModel) (pm : pm_state)
    (k : PairInternalId) (pm1 : pm_state) : Prop :=
  loop_reaches id_eqb
    (rebalance_signal min_trade_threshold (close_position_weight_epsilon m))
    (signals m) pm k pm1.

(** The loop over [self.iterate_signals()]: per signal, the trades it
    caused. *)
Definition rebalance_signals (min_trade_threshold : Q)
    : M (AlphaModel * pm_state) (list (PairInternalId * list TradeExecution)) :=
  m <- this ;;
  for_each_signal
    (rebalance_signal min_trade_threshold (close_position_weight_epsilon m)).

(** [AlphaModel.generate_rebalance_trades_and_triggers] *)
Definition generate_rebalance_trades_and_triggers (min_trade_threshold : Q)
    (use_spot_for_long : bool) : M (AlphaModel * pm_state) (list TradeExecution) :=
  assert_ use_spot_for_long "Leveraged long unsupported for now" ;;
  per_signal <- rebalance_signals min_trade_threshold ;;
  ret (sort_by get_execution_sort_position (List.concat (map snd per_signal))).

End Rebalance.

(* ===================================================================== *)
(** ** Queries on signals and on the model *)
(* ===================================================================== *)

(** A Python value that is a float or a [bool], as [has_trades] returns. *)
Inductive FloatOrBool : Type :=
| AFloat (x : Q)
| ABool (b : bool).

(** [bool(v)] *)
Definition truth (v : FloatOrBool) : bool :=
  match v with
  | AFloat x => negb (Qeq_bool x 0)
  | ABool b => b
  end.

(** [TradingPairSignal.has_trades]:
    [(normalised_weight or old_weight) and not position_adjust_ignored].
    [or] gives its first operand when that is true, [and] its first
    operand when that is false. *)
Definition has_trades (s : TradingPairSignal) : FloatOrBool :=
  let weight :=
    if negb (Qeq_bool (normalised_weight s) 0) then normalised_weight s
    else old_weight s in
  if negb (Qeq_bool weight 0) then ABool (negb (position_adjust_ignored s))
  else AFloat weight.

Section SignalQueries.
Context {PK : PairKinds}.

(** [TradingPairSignal.is_short]; the [return False] behind the
    assertion is never reached. *)
Definition signal_is_short (s : TradingPairSignal) : outcome bool :=
  match synthetic_pair s with
  | None => Raise (AssertionError "Trades have not been generated yet")
  | Some synthetic => Ok (is_short synthetic)
  end.

(** [TradingPairSignal.is_spot] *)
Definition signal_is_spot (s : TradingPairSignal) : outcome bool :=
  match synthetic_pair s with
  | None => Raise (AssertionError "Trades have not been generated yet")
  | Some synthetic => Ok (is_spot synthetic)
  end.

(** The leverage values that [__post_init__] lets through: none, zero,
    or a positive float. *)
Definition leverage_accepted (lev : option PyNum) : bool :=
  match lev with
  | None => true
  | Some l => negb (truthy l) || (is_float l && Qltb 0 (num_value l))
  end.

End SignalQueries.

(** [AlphaModel.iterate_signals] *)
Definition iterate_signals (m : AlphaModel) : list TradingPairSignal :=
  dict_values (signals m).

(** [AlphaModel.get_signal_by_pair_id] *)
Definition get_signal_by_pair_id (m : AlphaModel) (pair_id : PairInternalId)
    : option TradingPairSignal :=
  dict_get id_eqb pair_id (signals m).

(** [AlphaModel.get_signal_by_pair] *)
Definition get_signal_by_pair (m : AlphaModel) (p : TradingPairIdentifier)
    : option TradingPairSignal :=
  get_signal_by_pair_id m (internal_id p).

(** [AlphaModel.get_signals_sorted_by_weight]:
    [sorted(self.signals.values(), key=lambda s: s.raw_weight, reverse=True)]. *)
Definition get_signals_sorted_by_weight (m : AlphaModel) : list TradingPairSignal :=
  sorted_reverse raw_weight (dict_values (signals m)).

(** ** Shapes of the signal dictionaries *)

(** Every entry sits under the internal id of its own pair, and no key
    is repeated (a Python dictionary has no repeated key). *)
Definition keyed_by_pair (d : signal_dict) : Prop :=
  NoDup (dict_keys d)
  /\ Forall (fun ks => fst ks = internal_id (pair (snd ks))) d.

Section Shapes.
Context {PK : PairKinds}.

(** What [set_signal] checks before it stores a signal. *)
Definition registrable (s : TradingPairSignal) : Prop :=
  is_spot (pair s) = true
  /\ ~ signal s == 0
  /\ (signal s < 0 -> leverage s <> None)
  /\ leverage_accepted (leverage s) = true.

(** A dictionary as calls of [set_signal] leave [raw_signals]. *)
Definition registered_well (d : signal_dict) : Prop :=
  keyed_by_pair d /\ Forall (fun ks => registrable (snd ks)) d.

(** Every signal of the dictionary is identified by a spot pair. *)
Definition spot_pairs (d : signal_dict) : Prop :=
  Forall (fun ks => is_spot (pair (snd ks)) = true) d.

End Shapes.

(** The fields of a signal that the strategy and the weighting set and
    that neither the target computation nor the trade generation
    touches. *)
Definition same_inputs (s s' : TradingPairSignal) : Prop :=
  pair s' = pair s
  /\ signal s' = signal s
  /\ stop_loss s' = stop_loss s
  /\ take_profit s' = take_profit s
  /\ trailing_stop_loss s' = trailing_stop_loss s
  /\ raw_weight s' = raw_weight s
  /\ normalised_weight s' = normalised_weight s
  /\ old_weight s' = old_weight s
  /\ old_value s' = old_value s
  /\ old_pair s' = old_pair s
  /\ leverage s' = leverage s.

(** The fields that the target computation sets. *)
Definition same_targets (s s' : TradingPairSignal) : Prop :=
  position_target s' = position_target s
  /\ position_adjust_usd s' = position_adjust_usd s
  /\ position_adjust_quantity s' = position_adjust_quantity s
  /\ synthetic_pair s' = synthetic_pair s.

(** Two dictionaries with the same keys in the same order whose values
    are related entry by entry. *)
Definition entrywise (rel : TradingPairSignal -> TradingPairSignal -> Prop)
    (d d' : signal_dict) : Prop :=
  Forall2 (fun ks ks' => fst ks' = fst ks /\ rel (snd ks) (snd ks')) d d'.

(* ===================================================================== *)
(** ** Weight differences in binary64 *)
(* ===================================================================== *)

(** [AlphaModel.calculate_weight_diffs] with its weights as the binary64
    floats that Python computes with: [add], [sub] and [opp] are the
    IEEE 754 operations, rounding to nearest. *)
Module Binary64.
Import PrimFloat.

(** The attributes of a [TradingPairSignal] that the method reads. *)
Record SignalWeights : Type := mkWeights {
  pair : TradingPairIdentifier;
  normalised_weight : float;
  old_weight : float
}.

Definition weight_dict : Type := dict PairInternalId float.

(** [sum(d.values())]: float additions from zero, left to right. *)
Definition dict_sum (d : weight_dict) : float :=
  fold_left add (dict_values d) 0%float.

(** [{s.pair.internal_id: s.normalised_weight for s in self.signals.values()}] *)
Definition new_weights (signals : dict PairInternalId SignalWeights) : weight_dict :=
  dict_of_list id_eqb
    (map (fun s => (internal_id (pair s), normalised_weight s))
         (dict_values signals)).

(** [{s.pair.internal_id: s.old_weight for s in self.signals.values()}] *)
Definition existing_weights (signals : dict PairInternalId SignalWeights)
    : weight_dict :=
  dict_of_list id_eqb
    (map (fun s => (internal_id (pair s), old_weight s))
         (dict_values signals)).

(** [existing_weights.get(id, 0)] *)
Definition get_or_zero (k : PairInternalId) (d : weight_dict) : float :=
  match dict_get id_eqb k d with Some w => w | None => 0%float end.

(** The two loops that fill [diffs]. *)
Definition weight_diffs (new existing : weight_dict) : weight_dict :=
  let diffs :=
    fold_left
      (fun diffs kv =>
         dict_set id_eqb (fst kv) (sub (snd kv) (get_or_zero (fst kv) existing))
           diffs)
      new [] in
  fold_left
    (fun diffs kv =>
       if dict_mem id_eqb (fst kv) diffs then diffs
       else dict_set id_eqb (fst kv) (opp (snd kv)) diffs)
    existing diffs.

(** [check_normalised_weights] of [tradeexecutor.strategy.weighting]. *)
Class Weighting : Type := {
  check_normalised_weights : weight_dict -> outcome unit
}.

(** The method reads [self.signals] and assigns nothing. *)
Definition calculate_weight_diffs {W : Weighting}
    : M (dict PairInternalId SignalWeights) weight_dict :=
  (signals <- get ;;
   lift_outcome (check_normalised_weights (new_weights signals)) ;;
   lift_outcome (check_normalised_weights (existing_weights signals)) ;;
   ret (weight_diffs (new_weights signals) (existing_weights signals)))%py.

End Binary64.

(* ===================================================================== *)
(** ** A concrete world to run the model in *)
(* ===================================================================== *)

Module Demo.

(** Pair kinds read off the internal id: below 100 spot, from 100 to 199
    the short market of the spot pair 100 lower, from 200 leveraged long. *)
Definition id_of (p : TradingPairIdentifier) : Z :=
  match internal_id p with Some z => z | None => 0 end.

#[export] Instance kinds : PairKinds := {
  is_spot p := (id_of p <? 100)%Z;
  is_long p := (200 <=? id_of p)%Z;
  is_short p := (100 <=? id_of p)%Z && (id_of p <? 200)%Z;
  get_pricing_pair p :=
    Ok (mkPair (base p) (quote p) (pool_address p)
          (Some (id_of p mod 100)%Z) (info_url p))
}.

Definition usdc : AssetIdentifier :=
  mkAsset 1 "0xa0b8" "USDC" (Some 6%Z) (Some 1%Z) None.
Definition weth : AssetIdentifier :=
  mkAsset 1 "0xc02a" "WETH" (Some 18%Z) (Some 2%Z) None.
Definition wbtc : AssetIdentifier :=
  mkAsset 1 "0x2260" "WBTC" (Some 8%Z) (Some 3%Z) None.

Definition eth_usdc : TradingPairIdentifier :=
  mkPair weth usdc "0xb4e1" (Some 1%Z) None.
Definition btc_usdc : TradingPairIdentifier :=
  mkPair wbtc usdc "0x99ac" (Some 2%Z) None.
Definition eth_usdc_short : TradingPairIdentifier :=
  mkPair weth usdc "0xb4e1" (Some 101%Z) None.

(** Modelled from the spec: [check_normalised_weights], whose module
    [tradeexecutor.strategy.weighting] is not among the sources.  The
    weights sum to one within a tolerance, here [1/10000], or there are
    none. *)
#[export] Instance weighting : Weighting := {
  check_normalised_weights weights :=
    match weights with
    | [] => Ok tt
    | _ =>
        if Qltb (1 # 10000) (Qabs (dict_sum weights - 1))
        then Raise (ExternalError "Total sum of normalised portfolio weights was not 1.0")
        else Ok tt
    end
}.

(** A signal as it stands after selection, weighting and the merge of
    the old weights: pair, signal, leverage, normalised weight, old
    weight, old value and old pair. *)
Definition weighted (p : TradingPairIdentifier) (alpha : Q)
    (lev : option PyNum) (nw ow ov : Q) (op : option TradingPairIdentifier)
    : TradingPairSignal :=
  mkSignal p alpha None None None nw nw ow ov op 0 0 (PyFloat 0) None false
    0 0 None lev.

Definition with_signals (l : list TradingPairSignal) : AlphaModel :=
  set_signals (map (fun s => (internal_id (pair s), s)) l) (new_model None).

(** Two held assets whose weights move from 50/50 to 60/40. *)
Definition shifted_model : AlphaModel :=
  with_signals
    [ weighted eth_usdc 2 None (6 # 10) (5 # 10) 500 (Some eth_usdc);
      weighted btc_usdc 1 None (4 # 10) (5 # 10) 500 (Some btc_usdc) ].

(** A position manager over a list of open positions.  A close removes
    the position and sells its value, an open takes the next free
    position id, an adjustment trades the difference; the price of every
    asset is 2000. *)
Record Position : Type := mkPosition {
  pos_id : Z;
  pos_pair : TradingPairIdentifier;
  pos_value : Q;
  pos_profit : Q
}.

Record Trade : Type := mkTrade {
  trade_pos_id : option Z;
  trade_pair : TradingPairIdentifier;
  trade_usd : Q;
  trade_notes : string
}.

Record Portfolio : Type := mkPortfolio {
  open_positions : list Position;
  next_id : Z
}.

Definition same_pair (p : TradingPairIdentifier) (pos : Position) : bool :=
  id_eqb (internal_id p) (internal_id (pos_pair pos)).

Definition short_of (p : TradingPairIdentifier) : TradingPairIdentifier :=
  mkPair (base p) (quote p) (pool_address p) (Some (id_of p + 100)%Z) (info_url p).

Definition open_new (p : TradingPairIdentifier) (usd : Q) (notes : string)
    : M Portfolio (list Trade) :=
  fun st =>
    (Ok [mkTrade (Some (next_id st)) p usd notes],
     mkPortfolio (open_positions st ++ [mkPosition (next_id st) p usd 0])
       (next_id st + 1)%Z).

#[export] Instance manager : PositionManager := {
  pm_state := Portfolio;
  TradingPosition := Position;
  TradeExecution := Trade;
  trade_position_id := trade_pos_id;
  get_execution_sort_position t := if Qltb (trade_usd t) 0 then (-1)%Z else 1%Z;
  get_total_profit_usd pos _ := pos_profit pos;
  get_total_profit_percent pos _ := pos_profit pos / pos_value pos;
  get_current_position_for_pair p st := find (same_pair p) (open_positions st);
  get_shorting_pair p _ := Ok (short_of p);
  estimate_asset_quantity _ usd _ := Ok (PyFloat (usd / 2000));
  close_position pos _ notes := fun st =>
    (Ok [mkTrade (Some (pos_id pos)) (pos_pair pos) (- pos_value pos) notes],
     mkPortfolio
       (filter (fun q => negb (pos_id q =? pos_id pos)%Z) (open_positions st))
       (next_id st));
  open_short p value _ _ _ _ notes := open_new (short_of p) value notes;
  adjust_short pos value notes := fun st =>
    match pos with
    | Some q =>
        (Ok [mkTrade (Some (pos_id q)) (pos_pair q) (value - pos_value q) notes], st)
    | None => (Raise (ExternalError "no short position to adjust"), st)
    end;
  adjust_position p dollar_diff _ _ _ _ _ _ notes := fun st =>
    match find (same_pair p) (open_positions st) with
    | Some q => (Ok [mkTrade (Some (pos_id q)) p dollar_diff notes], st)
    | None => open_new p dollar_diff notes st
    end
}.

#[export] Instance rendering : Rendering := {
  repr_signal s := token_symbol (base (pair s));
  format_float _ := "0.0"%string
}.

(** Run [calculate_target_positions] and keep the model it leaves. *)
Definition targeted (equity : Q) (m : AlphaModel) (pf : pm_state) : AlphaModel :=
  fst (snd (calculate_target_positions equity (m, pf))).

(** A portfolio of 1000 USD.  ETH is down to a weight of 0.3% against
    a position worth 5 USD, so 2 USD would have to be sold; BTC has to
    grow by 2 USD. *)
Definition dust_portfolio : pm_state :=
  mkPortfolio [mkPosition 7 eth_usdc 5 0; mkPosition 8 btc_usdc 995 0] 9.

Definition dust_model : AlphaModel :=
  targeted 1000
    (with_signals
       [ weighted eth_usdc 1 None (3 # 1000) (5 # 1000) 5 (Some eth_usdc);
         weighted btc_usdc 2 None (997 # 1000) (995 # 1000) 995 (Some btc_usdc) ])
    dust_portfolio.

(** The same weights against an ETH position worth 500 USD: 497 USD to
    sell. *)
Definition heavy_portfolio : pm_state :=
  mkPortfolio [mkPosition 7 eth_usdc 500 0; mkPosition 8 btc_usdc 500 0] 9.

Definition heavy_model : AlphaModel :=
  targeted 1000
    (with_signals
       [ weighted eth_usdc 1 None (3 # 1000) (1 # 2) 500 (Some eth_usdc);
         weighted btc_usdc 2 None (997 # 1000) (1 # 2) 500 (Some btc_usdc) ])
    heavy_portfolio.

(** The flip of the specification: ETH was held spot at a weight of 0.6,
    worth 600 USD; its signal is now -0.8 with a leverage of 3 and it is
    the only signal, so its target is the whole equity of 1000 USD. *)
Definition flip_portfolio : pm_state :=
  mkPortfolio [mkPosition 7 eth_usdc 600 0] 9.

Definition flip_model : AlphaModel :=
  targeted 1000
    (with_signals
       [ weighted eth_usdc (- (8 # 10)) (Some (PyFloat 3)) 1 (6 # 10) 600
           (Some eth_usdc) ])
    flip_portfolio.

(** A new long signal that carries a leverage. *)
Definition empty_portfolio : pm_state := mkPortfolio [] 1.

Definition leveraged_long_model : AlphaModel :=
  targeted 1000
    (with_signals [ weighted eth_usdc 1 (Some (PyFloat 2)) 1 0 0 None ])
    empty_portfolio.

(** Two new assets at equal weights and 1000 USD of equity: ETH long,
    BTC short with a leverage of 2. *)
Definition btc_usdc_short : TradingPairIdentifier := short_of btc_usdc.

Definition equal_weight_model : AlphaModel :=
  targeted 1000
    (with_signals
       [ weighted eth_usdc 1 None (1 # 2) 0 0 None;
         weighted btc_usdc (- (1 # 2)) (Some (PyFloat 2)) (1 # 2) 0 0 None ])
    empty_portfolio.

(** Two raw signals registered on a fresh model. *)
Definition registered_model : AlphaModel :=
  snd (set_signal btc_usdc 1 None None None None
         (snd (set_signal eth_usdc 2 None None None None (new_model None)))).

(** ETH held as a leveraged long worth 600 USD, with a signal that now
    asks for a short. *)
Definition eth_usdc_long : TradingPairIdentifier :=
  mkPair weth usdc "0xb4e1" (Some 201%Z) None.

Definition long_portfolio : pm_state :=
  mkPortfolio [mkPosition 7 eth_usdc_long 600 0] 9.

Definition from_long_model : AlphaModel :=
  targeted 1000
    (with_signals
       [ weighted eth_usdc (- (1)) (Some (PyFloat 2)) 1 (6 # 10) 600
           (Some eth_usdc_long) ])
    long_portfolio.

(** The signal under the id of a pair, for a model that has one. *)
Definition signal_of (m : AlphaModel) (p : TradingPairIdentifier) : TradingPairSignal :=
  match get_signal_by_pair m p with
  | Some s => s
  | None => weighted p 0 None 0 0 0 None
  end.

(** Binary64 weights: two assets going from 0.1 and 0.9 to 0.3 and 0.7. *)
Module Rounding.
Import PrimFloat.
#[local] Set Warnings "-inexact-float".

(** Modelled from the spec: [check_normalised_weights] on binary64
    weights, whose module is not among the sources.  The weights sum to
    one within [0.0001], or there are none. *)
#[export] Instance weighting : Binary64.Weighting := {
  Binary64.check_normalised_weights weights :=
    match weights with
    | [] => Ok tt
    | _ =>
        if ltb 0.0001%float (abs (sub (Binary64.dict_sum weights) 1%float))
        then Raise (ExternalError "Total sum of normalised portfolio weights was not 1.0")
        else Ok tt
    end
}.

Definition rounding_signals : dict PairInternalId Binary64.SignalWeights :=
  [ (Some 1%Z, Binary64.mkWeights eth_usdc 0.3%float 0.1%float);
    (Some 2%Z, Binary64.mkWeights btc_usdc 0.7%float 0.9%float) ].

End Rounding.

End Demo.

Unset Implicit Arguments.

(* ===================================================================== *)
(** ** Facts about the Python values *)
(* ===================================================================== *)

Lemma Qltb_lt (x y : Q) : Qltb x y = true <-> x < y.
Proof.
  unfold Qltb. rewrite negb_true_iff.
  split; intro H.
  - apply Qnot_le_lt. intro Hle. apply Qle_bool_iff in Hle. congruence.
  - destruct (Qle_bool y x) eqn:E; [|reflexivity].
    apply Qle_bool_iff in E. exfalso. exact (Qlt_not_le _ _ H E).
Qed.

Lemma Qltb_ge (x y : Q) : Qltb x y = false <-> y <= x.
Proof.
  unfold Qltb. rewrite negb_false_iff. apply Qle_bool_iff.
Qed.

Lemma Qeq_bool_false (x y : Q) : Qeq_bool x y = false <-> ~ x == y.
Proof.
  split; intro H.
  - intro E. apply Qeq_bool_iff in E. congruence.
  - destruct (Qeq_bool x y) eqn:E; [|reflexivity].
    apply Qeq_bool_iff in E. contradiction.
Qed.

Lemma id_eqb_eq (a b : PairInternalId) : id_eqb a b = true <-> a = b.
Proof.
  destruct a as [x|], b as [y|]; simpl; split; intro H;
    try discriminate; try reflexivity.
  - apply Z.eqb_eq in H. now subst.
  - injection H as ->. apply Z.eqb_refl.
Qed.

Lemma id_eqb_refl (a : PairInternalId) : id_eqb a a = true.
Proof. now apply id_eqb_eq. Qed.

(* ===================================================================== *)
(** ** Flip detection *)
(* ===================================================================== *)

Section FlipFacts.
Context {PK : PairKinds}.

Lemma is_flipping_closing (s : TradingPairSignal) :
  normalised_weight s == 0 -> is_flipping s = false.
Proof.
  intro H. unfold is_flipping.
  apply Qeq_bool_iff in H. now rewrite H.
Qed.

Lemma is_flipping_no_old_pair (s : TradingPairSignal) :
  old_pair s = None -> is_flipping s = false.
Proof.
  intro H. unfold is_flipping. rewrite H. now destruct (Qeq_bool _ _).
Qed.

(** C4. [is_flipping] is true exactly when the normalised weight is
    non-zero, an old pair exists, and the old pair is long or spot under
    a negative signal or short under a positive signal; with a
    normalised weight of zero (closing to flat) it is false. *)
Theorem is_flipping_iff (s : TradingPairSignal) :
  (is_flipping s = true <->
     ~ normalised_weight s == 0 /\
     exists op, old_pair s = Some op /\
       ((signal s < 0 /\ (is_long op = true \/ is_spot op = true)) \/
        (0 < signal s /\ is_short op = true)))
  /\ (normalised_weight s == 0 -> is_flipping s = false).
Proof.
  split; [|apply is_flipping_closing].
  unfold is_flipping.
  destruct (Qeq_bool (normalised_weight s) 0) eqn:Ew.
  - apply Qeq_bool_iff in Ew. split; [discriminate|].
    intros [Hn _]. contradiction.
  - apply Qeq_bool_false in Ew.
    destruct (old_pair s) as [op|].
    + destruct (Qltb (signal s) 0) eqn:Eneg.
      * apply Qltb_lt in Eneg. rewrite orb_true_iff. split.
        -- intro H. split; [exact Ew|]. exists op. split; [reflexivity|].
           left. split; assumption.
        -- intros [_ [op' [Hop [[_ H]|[Hpos _]]]]].
           ++ now injection Hop as <-.
           ++ exfalso. apply (Qlt_irrefl 0). now apply Qlt_trans with (signal s).
      * apply Qltb_ge in Eneg.
        destruct (Qltb 0 (signal s)) eqn:Epos.
        -- apply Qltb_lt in Epos. split.
           ++ intro H. split; [exact Ew|]. exists op. split; [reflexivity|].
              right. split; assumption.
           ++ intros [_ [op' [Hop [[Hneg _]|[_ H]]]]].
              ** exfalso. exact (Qlt_not_le _ _ Hneg Eneg).
              ** now injection Hop as <-.
        -- apply Qltb_ge in Epos. split; [discriminate|].
           intros [_ [op' [_ [[Hneg _]|[Hpos _]]]]]; exfalso.
           ++ exact (Qlt_not_le _ _ Hneg Eneg).
           ++ exact (Qlt_not_le _ _ Hpos Epos).
    + split; [discriminate|]. intros [_ [op' [Hop _]]]. discriminate.
Qed.

End FlipFacts.

(* ===================================================================== *)
(** ** Signal registration *)
(* ===================================================================== *)

(** Unfolds the monad operations so that a computation applied to a
    state reduces to its result. *)
Ltac run_py :=
  unfold bind, ret, raise, get, put, modify, assert_, assert_with, when,
    lift_outcome, this, update, ask, ask_outcome, call in *;
  simpl in *.

Section Registration.
Context {PK : PairKinds}.

Lemma alpha_negative_nonzero (alpha : Q) :
  alpha < 0 -> Qeq_bool alpha 0 = false.
Proof.
  intro H. apply Qeq_bool_false. intro E. rewrite E in H.
  exact (Qlt_irrefl 0 H).
Qed.

(** A short signal without a leverage argument is refused and the model
    stays as it was. *)
Lemma set_signal_short_without_leverage
    (p : TradingPairIdentifier) (alpha : Q) (sl tp tsl : option Q)
    (m : AlphaModel) :
  is_spot p = true -> alpha < 0 ->
  set_signal p alpha sl tp tsl None m
  = (Raise (TypeError "get_human_description() got an unexpected keyword argument 'describe_type'"),
     m).
Proof.
  intros Hspot Hneg. unfold set_signal. run_py.
  rewrite Hspot. apply Qltb_lt in Hneg. now rewrite Hneg.
Qed.

(** A short signal with a non-zero leverage that is not a positive
    float is refused and the model stays as it was. *)
Lemma set_signal_short_bad_leverage
    (p : TradingPairIdentifier) (alpha : Q) (sl tp tsl : option Q)
    (l : PyNum) (m : AlphaModel) :
  is_spot p = true -> alpha < 0 -> truthy l = true ->
  is_float l && Qltb 0 (num_value l) = false ->
  exists msg,
    set_signal p alpha sl tp tsl (Some l) m = (Raise (AssertionError msg), m).
Proof.
  intros Hspot Hneg Ht Hbad. unfold set_signal. run_py.
  rewrite Hspot. pose proof (alpha_negative_nonzero _ Hneg) as Hnz.
  apply Qltb_lt in Hneg. rewrite Hneg. simpl. rewrite Hnz.
  unfold new_signal, post_init. simpl. rewrite Hspot, Ht. simpl.
  destruct (is_float l); simpl in *.
  - rewrite Hbad. simpl. eauto.
  - eauto.
Qed.

(** A short signal with a positive float leverage is stored. *)
Lemma set_signal_short_positive_leverage
    (p : TradingPairIdentifier) (alpha : Q) (sl tp tsl : option Q)
    (x : Q) (m : AlphaModel) :
  is_spot p = true -> alpha < 0 -> 0 < x ->
  set_signal p alpha sl tp tsl (Some (PyFloat x)) m
  = (Ok tt,
     set_raw_signals
       (dict_set id_eqb (internal_id p)
          (registered p alpha sl tp tsl (Some (PyFloat x))) (raw_signals m)) m).
Proof.
  intros Hspot Hneg Hpos. unfold set_signal. run_py.
  rewrite Hspot. pose proof (alpha_negative_nonzero _ Hneg) as Hnz.
  apply Qltb_lt in Hneg. rewrite Hneg. simpl. rewrite Hnz.
  unfold new_signal, post_init. simpl. rewrite Hspot. simpl.
  apply Qltb_lt in Hpos. rewrite Hpos. simpl.
  now destruct (truthy (PyFloat x)).
Qed.

(** C2, the failing input.  A short signal whose leverage is zero passes
    both checks, the [is not None] of [set_signal] and the
    [if self.leverage:] of [__post_init__], and is stored with that
    leverage. *)
Theorem set_signal_short_zero_leverage_stored
    (p : TradingPairIdentifier) (alpha : Q) (sl tp tsl : option Q)
    (l : PyNum) (m : AlphaModel) :
  is_spot p = true -> alpha < 0 -> num_value l == 0 ->
  set_signal p alpha sl tp tsl (Some l) m
  = (Ok tt,
     set_raw_signals
       (dict_set id_eqb (internal_id p)
          (registered p alpha sl tp tsl (Some l)) (raw_signals m)) m).
Proof.
  intros Hspot Hneg Hzero. unfold set_signal. run_py.
  rewrite Hspot. pose proof (alpha_negative_nonzero _ Hneg) as Hnz.
  apply Qltb_lt in Hneg. rewrite Hneg. simpl. rewrite Hnz.
  unfold new_signal, post_init. simpl. rewrite Hspot. simpl.
  unfold truthy. apply Qeq_bool_iff in Hzero. now rewrite Hzero.
Qed.

End Registration.

Section RegistrationExamples.
Import Demo.

Lemma set_signal_short_zero_leverage_stored_witness :
  let m := new_model None in
  (is_spot Demo.eth_usdc = true /\ -1 < 0 /\ num_value (PyFloat 0) == 0) /\
  set_signal Demo.eth_usdc (-1) None None None (Some (PyFloat 0)) m
  = (Ok tt,
     set_raw_signals
       [(Some 1%Z,
         registered Demo.eth_usdc (-1) None None None (Some (PyFloat 0)))] m).
Proof.
  split.
  - repeat split; reflexivity.
  - apply (set_signal_short_zero_leverage_stored
             Demo.eth_usdc (-1) None None None (PyFloat 0)
             (new_model None)); reflexivity.
Defined.

End RegistrationExamples.

(* ===================================================================== *)
(** ** Selection of the top signals *)
(* ===================================================================== *)

Section SortFacts.
Context {A : Type} (key : A -> Q).

Lemma insert_desc_perm (x : A) (l : list A) :
  Permutation (insert_desc key x l) (x :: l).
Proof.
  induction l as [|y ys IH]; simpl.
  - reflexivity.
  - destruct (Qltb (key x) (key y)).
    + rewrite IH. apply perm_swap.
    + reflexivity.
Qed.

Lemma sorted_reverse_perm (l : list A) : Permutation (sorted_reverse key l) l.
Proof.
  induction l as [|x l IH]; simpl.
  - reflexivity.
  - rewrite insert_desc_perm. now constructor.
Qed.

Lemma insert_desc_sorted (x : A) (l : list A) :
  StronglySorted (ranks_above key) l -> StronglySorted (ranks_above key) (insert_desc key x l).
Proof.
  induction 1 as [|y ys Hs IH Hy]; simpl.
  - constructor; constructor.
  - destruct (Qltb (key x) (key y)) eqn:E.
    + constructor; [exact IH|].
      apply Forall_forall. intros z Hz.
      apply (Permutation_in _ (insert_desc_perm x ys)) in Hz.
      destruct Hz as [<-|Hz].
      * apply Qltb_lt in E. now apply Qlt_le_weak.
      * rewrite Forall_forall in Hy. now apply Hy.
    + apply Qltb_ge in E. constructor.
      * now constructor.
      * constructor; [exact E|].
        apply Forall_forall. intros z Hz. rewrite Forall_forall in Hy.
        unfold ranks_above in *. apply Qle_trans with (key y); auto.
Qed.

Lemma sorted_reverse_sorted (l : list A) :
  StronglySorted (ranks_above key) (sorted_reverse key l).
Proof.
  induction l as [|x l IH]; simpl.
  - constructor.
  - now apply insert_desc_sorted.
Qed.

Lemma sorted_prefix_above (n : nat) (l : list A) :
  StronglySorted (ranks_above key) l ->
  forall a b, In a (firstn n l) -> In b (skipn n l) -> ranks_above key a b.
Proof.
  intro Hs. revert n.
  induction Hs as [|x xs Hs IH Hx]; intros n a b Ha Hb.
  - now destruct n.
  - destruct n as [|n]; simpl in *; [contradiction|].
    destruct Ha as [<-|Ha].
    + rewrite Forall_forall in Hx. apply Hx.
      rewrite <- (firstn_skipn n xs). apply in_or_app. now right.
    + now apply (IH n).
Qed.

(** What [nlargest] returns: a prefix of a reordering of the input, of
    the requested length when there are that many entries, and ranking
    at least as high as everything left out. *)
Lemma nlargest_spec (n : Z) (l : list A) :
  exists rest,
    Permutation (nlargest n l key ++ rest) l /\
    length (nlargest n l key) = Nat.min (Z.to_nat n) (length l) /\
    StronglySorted (ranks_above key) (nlargest n l key) /\
    forall a b, In a (nlargest n l key) -> In b rest -> key b <= key a.
Proof.
  unfold nlargest.
  exists (skipn (Z.to_nat n) (sorted_reverse key l)).
  pose proof (sorted_reverse_sorted l) as Hs.
  repeat split.
  - rewrite firstn_skipn. apply sorted_reverse_perm.
  - rewrite length_firstn.
    now rewrite (Permutation_length (sorted_reverse_perm l)).
  - rewrite <- (firstn_skipn (Z.to_nat n) (sorted_reverse key l)) in Hs.
    revert Hs. generalize (firstn (Z.to_nat n) (sorted_reverse key l)).
    intro l1. induction l1 as [|x l1 IH]; simpl; intro Hs.
    + constructor.
    + apply StronglySorted_inv in Hs. destruct Hs as [Hs Hx].
      constructor; [now apply IH|].
      apply Forall_app in Hx. tauto.
  - intros a b. apply sorted_prefix_above. exact Hs.
Qed.

End SortFacts.

Section DictFacts.
Context {V : Type}.

Lemma dict_set_fresh (k : PairInternalId) (v : V) (d : dict PairInternalId V) :
  ~ In k (dict_keys d) -> dict_set id_eqb k v d = d ++ [(k, v)].
Proof.
  induction d as [|[k' v'] d IH]; simpl; intro Hn.
  - reflexivity.
  - destruct (id_eqb k k') eqn:E.
    + apply id_eqb_eq in E. subst. tauto.
    + rewrite IH; tauto.
Qed.

Lemma fold_dict_set_distinct (l acc : dict PairInternalId V) :
  NoDup (dict_keys (acc ++ l)) ->
  fold_left (fun d kv => dict_set id_eqb (fst kv) (snd kv) d) l acc = acc ++ l.
Proof.
  revert acc. induction l as [|[k v] l IH]; intros acc Hnd; simpl.
  - now rewrite app_nil_r.
  - rewrite dict_set_fresh.
    + rewrite IH; rewrite <- app_assoc; [reflexivity|exact Hnd].
    + unfold dict_keys in *. rewrite map_app in Hnd.
      apply NoDup_remove_2 in Hnd. intro Hin. apply Hnd.
      apply in_or_app. now left.
Qed.

(** A comprehension over entries with distinct keys keeps the entries
    and their order. *)
Lemma dict_of_list_distinct (l : list (PairInternalId * V)) :
  NoDup (map fst l) -> dict_of_list id_eqb l = l.
Proof.
  intro Hnd. unfold dict_of_list. now rewrite fold_dict_set_distinct.
Qed.

End DictFacts.

Section Selection.
Context {PK : PairKinds}.

(** C8. [select_top_signals] keeps exactly the raw signals with
    [abs(signal) >= threshold], takes from them the [count] entries with
    the highest [raw_weight] (all of them when there are fewer, none for
    a count below one), and stores these, keyed by pair id, as the
    [signals] of the model. *)
Theorem select_top_signals_spec (count : Z) (threshold : Q) (m : AlphaModel) :
  let kept :=
    filter (fun s => Qle_bool threshold (Qabs (signal s)))
           (dict_values (raw_signals m)) in
  exists top rest : list TradingPairSignal,
    select_top_signals count threshold m
    = (Ok tt,
       set_signals
         (dict_of_list id_eqb (map (fun s => (internal_id (pair s), s)) top)) m)
    /\ Permutation (top ++ rest) kept
    /\ (forall s, In s kept <->
          In s (dict_values (raw_signals m)) /\ threshold <= Qabs (signal s))
    /\ length top = Nat.min (Z.to_nat count) (length kept)
    /\ (forall a b, In a top -> In b rest -> raw_weight b <= raw_weight a)
    /\ (NoDup (map (fun s => internal_id (pair s)) top) ->
        dict_values
          (dict_of_list id_eqb (map (fun s => (internal_id (pair s), s)) top))
        = top).
Proof.
  intro kept.
  destruct (nlargest_spec raw_weight count kept) as [rest [Hp [Hl [_ Hr]]]].
  exists (nlargest count kept raw_weight), rest.
  split; [reflexivity|].
  split; [exact Hp|].
  split; [|split; [exact Hl|split; [exact Hr|]]].
  - intro s. unfold kept. rewrite filter_In, Qle_bool_iff. reflexivity.
  - intro Hnd. rewrite dict_of_list_distinct.
    + unfold dict_values. rewrite map_map. simpl. apply map_id.
    + now rewrite map_map.
Qed.

End Selection.

(* ===================================================================== *)
(** ** Weight differences *)
(* ===================================================================== *)

Section DiffFacts.

Implicit Types (new existing : weight_dict) (k : PairInternalId).

Lemma dict_mem_in_keys {V : Type} k (d : dict PairInternalId V) :
  dict_mem id_eqb k d = true <-> In k (dict_keys d).
Proof.
  unfold dict_mem. induction d as [|[k' v'] d IH]; simpl.
  - split; [discriminate|contradiction].
  - destruct (id_eqb k k') eqn:E.
    + apply id_eqb_eq in E. subst. tauto.
    + rewrite IH. split; [tauto|]. intros [H|H]; [|exact H].
      subst. rewrite id_eqb_refl in E. discriminate.
Qed.

Lemma dict_get_not_in_keys {V : Type} k (d : dict PairInternalId V) :
  ~ In k (dict_keys d) -> dict_get id_eqb k d = None.
Proof.
  intro H. destruct (dict_get id_eqb k d) eqn:E; [|reflexivity].
  exfalso. apply H. apply dict_mem_in_keys. unfold dict_mem. now rewrite E.
Qed.

Lemma dict_set_keys_present {V : Type} k (v : V) (d : dict PairInternalId V) :
  In k (dict_keys d) -> dict_keys (dict_set id_eqb k v d) = dict_keys d.
Proof.
  induction d as [|[k' v'] d IH]; simpl; intro Hin.
  - contradiction.
  - destruct (id_eqb k k') eqn:E; simpl; [reflexivity|].
    f_equal. apply IH. destruct Hin as [->|Hin]; [|exact Hin].
    rewrite id_eqb_refl in E. discriminate.
Qed.

Lemma dict_set_keys_NoDup {V : Type} k (v : V) (d : dict PairInternalId V) :
  NoDup (dict_keys d) -> NoDup (dict_keys (dict_set id_eqb k v d)).
Proof.
  intro Hnd. destruct (dict_mem id_eqb k d) eqn:Em.
  - apply dict_mem_in_keys in Em. now rewrite dict_set_keys_present.
  - assert (Hf : ~ In k (dict_keys d)).
    { intro H. apply dict_mem_in_keys in H. congruence. }
    rewrite (dict_set_fresh _ _ _ Hf). unfold dict_keys in *.
    rewrite map_app. simpl. apply NoDup_app_remove_l with (l := []).
    simpl. apply Permutation_NoDup with (l := k :: map fst d).
    + apply Permutation_cons_append.
    + now constructor.
Qed.

(** A dictionary comprehension has no repeated key. *)
Lemma dict_of_list_NoDup {V : Type} (l : list (PairInternalId * V)) :
  NoDup (dict_keys (dict_of_list id_eqb l)).
Proof.
  unfold dict_of_list.
  assert (H : forall acc : dict PairInternalId V, NoDup (dict_keys acc) ->
            NoDup (dict_keys
                     (fold_left (fun d kv => dict_set id_eqb (fst kv) (snd kv) d)
                        l acc))).
  { induction l as [|[k v] l IH]; intros acc Hacc; simpl; [exact Hacc|].
    apply IH. now apply dict_set_keys_NoDup. }
  apply H. constructor.
Qed.

Lemma dict_sum_app (d1 d2 : weight_dict) : dict_sum (d1 ++ d2) == dict_sum d1 + dict_sum d2.
Proof.
  unfold dict_sum, dict_values. induction d1 as [|[k v] d1 IH]; simpl.
  - ring.
  - rewrite IH. ring.
Qed.

(** The first loop: one entry per new weight, in the same order. *)
Lemma first_loop new existing :
  NoDup (dict_keys new) ->
  fold_left
    (fun diffs kv =>
       dict_set id_eqb (fst kv) (snd kv - get_or_zero (fst kv) existing) diffs)
    new []
  = map (fun kv => (fst kv, snd kv - get_or_zero (fst kv) existing)) new.
Proof.
  intro Hnd.
  assert (H : forall acc : weight_dict,
            NoDup (dict_keys acc ++ dict_keys new) ->
            fold_left
              (fun diffs kv =>
                 dict_set id_eqb (fst kv)
                   (snd kv - get_or_zero (fst kv) existing) diffs) new acc
            = acc ++ map (fun kv => (fst kv, snd kv - get_or_zero (fst kv) existing))
                       new).
  { clear Hnd. induction new as [|[k v] new IH]; intros acc Hacc; simpl.
    - now rewrite app_nil_r.
    - rewrite dict_set_fresh.
      + rewrite IH.
        * now rewrite <- app_assoc.
        * unfold dict_keys in *. rewrite map_app. simpl.
          rewrite <- app_assoc. exact Hacc.
      + simpl in Hacc. apply NoDup_remove_2 in Hacc.
        intro Hin. apply Hacc. apply in_or_app. now left. }
  now apply (H []).
Qed.

(** The second loop: the old weights whose key the first loop did not
    produce are appended, negated. *)
Lemma second_loop existing (acc : weight_dict) :
  NoDup (dict_keys existing) ->
  fold_left
    (fun diffs kv =>
       if dict_mem id_eqb (fst kv) diffs then diffs
       else dict_set id_eqb (fst kv) (- snd kv) diffs)
    existing acc
  = acc ++ map (fun kv => (fst kv, - snd kv))
             (filter (fun kv => negb (dict_mem id_eqb (fst kv) acc)) existing).
Proof.
  revert acc. induction existing as [|[k v] existing IH]; intros acc Hnd; simpl.
  - now rewrite app_nil_r.
  - inversion Hnd as [|? ? Hk Hrest]; subst.
    destruct (dict_mem id_eqb k acc) eqn:Em; simpl.
    + now apply IH.
    + assert (Hf : ~ In k (dict_keys acc)).
      { intro H. apply dict_mem_in_keys in H. congruence. }
      rewrite (dict_set_fresh _ _ _ Hf), IH by exact Hrest.
      rewrite <- app_assoc. simpl. do 3 f_equal.
      apply filter_ext_in. intros [k' v'] Hin. simpl. f_equal.
      assert (Hne : k' <> k).
      { intros ->. apply Hk. change k with (fst (k, v')). now apply in_map. }
      destruct (dict_mem id_eqb k' acc) eqn:E1.
      * apply dict_mem_in_keys. apply dict_mem_in_keys in E1.
        unfold dict_keys in *. rewrite map_app. apply in_or_app. now left.
      * destruct (dict_mem id_eqb k' (acc ++ [(k, - v)])) eqn:E2; [|reflexivity].
        apply dict_mem_in_keys in E2. unfold dict_keys in E2.
        rewrite map_app in E2. apply in_app_or in E2. simpl in E2.
        destruct E2 as [E2|[E2|[]]]; [|congruence].
        apply dict_mem_in_keys in E2. congruence.
Qed.

End DiffFacts.

Section DiffSums.

Implicit Types (new existing : weight_dict) (k : PairInternalId).

Lemma id_eqb_sym k k' : id_eqb k k' = id_eqb k' k.
Proof.
  destruct (id_eqb k k') eqn:E.
  - apply id_eqb_eq in E. subst. now rewrite id_eqb_refl.
  - destruct (id_eqb k' k) eqn:E'; [|reflexivity].
    apply id_eqb_eq in E'. subst. now rewrite id_eqb_refl in E.
Qed.

Lemma dict_sum_cons k (v : Q) (d : weight_dict) :
  dict_sum ((k, v) :: d) = v + dict_sum d.
Proof. reflexivity. Qed.

Lemma dict_sum_subtract (f : PairInternalId -> Q) new :
  dict_sum (map (fun kv => (fst kv, snd kv - f (fst kv))) new)
  == dict_sum new - dict_sum (map (fun kv => (fst kv, f (fst kv))) new).
Proof.
  induction new as [|[k v] new IH]; simpl.
  - unfold dict_sum. simpl. ring.
  - rewrite !dict_sum_cons, IH. ring.
Qed.

Lemma dict_sum_negate (d : weight_dict) :
  dict_sum (map (fun kv => (fst kv, - snd kv)) d) == - dict_sum d.
Proof.
  induction d as [|[k v] d IH]; simpl.
  - unfold dict_sum. simpl. ring.
  - rewrite !dict_sum_cons, IH. ring.
Qed.

(** Looking the new keys up in the old weights, one old entry more. *)
Lemma lookups_cons k (v : Q) new existing :
  NoDup (dict_keys new) -> ~ In k (dict_keys existing) ->
  dict_sum (map (fun kv => (fst kv, get_or_zero (fst kv) ((k, v) :: existing))) new)
  == dict_sum (map (fun kv => (fst kv, get_or_zero (fst kv) existing)) new)
     + (if dict_mem id_eqb k new then v else 0).
Proof.
  intros Hnd Hk. induction new as [|[k1 v1] new IH]; simpl.
  - unfold dict_sum. simpl. ring.
  - inversion Hnd as [|? ? Hk1 Hnew]; subst.
    rewrite !dict_sum_cons, (IH Hnew). simpl.
    unfold get_or_zero at 1 3. unfold dict_mem at 2. simpl.
    rewrite (id_eqb_sym k k1).
    destruct (id_eqb k1 k) eqn:E.
    + apply id_eqb_eq in E. subst k1.
      rewrite (dict_get_not_in_keys _ _ Hk).
      assert (Em : dict_mem id_eqb k new = false).
      { destruct (dict_mem id_eqb k new) eqn:Em; [|reflexivity].
        apply dict_mem_in_keys in Em. contradiction. }
      rewrite Em. ring.
    + fold (dict_mem id_eqb k new). ring.
Qed.

(** Every old weight is counted once: under a new key by the first
    loop, or else by the second. *)
Lemma old_weights_split new existing :
  NoDup (dict_keys new) -> NoDup (dict_keys existing) ->
  dict_sum (map (fun kv => (fst kv, get_or_zero (fst kv) existing)) new)
  + dict_sum (filter (fun kv => negb (dict_mem id_eqb (fst kv) new)) existing)
  == dict_sum existing.
Proof.
  intros Hnew Hex. induction existing as [|[k v] existing IH].
  - simpl. assert (H : dict_sum (map (fun kv : PairInternalId * Q =>
                                        (fst kv, get_or_zero (fst kv) [])) new) == 0).
    { clear Hnew. induction new as [|[k1 v1] new IHn]; simpl.
      - reflexivity.
      - rewrite dict_sum_cons, IHn. unfold get_or_zero. simpl. ring. }
    rewrite H. unfold dict_sum. simpl. ring.
  - inversion Hex as [|? ? Hk Hrest]; subst.
    rewrite (lookups_cons _ v _ _ Hnew Hk). simpl.
    specialize (IH Hrest).
    destruct (dict_mem id_eqb k new); simpl; rewrite !dict_sum_cons;
      rewrite <- IH; ring.
Qed.

Lemma weight_diffs_unfold new existing :
  NoDup (dict_keys new) -> NoDup (dict_keys existing) ->
  weight_diffs new existing
  = map (fun kv => (fst kv, snd kv - get_or_zero (fst kv) existing)) new
    ++ map (fun kv => (fst kv, - snd kv))
         (filter (fun kv => negb (dict_mem id_eqb (fst kv) new)) existing).
Proof.
  intros Hnew Hex. unfold weight_diffs.
  rewrite (first_loop _ existing Hnew), (second_loop _ _ Hex).
  f_equal. f_equal. apply filter_ext. intros [k v]. simpl. f_equal.
  unfold dict_mem.
  induction new as [|[k1 v1] new IH]; simpl; [reflexivity|].
  destruct (id_eqb k k1); [reflexivity|].
  apply IH. now inversion Hnew.
Qed.

(** Over exact rationals the sum of the differences is the difference
    of the sums; binary64 rounds each difference and each partial sum,
    see [Binary64] further down. *)
Lemma weight_diffs_sum new existing :
  NoDup (dict_keys new) -> NoDup (dict_keys existing) ->
  dict_sum (weight_diffs new existing) == dict_sum new - dict_sum existing.
Proof.
  intros Hnew Hex. rewrite (weight_diffs_unfold _ _ Hnew Hex).
  rewrite dict_sum_app, dict_sum_negate.
  rewrite (dict_sum_subtract (fun k => get_or_zero k existing)).
  rewrite <- (old_weights_split _ _ Hnew Hex). ring.
Qed.

End DiffSums.

Section DiffLookups.

Implicit Types (new existing : weight_dict) (k : PairInternalId).

Lemma dict_get_app {V : Type} k (d1 d2 : dict PairInternalId V) :
  dict_get id_eqb k (d1 ++ d2)
  = match dict_get id_eqb k d1 with
    | Some v => Some v
    | None => dict_get id_eqb k d2
    end.
Proof.
  induction d1 as [|[k' v'] d1 IH]; simpl; [reflexivity|].
  now destruct (id_eqb k k').
Qed.

Lemma dict_get_map {V W : Type} (h : PairInternalId -> V -> W) k
    (d : dict PairInternalId V) :
  dict_get id_eqb k (map (fun kv => (fst kv, h (fst kv) (snd kv))) d)
  = option_map (h k) (dict_get id_eqb k d).
Proof.
  induction d as [|[k' v'] d IH]; simpl; [reflexivity|].
  destruct (id_eqb k k') eqn:E; [|exact IH].
  apply id_eqb_eq in E. now subst.
Qed.

Lemma dict_get_filter {V : Type} (keep : PairInternalId -> bool) k
    (d : dict PairInternalId V) :
  dict_get id_eqb k (filter (fun kv => keep (fst kv)) d)
  = if keep k then dict_get id_eqb k d else None.
Proof.
  induction d as [|[k' v'] d IH]; simpl.
  - now destruct (keep k).
  - destruct (id_eqb k k') eqn:E.
    + apply id_eqb_eq in E. subst k'.
      destruct (keep k) eqn:Ek; simpl.
      * now rewrite id_eqb_refl.
      * exact IH.
    + destruct (keep k'); simpl; [rewrite E|]; exact IH.
Qed.

(** The entry of [diffs] for a key of the new weights. *)
Lemma weight_diffs_new_key new existing k (w : Q) :
  NoDup (dict_keys new) -> NoDup (dict_keys existing) ->
  dict_get id_eqb k new = Some w ->
  dict_get id_eqb k (weight_diffs new existing)
  = Some (w - get_or_zero k existing).
Proof.
  intros Hnew Hex Hget. rewrite (weight_diffs_unfold _ _ Hnew Hex).
  rewrite dict_get_app.
  rewrite (dict_get_map (fun k v => v - get_or_zero k existing)).
  now rewrite Hget.
Qed.

(** The entry of [diffs] for a key that only the old weights have. *)
Lemma weight_diffs_old_key new existing k (w : Q) :
  NoDup (dict_keys new) -> NoDup (dict_keys existing) ->
  dict_get id_eqb k existing = Some w ->
  dict_get id_eqb k new = None ->
  dict_get id_eqb k (weight_diffs new existing) = Some (- w).
Proof.
  intros Hnew Hex Hold Hnone. rewrite (weight_diffs_unfold _ _ Hnew Hex).
  rewrite dict_get_app.
  rewrite (dict_get_map (fun k v => v - get_or_zero k existing)).
  rewrite Hnone. simpl.
  rewrite (dict_get_map (fun _ v => - v)).
  rewrite (dict_get_filter (fun k => negb (dict_mem id_eqb k new))).
  unfold dict_mem. now rewrite Hnone, Hold.
Qed.

End DiffLookups.

Section Binary64Diffs.
Context {W : Binary64.Weighting}.

Implicit Types (k : PairInternalId).

(** Where [d[k] = v] puts the key depends on the keys alone. *)
Lemma dict_set_keys_same {V1 V2 : Type} k (v1 : V1) (v2 : V2)
    (d1 : dict PairInternalId V1) (d2 : dict PairInternalId V2) :
  dict_keys d1 = dict_keys d2 ->
  dict_keys (dict_set id_eqb k v1 d1) = dict_keys (dict_set id_eqb k v2 d2).
Proof.
  revert d2. induction d1 as [|[k1 w1] d1 IH]; intros [|[k2 w2] d2] H;
    simpl in *; try discriminate; [reflexivity|].
  injection H as -> H. destruct (id_eqb k k2); simpl; f_equal; auto.
Qed.

(** Two comprehensions over the same keys give the same keys. *)
Lemma dict_of_list_keys_same {V1 V2 : Type} (l1 : list (PairInternalId * V1))
    (l2 : list (PairInternalId * V2)) :
  map fst l1 = map fst l2 ->
  dict_keys (dict_of_list id_eqb l1) = dict_keys (dict_of_list id_eqb l2).
Proof.
  unfold dict_of_list.
  assert (H : forall (acc1 : dict PairInternalId V1) (acc2 : dict PairInternalId V2),
            dict_keys acc1 = dict_keys acc2 ->
            map fst l1 = map fst l2 ->
            dict_keys (fold_left (fun d kv => dict_set id_eqb (fst kv) (snd kv) d)
                         l1 acc1)
            = dict_keys (fold_left (fun d kv => dict_set id_eqb (fst kv) (snd kv) d)
                           l2 acc2)).
  { revert l2. induction l1 as [|[k1 v1] l1 IH]; intros [|[k2 v2] l2] acc1 acc2
      Hacc Hl; simpl in *; try discriminate; [exact Hacc|].
    injection Hl as -> Hl. apply IH; [|exact Hl]. now apply dict_set_keys_same. }
  intro Hl. now apply H.
Qed.

(** A loop that sets one entry per key of a dictionary. *)
Lemma fold_set_map {V1 V2 : Type} (f : PairInternalId -> V1 -> V2)
    (new : dict PairInternalId V1) :
  NoDup (dict_keys new) ->
  fold_left (fun diffs kv => dict_set id_eqb (fst kv) (f (fst kv) (snd kv)) diffs)
    new []
  = map (fun kv => (fst kv, f (fst kv) (snd kv))) new.
Proof.
  intro Hnd.
  assert (H : forall acc : dict PairInternalId V2,
            NoDup (dict_keys acc ++ dict_keys new) ->
            fold_left
              (fun diffs kv => dict_set id_eqb (fst kv) (f (fst kv) (snd kv)) diffs)
              new acc
            = acc ++ map (fun kv => (fst kv, f (fst kv) (snd kv))) new).
  { clear Hnd. induction new as [|[k v] new IH]; intros acc Hacc; simpl.
    - now rewrite app_nil_r.
    - rewrite dict_set_fresh.
      + rewrite IH.
        * now rewrite <- app_assoc.
        * unfold dict_keys in *. rewrite map_app. simpl.
          rewrite <- app_assoc. exact Hacc.
      + simpl in Hacc. apply NoDup_remove_2 in Hacc.
        intro Hin. apply Hacc. apply in_or_app. now left. }
  now apply (H []).
Qed.

(** A loop that fills the gaps finds none when every key is there. *)
Lemma fold_gaps_none {V1 V2 : Type} (g : V1 -> V2)
    (existing : dict PairInternalId V1) (acc : dict PairInternalId V2) :
  (forall k, In k (dict_keys existing) -> In k (dict_keys acc)) ->
  fold_left
    (fun diffs kv =>
       if dict_mem id_eqb (fst kv) diffs then diffs
       else dict_set id_eqb (fst kv) (g (snd kv)) diffs)
    existing acc
  = acc.
Proof.
  induction existing as [|[k v] existing IH]; intro Hall; simpl; [reflexivity|].
  assert (Hk : dict_mem id_eqb k acc = true).
  { apply dict_mem_in_keys. apply Hall. now left. }
  rewrite Hk. apply IH. intros k' Hin. apply Hall. now right.
Qed.

Lemma binary64_keys_agree (signals : dict PairInternalId Binary64.SignalWeights) :
  dict_keys (Binary64.existing_weights signals)
  = dict_keys (Binary64.new_weights signals).
Proof.
  unfold Binary64.existing_weights, Binary64.new_weights.
  apply dict_of_list_keys_same. now rewrite !map_map.
Qed.

(** The differences, one per key of the new weights and in their
    order; the second loop adds nothing. *)
Lemma binary64_weight_diffs_unfold
    (signals : dict PairInternalId Binary64.SignalWeights) :
  Binary64.weight_diffs (Binary64.new_weights signals)
    (Binary64.existing_weights signals)
  = map (fun kv =>
           (fst kv,
            PrimFloat.sub (snd kv)
              (Binary64.get_or_zero (fst kv) (Binary64.existing_weights signals))))
        (Binary64.new_weights signals).
Proof.
  unfold Binary64.weight_diffs.
  rewrite (fold_set_map
             (fun k v =>
                PrimFloat.sub v
                  (Binary64.get_or_zero k (Binary64.existing_weights signals)))).
  2:{ apply dict_of_list_NoDup. }
  apply fold_gaps_none. intros k Hin.
  rewrite binary64_keys_agree in Hin.
  unfold dict_keys in *. now rewrite map_map.
Qed.

(** C9. When [calculate_weight_diffs] returns, the old weights and the
    new weights have the same keys (both are read off [self.signals]),
    so that no key is in the old weights only; the differences have
    these keys too, and the difference of a key is its new weight minus
    its old weight, as the binary64 subtraction gives it.  The signals
    are left as they were.  Of the sums nothing is said: see the example
    below. *)
Theorem calculate_weight_diffs_entries
    (signals signals' : dict PairInternalId Binary64.SignalWeights)
    (diffs : Binary64.weight_dict) :
  Binary64.calculate_weight_diffs signals = (Ok diffs, signals') ->
  signals' = signals
  /\ dict_keys (Binary64.existing_weights signals)
     = dict_keys (Binary64.new_weights signals)
  /\ dict_keys diffs = dict_keys (Binary64.new_weights signals)
  /\ (forall k w,
        dict_get id_eqb k (Binary64.new_weights signals) = Some w ->
        exists ow,
          dict_get id_eqb k (Binary64.existing_weights signals) = Some ow
          /\ dict_get id_eqb k diffs = Some (PrimFloat.sub w ow)).
Proof.
  unfold Binary64.calculate_weight_diffs. run_py.
  destruct (Binary64.check_normalised_weights (Binary64.new_weights signals));
    [|discriminate].
  destruct (Binary64.check_normalised_weights (Binary64.existing_weights signals));
    [|discriminate].
  intro H. injection H as <- <-.
  rewrite binary64_weight_diffs_unfold.
  split; [reflexivity|]. split; [apply binary64_keys_agree|]. split.
  - unfold dict_keys. now rewrite map_map.
  - intros k w Hget.
    assert (Hin : In k (dict_keys (Binary64.existing_weights signals))).
    { rewrite binary64_keys_agree. apply dict_mem_in_keys.
      unfold dict_mem. now rewrite Hget. }
    apply dict_mem_in_keys in Hin. unfold dict_mem in Hin.
    destruct (dict_get id_eqb k (Binary64.existing_weights signals))
      as [ow|] eqn:Hold; [|discriminate].
    exists ow. split; [reflexivity|].
    rewrite (dict_get_map
               (fun k v =>
                  PrimFloat.sub v
                    (Binary64.get_or_zero k (Binary64.existing_weights signals)))).
    rewrite Hget. simpl. unfold Binary64.get_or_zero. now rewrite Hold.
Qed.

End Binary64Diffs.

Section Binary64Examples.
Import Demo.
Import Demo.Rounding.

Lemma calculate_weight_diffs_entries_witness :
  exists diffs w ow,
    Binary64.calculate_weight_diffs rounding_signals = (Ok diffs, rounding_signals)
    /\ dict_get id_eqb (Some 1%Z) (Binary64.new_weights rounding_signals) = Some w
    /\ dict_get id_eqb (Some 1%Z) (Binary64.existing_weights rounding_signals)
       = Some ow
    /\ dict_get id_eqb (Some 1%Z) diffs = Some (PrimFloat.sub w ow).
Proof.
  destruct (Binary64.calculate_weight_diffs rounding_signals)
    as [[diffs|e] signals'] eqn:Hrun; [|vm_compute in Hrun; discriminate].
  destruct (@calculate_weight_diffs_entries Rounding.weighting rounding_signals
              signals' diffs Hrun) as [-> [_ [_ Hentry]]].
  destruct (Hentry (Some 1%Z) _ eq_refl) as [ow [Hold Hdiff]].
  exists diffs. eexists. exists ow.
  split; [reflexivity|]. split; [reflexivity|]. split; [exact Hold|exact Hdiff].
Defined.

(** C9, the sums.  Going from the weights 0.1 and 0.9 to 0.3 and 0.7,
    both sets pass the weight check and the method returns; the new
    weights sum to 1.0 and so do the old ones, while the two
    differences, 0.19999999999999998 and -0.20000000000000007, sum to
    -8.3266726846886741e-17: [sum(diffs) == sum(new) - sum(old)] is
    false. *)
Example calculate_weight_diffs_sum_is_rounded :
  exists diffs,
    Binary64.calculate_weight_diffs rounding_signals = (Ok diffs, rounding_signals)
    /\ PrimFloat.eqb
         (PrimFloat.sub (Binary64.dict_sum (Binary64.new_weights rounding_signals))
            (Binary64.dict_sum (Binary64.existing_weights rounding_signals)))
         PrimFloat.zero
       = true
    /\ PrimFloat.eqb (Binary64.dict_sum diffs)
         (PrimFloat.sub (Binary64.dict_sum (Binary64.new_weights rounding_signals))
            (Binary64.dict_sum (Binary64.existing_weights rounding_signals)))
       = false.
Proof.
  eexists. split; [reflexivity|]. split; reflexivity.
Qed.

End Binary64Examples.

(* ===================================================================== *)
(** ** The loop over the signals *)
(* ===================================================================== *)

Section LoopFacts.
Context {K V P A : Type} (eqb : K -> K -> bool) (body : M (V * P) A).

(** The loop changes no key, whether it finishes or raises. *)
Lemma for_each_value_keys (d : dict K V) (p : P) :
  dict_keys (fst (snd (for_each_value body d p))) = dict_keys d.
Proof.
  revert p. induction d as [|[k v] d IH]; intro p; simpl.
  - reflexivity.
  - destruct (body (v, p)) as [[a|e] [v' p']]; simpl; [|reflexivity].
    specialize (IH p').
    destruct (for_each_value body d p') as [[r|e] [d'' p'']]; simpl in *;
      now rewrite IH.
Qed.

(** A loop that finishes has run the body on every value: the entry of
    a key holds what the body made of it, and the per-key results hold
    what the body returned.  [inv] is any property of the shared state
    that the body keeps. *)
Lemma for_each_value_get (inv : P -> Prop) :
  (forall v p o v' p', inv p -> body (v, p) = (o, (v', p')) -> inv p') ->
  forall (d : dict K V) (p : P) r d' p',
    inv p ->
    for_each_value body d p = (Ok r, (d', p')) ->
    inv p' /\
    forall k v, dict_get eqb k d = Some v ->
      exists p1 a v' p2,
        inv p1 /\ loop_reaches eqb body d p k p1
        /\ body (v, p1) = (Ok a, (v', p2))
        /\ dict_get eqb k d' = Some v' /\ dict_get eqb k r = Some a.
Proof.
  intro Hinv. induction d as [|[k0 v0] d IH]; intros p r d' p' Hp Hrun;
    simpl in Hrun.
  - injection Hrun as <- <- <-. split; [exact Hp|]. discriminate.
  - destruct (body (v0, p)) as [[a|e] [v' p1]] eqn:Hbody; [|discriminate].
    pose proof (Hinv _ _ _ _ _ Hp Hbody) as Hp1.
    destruct (for_each_value body d p1) as [[r1|e] [d1 p2]] eqn:Hrest;
      [|discriminate].
    injection Hrun as <- <- <-.
    destruct (IH _ _ _ _ Hp1 Hrest) as [Hp2 Hget].
    split; [exact Hp2|].
    intros k v Hk. simpl in *.
    destruct (eqb k k0) eqn:Ek.
    + injection Hk as <-. exists p, a, v', p1.
      repeat (split; [assumption || reflexivity || idtac|]); [|reflexivity].
      exists [], k0, v0, d, [], []. auto.
    + destruct (Hget k v Hk)
        as [q1 [b [w' [q2 [Hq1 [Hreach [Hb [Hd' Hr]]]]]]]].
      exists q1, b, w', q2.
      repeat (split; [assumption|]). split; [|auto].
      destruct Hreach as [before [k1 [v1 [after [r0 [before' [Hd [Hk1 [Hn Hb0]]]]]]]]].
      exists ((k0, v0) :: before), k1, v1, after, ((k0, a) :: r0),
        ((k0, v') :: before').
      split; [now rewrite Hd|]. split; [exact Hk1|].
      split; [simpl; now rewrite Ek|].
      simpl. now rewrite Hbody, Hb0.
Qed.

(** The loop reaches its first entry in the state it starts in. *)
Lemma loop_reaches_first (k0 : K) (v : V) (d : dict K V) (p p1 : P) (k : K) :
  eqb k k0 = true ->
  loop_reaches eqb body ((k0, v) :: d) p k p1 -> p1 = p.
Proof.
  intros Ek [before [k1 [v1 [after [r [before' [Hd [_ [Hn Hb]]]]]]]]].
  destruct before as [|[k2 v2] before]; simpl in *.
  - now injection Hb as _ _ <-.
  - injection Hd as <- _ _. now rewrite Ek in Hn.
Qed.

(** A value on which the body raises, whatever the shared state, makes
    the loop raise. *)
Lemma for_each_value_raise (d : dict K V) (p : P) (k : K) (v : V) :
  dict_get eqb k d = Some v ->
  (forall p1, exists e st, body (v, p1) = (Raise e, st)) ->
  exists e st, for_each_value body d p = (Raise e, st).
Proof.
  intros Hk Hraise. revert p.
  induction d as [|[k0 v0] d IH]; intro p; simpl in *; [discriminate|].
  destruct (body (v0, p)) as [[a|e] [v' p1]] eqn:Hbody.
  - destruct (eqb k k0).
    + injection Hk as ->. destruct (Hraise p) as [e [st He]]. congruence.
    + destruct (IH Hk p1) as [e [[d2 p2] He]]. rewrite He. eauto.
  - eauto.
Qed.

End LoopFacts.

Section LoopProgress.
Context {K V P A : Type} (body : M (V * P) A).

(** A loop whose body returns on every value of the dictionary, and
    leaves the shared state as it is, finishes. *)
Lemma for_each_value_total (d : dict K V) (p : P) :
  (forall k v, In (k, v) d -> exists a v', body (v, p) = (Ok a, (v', p))) ->
  exists r d', for_each_value body d p = (Ok r, (d', p)).
Proof.
  induction d as [|[k v] d IH]; intro Hall; simpl.
  - eauto.
  - destruct (Hall k v (or_introl eq_refl)) as [a [v' Hbody]]. rewrite Hbody.
    destruct IH as [r [d' Hrest]].
    + intros k1 v1 Hin. apply (Hall k1 v1). now right.
    + rewrite Hrest. eauto.
Qed.

End LoopProgress.

(* ===================================================================== *)
(** ** Target positions *)
(* ===================================================================== *)

Section TargetFacts.
Context {PK : PairKinds} {PM : PositionManager}.

(** The body of the loop, branch by branch. *)
Lemma target_position_run (equity : Q) (s : TradingPairSignal) (pm : pm_state) :
  target_position equity (s, pm)
  = let target := normalised_weight s * equity in
    match map_pair_for_signal s pm with
    | Raise e => (Raise e, (set_position_target target s, pm))
    | Ok synthetic =>
        let s1 := set_synthetic_pair (Some synthetic) (set_position_target target s) in
        if is_flipping s then (Ok tt, (set_position_adjust_usd target s1, pm))
        else
          let s2 := set_position_adjust_usd (target - old_value s) s1 in
          if Qltb (target - old_value s) 0 then
            match estimate_asset_quantity (pair s) (target - old_value s) pm with
            | Ok q =>
                (if is_float q then Ok tt
                 else Raise (AssertionError "type(s.position_adjust_quantity) == float"),
                 (set_position_adjust_quantity q s2, pm))
            | Raise e => (Raise e, (s2, pm))
            end
          else (Ok tt, (s2, pm))
    end.
Proof.
  unfold target_position, map_pair_for_signal, is_flipping. run_py.
  destruct s as [p sg sl tp tsl rw nw ow ov op pt pa pq pid ign pb pbp sy lev].
  simpl.
  destruct (if Qltb 0 sg then Ok p
            else if Qltb sg 0 then get_shorting_pair p pm else Ok p)
    as [synthetic|e]; simpl; [|reflexivity].
  destruct (if Qeq_bool nw 0 then false
            else match op with
                 | Some op0 =>
                     if Qltb sg 0 then is_long op0 || is_spot op0
                     else if Qltb 0 sg then is_short op0 else false
                 | None => false
                 end); simpl; [reflexivity|].
  destruct (Qltb (nw * equity - ov) 0); simpl; [|reflexivity].
  destruct (estimate_asset_quantity p (nw * equity - ov) pm) as [q|e]; simpl;
    [|reflexivity].
  now destruct (is_float q).
Qed.

Lemma target_position_keeps_manager (equity : Q) (s : TradingPairSignal)
    (pm : pm_state) o s' pm' :
  target_position equity (s, pm) = (o, (s', pm')) -> pm' = pm.
Proof.
  rewrite target_position_run. cbv zeta.
  destruct (map_pair_for_signal s pm); [|congruence].
  destruct (is_flipping s); [congruence|].
  destruct (Qltb _ 0); [|congruence].
  destruct (estimate_asset_quantity _ _ pm); [|congruence].
  destruct (is_float _); congruence.
Qed.

(** What the body leaves on a signal when it returns. *)
Lemma target_position_ok (equity : Q) (s s' : TradingPairSignal)
    (pm pm' : pm_state) :
  target_position equity (s, pm) = (Ok tt, (s', pm')) ->
  position_target s' = normalised_weight s * equity
  /\ (is_flipping s = true -> position_adjust_usd s' = position_target s')
  /\ (is_flipping s = false ->
      position_adjust_usd s' = position_target s' - old_value s
      /\ (position_adjust_usd s' < 0 ->
          exists x,
            estimate_asset_quantity (pair s) (position_adjust_usd s') pm
            = Ok (PyFloat x)
            /\ position_adjust_quantity s' = PyFloat x)).
Proof.
  rewrite target_position_run. cbv zeta.
  destruct (map_pair_for_signal s pm) as [synthetic|e]; [|discriminate].
  destruct (is_flipping s).
  - intro H. injection H as <- <-. simpl.
    split; [reflexivity|]. split; [reflexivity|discriminate].
  - destruct (Qltb (normalised_weight s * equity - old_value s) 0) eqn:Eneg.
    + destruct (estimate_asset_quantity (pair s) _ pm) as [q|e] eqn:Eq;
        [|discriminate].
      destruct q as [x|n|x]; simpl; try discriminate.
      intro H. injection H as <- <-. simpl.
      split; [reflexivity|]. split; [discriminate|]. intros _.
      split; [reflexivity|]. intros _. exists x. now split.
    + intro H. injection H as <- <-. simpl.
      split; [reflexivity|]. split; [discriminate|]. intros _.
      split; [reflexivity|]. intro Hneg. apply Qltb_lt in Hneg. congruence.
Qed.

(** The body returns as soon as the pair can be mapped and the quantity
    estimator answers with a float. *)
Lemma target_position_total (equity : Q) (s : TradingPairSignal) (pm : pm_state) :
  (exists synthetic, map_pair_for_signal s pm = Ok synthetic) ->
  (forall usd, exists x, estimate_asset_quantity (pair s) usd pm = Ok (PyFloat x)) ->
  exists s', target_position equity (s, pm) = (Ok tt, (s', pm)).
Proof.
  intros [synthetic Hmap] Hest. rewrite target_position_run. cbv zeta.
  rewrite Hmap. destruct (is_flipping s); [eauto|].
  destruct (Qltb _ 0); [|eauto].
  destruct (Hest (normalised_weight s * equity - old_value s)) as [x Hx].
  rewrite Hx. simpl. eauto.
Qed.

(** C5. [calculate_target_positions] returns whenever every signal can
    be mapped to its pair and the quantity estimator answers with a
    float.  When it returns, every selected signal has
    [position_target = normalised_weight * investable_equity]; a
    flipping signal has [position_adjust_usd = position_target]; any
    other signal has [position_adjust_usd = position_target - old_value]
    and, when that difference is negative, [position_adjust_quantity] is
    the float that the position manager's quantity estimator gave for it. *)
Theorem calculate_target_positions_spec (equity : Q) (m : AlphaModel)
    (pm : pm_state) :
  ((forall k s, In (k, s) (signals m) ->
      (exists synthetic, map_pair_for_signal s pm = Ok synthetic) /\
      (forall usd, exists x,
          estimate_asset_quantity (pair s) usd pm = Ok (PyFloat x))) ->
   exists m', calculate_target_positions equity (m, pm) = (Ok tt, (m', pm)))
  /\
  (forall m' pm',
     calculate_target_positions equity (m, pm) = (Ok tt, (m', pm')) ->
     pm' = pm
     /\ investable_equity m' = Some equity
     /\ forall k s, dict_get id_eqb k (signals m) = Some s ->
          exists s',
            dict_get id_eqb k (signals m') = Some s'
            /\ position_target s' = normalised_weight s * equity
            /\ (is_flipping s = true ->
                position_adjust_usd s' = position_target s')
            /\ (is_flipping s = false ->
                position_adjust_usd s' = position_target s' - old_value s
                /\ (position_adjust_usd s' < 0 ->
                    exists x,
                      estimate_asset_quantity (pair s) (position_adjust_usd s') pm
                      = Ok (PyFloat x)
                      /\ position_adjust_quantity s' = PyFloat x))).
Proof.
  unfold calculate_target_positions, for_each_signal. run_py. split.
  - intro Hall.
    destruct (for_each_value_total (target_position equity) (signals m) pm)
      as [r [d' Hrun]].
    + intros k s Hin. destruct (Hall k s Hin) as [Hmap Hest].
      destruct (target_position_total equity s pm Hmap Hest) as [s' Hs'].
      exists tt, s'. exact Hs'.
    + rewrite Hrun. eauto.
  - intros m' pm'.
    destruct (for_each_value (target_position equity) (signals m) pm)
      as [[r|e] [d' p']] eqn:Hrun; [|discriminate].
    intro H. injection H as <- <-.
    destruct (for_each_value_get id_eqb (target_position equity)
                (fun p => p = pm)) with (1 := fun v p o v' p' (Hp : p = pm)
                   (Hb : target_position equity (v, p) = (o, (v', p'))) =>
                   eq_trans (target_position_keeps_manager _ _ _ _ _ _ Hb) Hp)
                (3 := Hrun) as [Hpm Hget]; [reflexivity|].
    split; [exact Hpm|]. split; [reflexivity|].
    intros k s Hk. destruct (Hget k s Hk) as [p1 [a [s' [p2 [-> [_ [Hb [Hd _]]]]]]]].
    destruct a. exists s'. simpl. split; [exact Hd|].
    exact (target_position_ok _ _ _ _ _ Hb).
Qed.

End TargetFacts.

(* ===================================================================== *)
(** ** The body of the rebalance loop *)
(* ===================================================================== *)

Section BodyFacts.
Context {PK : PairKinds} {R : Rendering} {PM : PositionManager}.

Lemma call_run {A : Type} (c : M pm_state A) (s : TradingPairSignal) (pm : pm_state) :
  call c (s, pm) = (fst (c pm), (s, snd (c pm))).
Proof. unfold call. simpl. now destruct (c pm). Qed.

Lemma current_position_of_run (s : TradingPairSignal) (pm : pm_state) :
  current_position_of (s, pm) = (Ok (current_position s pm), (noted s pm, pm)).
Proof.
  unfold current_position_of, noted, current_position. run_py.
  destruct (old_pair s) as [op|]; [|reflexivity]. simpl.
  now destruct (get_current_position_for_pair op pm).
Qed.

(** The record keeping touches the two profit fields only. *)
Ltac noted_field :=
  intros; unfold noted, current_position;
  match goal with
  | s : TradingPairSignal |- _ => destruct s; simpl
  end;
  repeat match goal with
         | |- context [match ?x with _ => _ end] => destruct x; simpl
         end;
  reflexivity.

Lemma noted_pair s pm : pair (noted s pm) = pair s.
Proof. noted_field. Qed.
Lemma noted_signal s pm : signal (noted s pm) = signal s.
Proof. noted_field. Qed.
Lemma noted_stop_loss s pm : stop_loss (noted s pm) = stop_loss s.
Proof. noted_field. Qed.
Lemma noted_take_profit s pm : take_profit (noted s pm) = take_profit s.
Proof. noted_field. Qed.
Lemma noted_trailing_stop_loss s pm :
  trailing_stop_loss (noted s pm) = trailing_stop_loss s.
Proof. noted_field. Qed.
Lemma noted_normalised_weight s pm :
  normalised_weight (noted s pm) = normalised_weight s.
Proof. noted_field. Qed.
Lemma noted_old_weight s pm : old_weight (noted s pm) = old_weight s.
Proof. noted_field. Qed.
Lemma noted_old_pair s pm : old_pair (noted s pm) = old_pair s.
Proof. noted_field. Qed.
Lemma noted_position_target s pm : position_target (noted s pm) = position_target s.
Proof. noted_field. Qed.
Lemma noted_position_adjust_usd s pm :
  position_adjust_usd (noted s pm) = position_adjust_usd s.
Proof. noted_field. Qed.
Lemma noted_position_adjust_quantity s pm :
  position_adjust_quantity (noted s pm) = position_adjust_quantity s.
Proof. noted_field. Qed.
Lemma noted_position_id s pm : position_id (noted s pm) = position_id s.
Proof. noted_field. Qed.
Lemma noted_position_adjust_ignored s pm :
  position_adjust_ignored (noted s pm) = position_adjust_ignored s.
Proof. noted_field. Qed.
Lemma noted_synthetic_pair s pm : synthetic_pair (noted s pm) = synthetic_pair s.
Proof. noted_field. Qed.
Lemma noted_leverage s pm : leverage (noted s pm) = leverage s.
Proof. noted_field. Qed.

Lemma noted_is_flipping s pm : is_flipping (noted s pm) = is_flipping s.
Proof.
  unfold is_flipping.
  now rewrite noted_normalised_weight, noted_old_pair, noted_signal.
Qed.

Lemma noted_is_new s pm : is_new (noted s pm) = is_new s.
Proof. unfold is_new. now rewrite noted_old_weight. Qed.

Lemma noted_get_flip_label s pm : get_flip_label (noted s pm) = get_flip_label s.
Proof. unfold get_flip_label. now rewrite noted_old_pair, noted_signal. Qed.

Lemma noted_current_position s pm pm' :
  current_position (noted s pm) pm' = current_position s pm'.
Proof. unfold current_position. now rewrite noted_old_pair. Qed.

(** The loop body, branch by branch. *)
Lemma rebalance_signal_run (min_trade_threshold epsilon : Q)
    (s : TradingPairSignal) (pm : pm_state) :
  rebalance_signal min_trade_threshold epsilon (s, pm)
  = match synthetic_pair s with
    | None =>
        (Raise (AttributeError "'NoneType' object has no attribute 'base'"),
         (noted s pm, pm))
    | Some synthetic =>
        if Qltb (Qabs (position_adjust_usd s)) min_trade_threshold
           && negb (is_flipping s)
        then (Ok [], (set_position_adjust_ignored true (noted s pm), pm))
        else if Qltb (normalised_weight s) epsilon then
          match current_position s pm with
          | Some pos =>
              call (close_position pos rebalance (dust_close_notes (noted s pm)))
                (noted s pm, pm)
          | None => (Ok [], (noted s pm, pm))
          end
        else
          rebalance_position (noted s pm) synthetic (current_position s pm)
            (noted s pm, pm)
    end.
Proof.
  unfold rebalance_signal.
  unfold bind at 1. unfold this at 1. cbn [fst snd].
  unfold bind at 1. rewrite current_position_of_run.
  destruct (synthetic_pair s) as [synthetic|].
  - unfold bind at 1. unfold ret at 1.
    unfold bind at 1. unfold this at 1. cbn [fst snd].
    rewrite noted_is_flipping, noted_normalised_weight.
    destruct (Qltb (Qabs (position_adjust_usd s)) min_trade_threshold
              && negb (is_flipping s)); [reflexivity|].
    destruct (Qltb (normalised_weight s) epsilon); [|reflexivity].
    now destruct (current_position s pm).
  - reflexivity.
Qed.

Lemma close_flipped_run (s s0 : TradingPairSignal) (pm : pm_state) :
  close_flipped s (s0, pm)
  = if is_flipping s then
      match get_pricing_pair (pair s) with
      | Raise e => (Raise e, (s0, pm))
      | Ok _ =>
          match get_flip_label s with
          | Raise e => (Raise e, (s0, pm))
          | Ok _ =>
              match current_position s pm with
              | Some pos =>
                  call (close_position pos rebalance (flip_close_notes s)) (s0, pm)
              | None => (Ok [], (s0, pm))
              end
          end
      end
    else (Ok [], (s0, pm)).
Proof.
  unfold close_flipped, current_position.
  destruct (is_flipping s); [|reflexivity].
  unfold bind, lift_outcome, ask, ret. cbn [fst snd].
  destruct (get_pricing_pair (pair s)); [|reflexivity].
  destruct (get_flip_label s); [|reflexivity].
  destruct (old_pair s) as [op|]; [|reflexivity]. cbn [snd].
  now destruct (get_current_position_for_pair op pm).
Qed.

Lemma close_flipped_keeps_signal (s s0 s0' : TradingPairSignal)
    (pm pm' : pm_state) o :
  close_flipped s (s0, pm) = (o, (s0', pm')) -> s0' = s0.
Proof.
  rewrite close_flipped_run.
  destruct (is_flipping s); [|congruence].
  destruct (get_pricing_pair _); [|congruence].
  destruct (get_flip_label s); [|congruence].
  destruct (current_position s pm); [|congruence].
  rewrite call_run. congruence.
Qed.

Lemma open_or_adjust_keeps_signal (s s0 s0' : TradingPairSignal)
    (synthetic : TradingPairIdentifier) (cur : option TradingPosition)
    (pm pm' : pm_state) o :
  open_or_adjust s synthetic cur (s0, pm) = (o, (s0', pm')) -> s0' = s0.
Proof.
  unfold open_or_adjust.
  destruct (Qltb (signal s) 0).
  - destruct (leverage s) as [[lev|n|d]|]; try (unfold raise; congruence).
    destruct (is_flipping s || is_new s); rewrite call_run; congruence.
  - destruct (is_none (leverage s)).
    + rewrite call_run. congruence.
    + unfold bind, lift_outcome, raise.
      destruct (get_flip_label s); congruence.
Qed.

(** What a returning rebalance branch has done: the closes, then the
    opens, and the signal connected to the position of the first trade. *)
Lemma rebalance_position_ok (s s0 s' : TradingPairSignal)
    (synthetic : TradingPairIdentifier) (cur : option TradingPosition)
    (pm pm' : pm_state) (ts : list TradeExecution) :
  rebalance_position s synthetic cur (s0, pm) = (Ok ts, (s', pm')) ->
  exists closes opens pm1 first others,
    close_flipped s (s0, pm) = (Ok closes, (s0, pm1))
    /\ open_or_adjust s synthetic cur (s0, pm1) = (Ok opens, (s0, pm'))
    /\ ts = closes ++ opens
    /\ ts = first :: others
    /\ truthy_id (trade_position_id first) = true
    /\ s' = set_position_id (trade_position_id first) s0.
Proof.
  unfold rebalance_position. unfold bind at 1.
  destruct (close_flipped s (s0, pm)) as [[closes|e] [s1 pm1]] eqn:Hc;
    [|discriminate].
  apply close_flipped_keeps_signal in Hc as Hs1. subst s1.
  unfold bind at 1.
  destruct (open_or_adjust s synthetic cur (s0, pm1)) as [[opens|e] [s2 pm2]]
    eqn:Ho; [|discriminate].
  apply open_or_adjust_keeps_signal in Ho as Hs2. subst s2.
  destruct (closes ++ opens) as [|first others] eqn:Hts; [discriminate|].
  run_py.
  destruct (truthy_id (trade_position_id first)) eqn:Hid; [|discriminate].
  intro H. injection H as <- <- <-.
  exists closes, opens, pm1, first, others. auto 10.
Qed.

End BodyFacts.

Section BranchFacts.
Context {PK : PairKinds} {R : Rendering} {PM : PositionManager}.

(** The test of the first [if]: the adjustment is below the trade
    threshold and the signal is not flipping. *)
Lemma below_threshold_iff (threshold : Q) (s : TradingPairSignal) :
  Qltb (Qabs (position_adjust_usd s)) threshold && negb (is_flipping s) = true
  <-> Qabs (position_adjust_usd s) < threshold /\ is_flipping s = false.
Proof.
  rewrite andb_true_iff, negb_true_iff, Qltb_lt. reflexivity.
Qed.

Lemma not_below_threshold_iff (threshold : Q) (s : TradingPairSignal) :
  Qltb (Qabs (position_adjust_usd s)) threshold && negb (is_flipping s) = false
  <-> threshold <= Qabs (position_adjust_usd s) \/ is_flipping s = true.
Proof.
  rewrite andb_false_iff, negb_false_iff, Qltb_ge. reflexivity.
Qed.

(** The three ways in which the loop body returns. *)
Lemma rebalance_signal_ok (threshold epsilon : Q) (s s' : TradingPairSignal)
    (pm pm' : pm_state) (ts : list TradeExecution) :
  rebalance_signal threshold epsilon (s, pm) = (Ok ts, (s', pm')) ->
  exists synthetic,
    synthetic_pair s = Some synthetic /\
    ((Qabs (position_adjust_usd s) < threshold /\ is_flipping s = false
      /\ ts = [] /\ s' = set_position_adjust_ignored true (noted s pm)
      /\ pm' = pm)
     \/
     ((threshold <= Qabs (position_adjust_usd s) \/ is_flipping s = true)
      /\ normalised_weight s < epsilon
      /\ s' = noted s pm
      /\ match current_position s pm with
         | Some pos =>
             close_position pos rebalance (dust_close_notes (noted s pm)) pm
             = (Ok ts, pm')
         | None => ts = [] /\ pm' = pm
         end)
     \/
     ((threshold <= Qabs (position_adjust_usd s) \/ is_flipping s = true)
      /\ epsilon <= normalised_weight s
      /\ rebalance_position (noted s pm) synthetic (current_position s pm)
           (noted s pm, pm)
         = (Ok ts, (s', pm')))).
Proof.
  rewrite rebalance_signal_run.
  destruct (synthetic_pair s) as [synthetic|]; [|discriminate].
  intro H. exists synthetic. split; [reflexivity|].
  destruct (Qltb (Qabs (position_adjust_usd s)) threshold && negb (is_flipping s))
    eqn:Eign.
  - left. apply below_threshold_iff in Eign. destruct Eign as [H1 H2].
    injection H as <- <- <-. auto.
  - right. apply not_below_threshold_iff in Eign.
    destruct (Qltb (normalised_weight s) epsilon) eqn:Edust.
    + left. apply Qltb_lt in Edust. split; [exact Eign|]. split; [exact Edust|].
      destruct (current_position s pm) as [pos|].
      * rewrite call_run in H. injection H as H1 <- H3.
        split; [reflexivity|].
        destruct (close_position pos rebalance (dust_close_notes (noted s pm)) pm).
        simpl in *. now subst.
      * injection H as <- <- <-. auto.
    + right. apply Qltb_ge in Edust. auto.
Qed.

End BranchFacts.

(* ===================================================================== *)
(** ** The whole trade generation *)
(* ===================================================================== *)

Section GenerateFacts.
Context {PK : PairKinds} {R : Rendering} {PM : PositionManager}.

(** A returning generation has run the loop body on every signal, in
    some state of the position manager, and returns the sorted trades of
    all of them. *)
Lemma generate_ok (threshold : Q) (use_spot_for_long : bool)
    (m m' : AlphaModel) (pm pm' : pm_state) (trades : list TradeExecution) :
  generate_rebalance_trades_and_triggers threshold use_spot_for_long (m, pm)
  = (Ok trades, (m', pm')) ->
  use_spot_for_long = true /\
  exists per_signal,
    rebalance_signals threshold (m, pm) = (Ok per_signal, (m', pm'))
    /\ trades
       = sort_by get_execution_sort_position (List.concat (map snd per_signal))
    /\ forall k s, dict_get id_eqb k (signals m) = Some s ->
         exists pm1 ts s' pm2,
           reached threshold m pm k pm1
           /\ rebalance_signal threshold (close_position_weight_epsilon m) (s, pm1)
              = (Ok ts, (s', pm2))
           /\ dict_get id_eqb k (signals m') = Some s'
           /\ dict_get id_eqb k per_signal = Some ts.
Proof.
  unfold generate_rebalance_trades_and_triggers.
  destruct use_spot_for_long; [|discriminate].
  unfold assert_. unfold bind at 1. unfold ret at 1.
  unfold bind at 1.
  destruct (rebalance_signals threshold (m, pm)) as [[per_signal|e] [m1 pm1]]
    eqn:Hloop; [|discriminate].
  unfold ret. intro H. injection H as <- <- <-.
  split; [reflexivity|]. exists per_signal.
  split; [reflexivity|]. split; [reflexivity|].
  unfold rebalance_signals, for_each_signal in Hloop. run_py.
  destruct (for_each_value
              (rebalance_signal threshold (close_position_weight_epsilon m))
              (signals m) pm) as [r [d p]] eqn:Hrun.
  injection Hloop as -> <- <-.
  destruct (for_each_value_get id_eqb
              (rebalance_signal threshold (close_position_weight_epsilon m))
              (fun _ => True) (fun _ _ _ _ _ _ _ => I) _ _ _ _ _ I Hrun)
    as [_ Hget].
  intros k s Hk.
  destruct (Hget k s Hk) as [p1 [a [v' [p2 [_ [Hreach [Hb [Hd Hr]]]]]]]].
  exists p1, a, v', p2. auto.
Qed.

(** The loop reaches the first signal in the state the generation
    starts in. *)
Lemma reached_first (threshold : Q) (m : AlphaModel) (pm pm1 : pm_state)
    (k : PairInternalId) (s : TradingPairSignal) (rest : signal_dict) :
  signals m = (k, s) :: rest -> reached threshold m pm k pm1 -> pm1 = pm.
Proof.
  unfold reached. intros -> Hreach.
  apply (loop_reaches_first id_eqb _ k s rest pm pm1 k (id_eqb_refl k) Hreach).
Qed.

(** A signal on which the loop body raises makes the generation raise. *)
Lemma generate_raise (threshold : Q) (use_spot_for_long : bool)
    (m : AlphaModel) (pm : pm_state) (k : PairInternalId) (s : TradingPairSignal) :
  dict_get id_eqb k (signals m) = Some s ->
  (forall pm1, exists e st,
      rebalance_signal threshold (close_position_weight_epsilon m) (s, pm1)
      = (Raise e, st)) ->
  exists e st,
    generate_rebalance_trades_and_triggers threshold use_spot_for_long (m, pm)
    = (Raise e, st).
Proof.
  intros Hk Hraise. unfold generate_rebalance_trades_and_triggers.
  destruct use_spot_for_long; [|unfold assert_, bind, raise; eauto].
  unfold assert_. unfold bind at 1. unfold ret at 1. unfold bind at 1.
  unfold rebalance_signals, for_each_signal. run_py.
  destruct (for_each_value_raise id_eqb _ (signals m) pm k s Hk Hraise)
    as [e [[d p] He]].
  rewrite He. eauto.
Qed.

End GenerateFacts.

(* ===================================================================== *)
(** ** Trades below the threshold and dust *)
(* ===================================================================== *)

Section ThresholdAndDust.
Context {PK : PairKinds} {R : Rendering} {PM : PositionManager}.

(** C3. A signal whose adjustment is below the trade threshold and that
    is not flipping: the loop body returns no trade for it and sets
    [position_adjust_ignored]; when the generation returns, the signal
    is still in [signals] under its key, flagged as ignored and not
    connected to a position, and the trades listed for it are empty. *)
Theorem below_threshold_is_ignored (threshold : Q) (use_spot_for_long : bool)
    (m : AlphaModel) (pm : pm_state) (k : PairInternalId) (s : TradingPairSignal) :
  dict_get id_eqb k (signals m) = Some s ->
  Qabs (position_adjust_usd s) < threshold ->
  is_flipping s = false ->
  (forall pm1 synthetic,
     synthetic_pair s = Some synthetic ->
     rebalance_signal threshold (close_position_weight_epsilon m) (s, pm1)
     = (Ok [], (set_position_adjust_ignored true (noted s pm1), pm1)))
  /\
  (forall trades m' pm',
     generate_rebalance_trades_and_triggers threshold use_spot_for_long (m, pm)
     = (Ok trades, (m', pm')) ->
     exists per_signal s',
       rebalance_signals threshold (m, pm) = (Ok per_signal, (m', pm'))
       /\ trades
          = sort_by get_execution_sort_position (List.concat (map snd per_signal))
       /\ dict_get id_eqb k per_signal = Some []
       /\ dict_get id_eqb k (signals m') = Some s'
       /\ position_adjust_ignored s' = true
       /\ pair s' = pair s
       /\ signal s' = signal s
       /\ position_id s' = position_id s).
Proof.
  intros Hk Hsmall Hflip. split.
  - intros pm1 synthetic Hsyn. rewrite rebalance_signal_run, Hsyn.
    now rewrite (proj2 (below_threshold_iff threshold s) (conj Hsmall Hflip)).
  - intros trades m' pm' Hgen.
    destruct (generate_ok _ _ _ _ _ _ _ Hgen) as [_ [per_signal [Hloop [Hsort Hget]]]].
    destruct (Hget k s Hk) as [pm1 [ts [s' [pm2 [Hreach [Hbody [Hd Hr]]]]]]].
    exists per_signal, s'.
    destruct (rebalance_signal_ok _ _ _ _ _ _ _ Hbody)
      as [synthetic [_ [[_ [_ [-> [-> _]]]]|[[[Hge|Hf] _]|[[Hge|Hf] _]]]]].
    + simpl. rewrite noted_pair, noted_signal, noted_position_id. auto 10.
    + exfalso. exact (Qlt_not_le _ _ Hsmall Hge).
    + congruence.
    + exfalso. exact (Qlt_not_le _ _ Hsmall Hge).
    + congruence.
Qed.

(** C1, as amended.  A signal whose normalised weight is below
    [close_position_weight_epsilon] and that passes the trade threshold
    test (its adjustment is not below the threshold, or it is flipping):
    with an open position for its old pair, the trades of the loop body
    are those of an explicit close of that position, whatever the value
    of the adjustment, and the signal is not connected to a position.
    In a returning generation this holds in the state [pm1] of the
    position manager in which the loop reaches the signal. *)
Theorem dust_is_closed_past_threshold (threshold : Q) (use_spot_for_long : bool)
    (m : AlphaModel) (pm : pm_state) (k : PairInternalId) (s : TradingPairSignal) :
  dict_get id_eqb k (signals m) = Some s ->
  normalised_weight s < close_position_weight_epsilon m ->
  threshold <= Qabs (position_adjust_usd s) \/ is_flipping s = true ->
  (forall pm1 synthetic pos,
     synthetic_pair s = Some synthetic ->
     current_position s pm1 = Some pos ->
     rebalance_signal threshold (close_position_weight_epsilon m) (s, pm1)
     = (fst (close_position pos rebalance (dust_close_notes (noted s pm1)) pm1),
        (noted s pm1,
         snd (close_position pos rebalance (dust_close_notes (noted s pm1)) pm1))))
  /\
  (forall trades m' pm',
     generate_rebalance_trades_and_triggers threshold use_spot_for_long (m, pm)
     = (Ok trades, (m', pm')) ->
     exists per_signal ts s' pm1 pm2,
       rebalance_signals threshold (m, pm) = (Ok per_signal, (m', pm'))
       /\ trades
          = sort_by get_execution_sort_position (List.concat (map snd per_signal))
       /\ dict_get id_eqb k per_signal = Some ts
       /\ dict_get id_eqb k (signals m') = Some s'
       /\ position_id s' = position_id s
       /\ position_adjust_ignored s' = position_adjust_ignored s
       /\ reached threshold m pm k pm1
       /\ (forall pos,
             current_position s pm1 = Some pos ->
             close_position pos rebalance (dust_close_notes (noted s pm1)) pm1
             = (Ok ts, pm2))
       /\ (current_position s pm1 = None -> ts = [])).
Proof.
  intros Hk Hdust Hpast. split.
  - intros pm1 synthetic pos Hsyn Hpos. rewrite rebalance_signal_run, Hsyn.
    rewrite (proj2 (not_below_threshold_iff threshold s) Hpast).
    rewrite (proj2 (Qltb_lt _ _) Hdust), Hpos. apply call_run.
  - intros trades m' pm' Hgen.
    destruct (generate_ok _ _ _ _ _ _ _ Hgen) as [_ [per_signal [Hloop [Hsort Hget]]]].
    destruct (Hget k s Hk) as [pm1 [ts [s' [pm2 [Hreach [Hbody [Hd Hr]]]]]]].
    exists per_signal, ts, s', pm1, pm2.
    destruct (rebalance_signal_ok _ _ _ _ _ _ _ Hbody)
      as [synthetic [_ [[Hlt [Hnf _]]|[[_ [_ [-> Hclose]]]|[_ [Hge _]]]]]].
    + exfalso. destruct Hpast as [Hge|Hf]; [|congruence].
      exact (Qlt_not_le _ _ Hlt Hge).
    + rewrite noted_position_id, noted_position_adjust_ignored.
      repeat (split; [assumption || reflexivity|]).
      destruct (current_position s pm1) as [pos|].
      * split; [|discriminate]. intros pos' Hpos'. now injection Hpos' as <-.
      * split; [discriminate|]. intros _. tauto.
    + exfalso. exact (Qlt_not_le _ _ Hdust Hge).
Qed.

End ThresholdAndDust.

Section ThresholdAndDustExamples.
Import Demo.

Lemma below_threshold_is_ignored_witness :
  exists s',
    dict_get id_eqb (Some 1%Z)
      (signals (fst (snd (generate_rebalance_trades_and_triggers 10 true
                            (dust_model, dust_portfolio)))))
    = Some s'
    /\ position_adjust_ignored s' = true.
Proof.
  destruct (generate_rebalance_trades_and_triggers 10 true
              (dust_model, dust_portfolio)) as [[trades|e] [m' pm']] eqn:Hgen;
    [|vm_compute in Hgen; discriminate].
  destruct (proj2 (@below_threshold_is_ignored kinds rendering manager
                     10 true dust_model dust_portfolio
                     (Some 1%Z) _ eq_refl eq_refl eq_refl) trades m' pm' Hgen)
    as [per_signal [s' [_ [_ [_ [Hs' [Hign _]]]]]]].
  exists s'. simpl. auto.
Defined.

(** C1, the counterexample.  ETH has a normalised weight of 0.003, below
    the epsilon of 0.005, and an open position; its adjustment of -2 USD
    is below the trade threshold of 10 USD.  No trade is generated and
    the position stays open. *)
Lemma dust_below_threshold_is_not_closed :
  exists s pos,
    dict_get id_eqb (Some 1%Z) (signals dust_model) = Some s
    /\ normalised_weight s == 3 # 1000
    /\ close_position_weight_epsilon dust_model == 5 # 1000
    /\ normalised_weight s < close_position_weight_epsilon dust_model
    /\ position_adjust_usd s == -2
    /\ current_position s dust_portfolio = Some pos
    /\ exists m',
        generate_rebalance_trades_and_triggers 10 true (dust_model, dust_portfolio)
        = (Ok [], (m', dust_portfolio)).
Proof.
  eexists. eexists.
  split; [reflexivity|].
  split; [reflexivity|].
  split; [reflexivity|].
  split; [reflexivity|].
  split; [reflexivity|].
  split; [reflexivity|].
  eexists. vm_compute. reflexivity.
Qed.

Lemma dust_is_closed_past_threshold_witness :
  exists s pos,
    dict_get id_eqb (Some 1%Z) (signals heavy_model) = Some s
    /\ current_position s heavy_portfolio = Some pos
    /\ fst (rebalance_signal 10 (close_position_weight_epsilon heavy_model)
              (s, heavy_portfolio))
       = Ok [mkTrade (Some 7%Z) eth_usdc (- (500)) (dust_close_notes s)].
Proof.
  eexists. eexists.
  split; [reflexivity|].
  split; [reflexivity|].
  edestruct (@dust_is_closed_past_threshold kinds rendering manager
               10 true heavy_model heavy_portfolio (Some 1%Z)) as [Hbody _].
  - reflexivity.
  - reflexivity.
  - left. discriminate.
  - rewrite (Hbody heavy_portfolio eth_usdc (mkPosition 7 eth_usdc 500 0)
               eq_refl eq_refl).
    reflexivity.
Defined.

End ThresholdAndDustExamples.

(* ===================================================================== *)
(** ** The rebalance branch: flips, shorts and leveraged longs *)
(* ===================================================================== *)

Section RebalanceBranch.
Context {PK : PairKinds} {R : Rendering} {PM : PositionManager}.

(** Where the trades of [close_flipped] come from. *)
Lemma close_flipped_ok (s s0 : TradingPairSignal) (pm pm1 : pm_state)
    (closes : list TradeExecution) :
  close_flipped s (s0, pm) = (Ok closes, (s0, pm1)) ->
  (is_flipping s = false -> closes = [] /\ pm1 = pm)
  /\ (is_flipping s = true ->
      match current_position s pm with
      | Some pos =>
          close_position pos rebalance (flip_close_notes s) pm = (Ok closes, pm1)
      | None => closes = [] /\ pm1 = pm
      end).
Proof.
  rewrite close_flipped_run. destruct (is_flipping s).
  - destruct (get_pricing_pair (pair s)); [|discriminate].
    destruct (get_flip_label s); [|discriminate].
    destruct (current_position s pm) as [pos|].
    + rewrite call_run. intro H. injection H as H1 H2.
      split; [discriminate|]. intros _.
      destruct (close_position pos rebalance (flip_close_notes s) pm).
      simpl in *. now subst.
    + intro H. injection H as <- <-. split; [discriminate|]. auto.
  - intro H. injection H as <- <-. split; [auto|discriminate].
Qed.



(** A long signal that carries a leverage stops [open_or_adjust], with
    the position manager left as it was. *)
Lemma open_or_adjust_leveraged_long (s s0 : TradingPairSignal)
    (synthetic : TradingPairIdentifier) (cur : option TradingPosition)
    (pm : pm_state) :
  0 < signal s -> leverage s <> None ->
  open_or_adjust s synthetic cur (s0, pm)
  = (match get_flip_label s with
     | Ok _ => Raise (NotImplementedError "Leveraged long missing w/leverage")
     | Raise e => Raise e
     end, (s0, pm)).
Proof.
  intros Hpos Hlev. unfold open_or_adjust.
  assert (Hn : Qltb (signal s) 0 = false).
  { apply Qltb_ge. now apply Qlt_le_weak. }
  rewrite Hn. destruct (leverage s); [|contradiction]. simpl.
  unfold bind, lift_outcome, raise. now destruct (get_flip_label s).
Qed.

(** When [open_or_adjust] raises in every state of the position
    manager, so does the rebalance branch. *)
Lemma rebalance_position_raise (s s0 : TradingPairSignal)
    (synthetic : TradingPairIdentifier) (cur : option TradingPosition)
    (pm : pm_state) :
  (forall pm1, exists e,
      open_or_adjust s synthetic cur (s0, pm1) = (Raise e, (s0, pm1))) ->
  exists e st, rebalance_position s synthetic cur (s0, pm) = (Raise e, st).
Proof.
  intro Hraise. unfold rebalance_position. unfold bind at 1.
  destruct (close_flipped s (s0, pm)) as [[closes|e] [s1 pm1]] eqn:Hc;
    [|eauto].
  apply close_flipped_keeps_signal in Hc as Hs1. subst s1.
  unfold bind at 1. destruct (Hraise pm1) as [e He]. rewrite He. eauto.
Qed.

(** The loop body raises on a signal that reaches the rebalance branch
    and on which [open_or_adjust] raises. *)
Lemma rebalance_signal_raise (threshold epsilon : Q) (s : TradingPairSignal) :
  threshold <= Qabs (position_adjust_usd s) \/ is_flipping s = true ->
  epsilon <= normalised_weight s ->
  (forall synthetic pm pm1, exists e,
      open_or_adjust (noted s pm) synthetic (current_position s pm)
        (noted s pm, pm1)
      = (Raise e, (noted s pm, pm1))) ->
  forall pm, exists e st,
    rebalance_signal threshold epsilon (s, pm) = (Raise e, st).
Proof.
  intros Hpast Hweight Hraise pm. rewrite rebalance_signal_run.
  destruct (synthetic_pair s) as [synthetic|]; [|eauto].
  rewrite (proj2 (not_below_threshold_iff threshold s) Hpast).
  rewrite (proj2 (Qltb_ge _ _) Hweight).
  apply rebalance_position_raise. intro pm1. apply Hraise.
Qed.

End RebalanceBranch.

Section RebalanceTrades.
Context {PK : PairKinds} {R : Rendering} {PM : PositionManager}.




(** C7. A long signal ([signal > 0]) with a leverage that is neither
    ignored nor dust makes the generation raise, so that no trade list
    is returned; the loop body reaches [adjust_position] for a signal
    without leverage only, and for this one raises [NotImplementedError]
    (after the close of the old position on a flip), or whatever the
    rendering of its flip label raises.  Asking for leveraged longs with
    [use_spot_for_long = False] raises at once. *)
Theorem leveraged_long_raises (threshold : Q) (use_spot_for_long : bool)
    (m : AlphaModel) (pm : pm_state) (k : PairInternalId) (s : TradingPairSignal) :
  dict_get id_eqb k (signals m) = Some s ->
  threshold <= Qabs (position_adjust_usd s) \/ is_flipping s = true ->
  close_position_weight_epsilon m <= normalised_weight s ->
  0 < signal s ->
  leverage s <> None ->
  (exists e st,
     generate_rebalance_trades_and_triggers threshold use_spot_for_long (m, pm)
     = (Raise e, st))
  /\
  (forall pm1 synthetic label,
     synthetic_pair s = Some synthetic ->
     is_flipping s = false ->
     get_flip_label s = Ok label ->
     rebalance_signal threshold (close_position_weight_epsilon m) (s, pm1)
     = (Raise (NotImplementedError "Leveraged long missing w/leverage"),
        (noted s pm1, pm1)))
  /\
  generate_rebalance_trades_and_triggers threshold false (m, pm)
  = (Raise (AssertionError "Leveraged long unsupported for now"), (m, pm)).
Proof.
  intros Hk Hpast Hweight Hpos Hlev.
  assert (Hopen : forall synthetic pm0 pm1,
             open_or_adjust (noted s pm0) synthetic (current_position s pm0)
               (noted s pm0, pm1)
             = (match get_flip_label s with
                | Ok _ => Raise (NotImplementedError "Leveraged long missing w/leverage")
                | Raise e => Raise e
                end, (noted s pm0, pm1))).
  { intros synthetic pm0 pm1. rewrite open_or_adjust_leveraged_long.
    - now rewrite noted_get_flip_label.
    - now rewrite noted_signal.
    - now rewrite noted_leverage. }
  split; [|split].
  - apply (generate_raise _ _ _ _ k s Hk).
    apply (rebalance_signal_raise _ _ _ Hpast Hweight).
    intros synthetic pm0 pm1. rewrite Hopen.
    destruct (get_flip_label s); eauto.
  - intros pm1 synthetic label Hsyn Hflip Hlabel.
    rewrite rebalance_signal_run, Hsyn.
    rewrite (proj2 (not_below_threshold_iff threshold s) Hpast).
    rewrite (proj2 (Qltb_ge _ _) Hweight).
    unfold rebalance_position. unfold bind at 1.
    rewrite close_flipped_run, noted_is_flipping, Hflip.
    unfold bind at 1. now rewrite Hopen, Hlabel.
  - reflexivity.
Qed.


End RebalanceTrades.

Section RebalanceExamples.
Import Demo.

(** The flip scenario runs to a close of the spot position worth 600 USD
    followed by a short opened at the full target of 1000 USD; the
    signal is connected to position 7, the one that was closed. *)
Lemma flip_scenario_trades :
  exists m' pm',
    generate_rebalance_trades_and_triggers 10 true (flip_model, flip_portfolio)
    = (Ok [ mkTrade (Some 7%Z) eth_usdc (- (600))
              ("Closing because switching between long/short for " ++ "WETH");
            mkTrade (Some 9%Z) eth_usdc_short (1 * 1000)
              "Rebalance opening a new short for signal {signal}" ],
       (m', pm'))
    /\ exists s', dict_get id_eqb (Some 1%Z) (signals m') = Some s'
                  /\ position_id s' = Some 7%Z.
Proof.
  eexists. eexists. split.
  - vm_compute. reflexivity.
  - eexists. split; reflexivity.
Qed.

(** The equal weight scenario runs to a spot adjustment of 500 USD for
    ETH and a short of 500 USD opened for BTC. *)
Lemma equal_weight_scenario_trades :
  exists m' pm',
    generate_rebalance_trades_and_triggers 10 true
      (equal_weight_model, empty_portfolio)
    = (Ok [ mkTrade (Some 1%Z) eth_usdc ((1 # 2) * 1000 - 0)
              "Rebalance for signal {signal}";
            mkTrade (Some 2%Z) btc_usdc_short ((1 # 2) * 1000)
              "Rebalance opening a new short for signal {signal}" ],
       (m', pm')).
Proof.
  eexists. eexists. vm_compute. reflexivity.
Qed.


Lemma leveraged_long_raises_witness :
  exists e st,
    generate_rebalance_trades_and_triggers 10 true
      (leveraged_long_model, empty_portfolio)
    = (Raise e, st).
Proof.
  edestruct (@leveraged_long_raises kinds rendering manager
               10 true leveraged_long_model empty_portfolio (Some 1%Z))
    as [Hraise _].
  - reflexivity.
  - left. discriminate.
  - discriminate.
  - reflexivity.
  - discriminate.
  - exact Hraise.
Defined.


End RebalanceExamples.

Section TargetExamples.
Import Demo.

(** The flip scenario, one step earlier: the target of ETH is the whole
    equity and, the signal flipping, so is its adjustment. *)
Lemma calculate_target_positions_spec_witness :
  exists s',
    dict_get id_eqb (Some 1%Z) (signals flip_model) = Some s'
    /\ position_target s' = 1 * 1000
    /\ position_adjust_usd s' = position_target s'.
Proof.
  destruct (calculate_target_positions 1000
              (with_signals
                 [ weighted eth_usdc (- (8 # 10)) (Some (PyFloat 3)) 1 (6 # 10)
                     600 (Some eth_usdc) ], flip_portfolio))
    as [[[]|e] [m' pm']] eqn:Hrun; [|vm_compute in Hrun; discriminate].
  destruct (proj2 (@calculate_target_positions_spec kinds manager 1000 _ _)
              m' pm' Hrun) as [_ [_ Hget]].
  destruct (Hget (Some 1%Z) _ eq_refl) as [s' [Hs' [Htarget [Hflip _]]]].
  exists s'. unfold flip_model, targeted. rewrite Hrun. simpl.
  split; [exact Hs'|]. split; [exact Htarget|]. now apply Hflip.
Defined.

End TargetExamples.

(* ===================================================================== *)
(** ** More on dictionaries *)
(* ===================================================================== *)

Section DictLookups.
Context {V : Type}.
Implicit Types (d : dict PairInternalId V) (k : PairInternalId) (v : V).

Lemma dict_get_set_same k v d : dict_get id_eqb k (dict_set id_eqb k v d) = Some v.
Proof.
  induction d as [|[k' v'] d IH]; simpl.
  - now rewrite id_eqb_refl.
  - destruct (id_eqb k k') eqn:E; simpl; now rewrite E.
Qed.

Lemma dict_get_set_other k k' v d :
  k' <> k -> dict_get id_eqb k' (dict_set id_eqb k v d) = dict_get id_eqb k' d.
Proof.
  intro Hne. induction d as [|[k0 v0] d IH]; simpl.
  - destruct (id_eqb k' k) eqn:E; [|reflexivity].
    apply id_eqb_eq in E. contradiction.
  - destruct (id_eqb k k0) eqn:E; simpl.
    + apply id_eqb_eq in E. subst k0.
      destruct (id_eqb k' k) eqn:E'; [|reflexivity].
      apply id_eqb_eq in E'. contradiction.
    + now rewrite IH.
Qed.

Lemma dict_get_del_same k d :
  NoDup (dict_keys d) -> dict_get id_eqb k (dict_del id_eqb k d) = None.
Proof.
  induction d as [|[k' v'] d IH]; simpl; intro Hnd; [reflexivity|].
  inversion Hnd as [|? ? Hk' Hd]; subst.
  destruct (id_eqb k k') eqn:E; simpl.
  - apply id_eqb_eq in E. subst k'. now apply dict_get_not_in_keys.
  - rewrite E. now apply IH.
Qed.

Lemma dict_get_del_other k k' d :
  k' <> k -> dict_get id_eqb k' (dict_del id_eqb k d) = dict_get id_eqb k' d.
Proof.
  intro Hne. induction d as [|[k0 v0] d IH]; simpl; [reflexivity|].
  destruct (id_eqb k k0) eqn:E; simpl.
  - apply id_eqb_eq in E. subst k0.
    destruct (id_eqb k' k) eqn:E'; [|reflexivity].
    apply id_eqb_eq in E'. contradiction.
  - now rewrite IH.
Qed.

Lemma dict_del_incl k d : incl (dict_del id_eqb k d) d.
Proof.
  induction d as [|[k' v'] d IH]; simpl; [easy|].
  destruct (id_eqb k k').
  - now apply incl_tl.
  - apply incl_cons; [now left|]. now apply incl_tl.
Qed.

Lemma dict_del_keys_NoDup k d :
  NoDup (dict_keys d) -> NoDup (dict_keys (dict_del id_eqb k d)).
Proof.
  induction d as [|[k' v'] d IH]; simpl; intro Hnd; [constructor|].
  inversion Hnd as [|? ? Hk' Hd]; subst.
  destruct (id_eqb k k'); simpl; [exact Hd|].
  constructor; [|now apply IH].
  intro Hin. apply Hk'. unfold dict_keys in *.
  apply in_map_iff in Hin. destruct Hin as [[k0 v0] [<- Hin]].
  apply dict_del_incl in Hin. apply in_map_iff. now exists (k0, v0).
Qed.

(** An entry of [d] after [d[k] = v] is the new entry or an old one. *)
Lemma dict_set_In k v d (e : PairInternalId * V) :
  In e (dict_set id_eqb k v d) -> e = (k, v) \/ In e d.
Proof.
  induction d as [|[k' v'] d IH]; simpl.
  - intros [<-|[]]. now left.
  - destruct (id_eqb k k') eqn:E; simpl.
    + apply id_eqb_eq in E. subst k'. intros [<-|H]; auto.
    + intros [<-|H]; auto. destruct (IH H); auto.
Qed.

(** The entries of a comprehension are among the pairs it was built of. *)
Lemma dict_of_list_In (l : list (PairInternalId * V)) (e : PairInternalId * V) :
  In e (dict_of_list id_eqb l) -> In e l.
Proof.
  unfold dict_of_list.
  assert (H : forall acc : dict PairInternalId V,
            In e (fold_left (fun d kv => dict_set id_eqb (fst kv) (snd kv) d) l acc)
            -> In e acc \/ In e l).
  { induction l as [|[k v] l IH]; intros acc Hin; simpl in *; [now left|].
    destruct (IH _ Hin) as [H|H]; [|auto].
    destruct (dict_set_In _ _ _ _ H) as [->|H']; auto. }
  intro Hin. destruct (H [] Hin) as [[]|Hl]. exact Hl.
Qed.

End DictLookups.

(* ===================================================================== *)
(** ** More on signal registration *)
(* ===================================================================== *)

Section RegistrationFacts.
Context {PK : PairKinds}.

(** [__post_init__] returns the signal it was given, or raises. *)
Lemma post_init_ok_iff (s s' : TradingPairSignal) :
  post_init s = Ok s'
  <-> s' = s /\ is_spot (pair s) = true /\ leverage_accepted (leverage s) = true.
Proof.
  unfold post_init, leverage_accepted.
  destruct (is_spot (pair s)); simpl.
  - destruct (leverage s) as [l|]; simpl.
    + destruct (truthy l); simpl.
      * destruct (is_float l); simpl.
        -- destruct (Qltb 0 (num_value l)); simpl; split;
             try (intro H; injection H as <-; auto); try easy.
           intros [-> _]. reflexivity.
        -- split; [discriminate|]. intros [_ [_ H]]. discriminate.
      * split; [intro H; injection H as <-; auto|]. intros [-> _]. reflexivity.
    + split; [intro H; injection H as <-; auto|]. intros [-> _]. reflexivity.
  - split; [discriminate|]. intros [_ [H _]]. discriminate.
Qed.

Lemma post_init_raises_assertion (s : TradingPairSignal) (e : exn) :
  post_init s = Raise e -> exists msg, e = AssertionError msg.
Proof.
  unfold post_init.
  destruct (is_spot (pair s)); simpl; [|intro H; injection H as <-; eauto].
  destruct (leverage s) as [l|]; [|discriminate].
  destruct (truthy l); [|discriminate].
  destruct (is_float l); simpl; [|intro H; injection H as <-; eauto].
  destruct (Qltb 0 (num_value l)); simpl; [discriminate|].
  intro H. injection H as <-. eauto.
Qed.

(** X1. [set_signal] returns exactly when the pair is a spot pair, a
    negative alpha comes with a leverage argument, and alpha is zero or
    the leverage is none, zero or a positive float. *)
Theorem set_signal_returns_iff (p : TradingPairIdentifier) (alpha : Q)
    (sl tp tsl : option Q) (lev : option PyNum) (m : AlphaModel) :
  (exists m', set_signal p alpha sl tp tsl lev m = (Ok tt, m'))
  <-> is_spot p = true
      /\ (alpha < 0 -> lev <> None)
      /\ (alpha == 0 \/ leverage_accepted lev = true).
Proof.
  unfold set_signal. run_py.
  destruct (is_spot p) eqn:Hspot; simpl.
  2:{ split; [intros [m' H]; discriminate|]. intros [H _]. discriminate. }
  destruct (Qltb alpha 0) eqn:Hneg; simpl.
  - apply Qltb_lt in Hneg. pose proof (alpha_negative_nonzero _ Hneg) as Hnz.
    destruct lev as [l|]; simpl.
    + rewrite Hnz. unfold new_signal.
      destruct (post_init _) as [s'|e] eqn:Hpost; simpl.
      * apply post_init_ok_iff in Hpost. simpl in Hpost.
        split; [|eauto]. intros _. split; [reflexivity|].
        split; [discriminate|]. right. tauto.
      * split; [intros [m' H]; discriminate|].
        intros [_ [_ [Hz|Hacc]]].
        -- apply Qeq_bool_iff in Hz. congruence.
        -- assert (Hok : post_init
                      (mkSignal p alpha sl tp tsl 0 0 0 0 None 0 0 (PyFloat 0)
                         None false 0 0 None (Some l))
                    = Ok (mkSignal p alpha sl tp tsl 0 0 0 0 None 0 0 (PyFloat 0)
                            None false 0 0 None (Some l))).
           { apply post_init_ok_iff. simpl. auto. }
           congruence.
    + split; [intros [m' H]; discriminate|].
      intros [_ [H _]]. now destruct (H Hneg).
  - apply Qltb_ge in Hneg.
    assert (Hn : alpha < 0 -> lev <> None).
    { intro H. exfalso. exact (Qlt_not_le _ _ H Hneg). }
    destruct (Qeq_bool alpha 0) eqn:Hz.
    + apply Qeq_bool_iff in Hz. split.
      * intros _. split; [reflexivity|]. split; [exact Hn|]. now left.
      * intros _. destruct (dict_mem _ _ _); unfold ret; eauto.
    + unfold new_signal.
      destruct (post_init _) as [s'|e] eqn:Hpost; simpl.
      * apply post_init_ok_iff in Hpost. simpl in Hpost.
        split; [|eauto]. intros _. split; [reflexivity|].
        split; [exact Hn|]. right. tauto.
      * split; [intros [m' H]; discriminate|].
        intros [_ [_ [Hz'|Hacc]]].
        -- apply Qeq_bool_iff in Hz'. congruence.
        -- assert (Hok : post_init
                      (mkSignal p alpha sl tp tsl 0 0 0 0 None 0 0 (PyFloat 0)
                         None false 0 0 None lev)
                    = Ok (mkSignal p alpha sl tp tsl 0 0 0 0 None 0 0 (PyFloat 0)
                            None false 0 0 None lev)).
           { apply post_init_ok_iff. simpl. auto. }
           congruence.
Qed.

(** X2. [set_signal] assigns to [raw_signals] only, and when it raises
    it leaves the whole model as it was.  What it raises is a
    [TypeError] for a short signal on a spot pair without leverage (the
    message of the failing assertion cannot be put together) and an
    [AssertionError] in every other case. *)
Theorem set_signal_frame (p : TradingPairIdentifier) (alpha : Q)
    (sl tp tsl : option Q) (lev : option PyNum) (m : AlphaModel) :
  let result := set_signal p alpha sl tp tsl lev m in
  snd result = set_raw_signals (raw_signals (snd result)) m
  /\ (forall e, fst result = Raise e ->
        snd result = m
        /\ if is_spot p && Qltb alpha 0 && is_none lev
           then exists msg, e = TypeError msg
           else exists msg, e = AssertionError msg).
Proof.
  assert (Hm : m = set_raw_signals (raw_signals m) m) by now destruct m.
  unfold set_signal, leverage_message, get_human_description_describe_type.
  run_py.
  destruct (is_spot p); simpl.
  2:{ split; [exact Hm|]. intros e H. injection H as <-. eauto. }
  destruct (Qltb alpha 0); simpl.
  - destruct lev as [l|]; simpl.
    2:{ split; [exact Hm|]. intros e H. injection H as <-. eauto. }
    destruct (Qeq_bool alpha 0).
    + destruct (dict_mem _ _ _); unfold ret; simpl; (split; [|discriminate]);
        [reflexivity|exact Hm].
    + destruct (new_signal _ _ _ _ _ _ _ _ _) as [s'|e0] eqn:Hnew; simpl.
      * split; [reflexivity|discriminate].
      * split; [exact Hm|]. intros e H. injection H as <-.
        split; [reflexivity|]. now apply post_init_raises_assertion in Hnew.
  - destruct (Qeq_bool alpha 0).
    + destruct (dict_mem _ _ _); unfold ret; simpl; (split; [|discriminate]);
        [reflexivity|exact Hm].
    + destruct (new_signal _ _ _ _ _ _ _ _ _) as [s'|e0] eqn:Hnew; simpl.
      * split; [reflexivity|discriminate].
      * split; [exact Hm|]. intros e H. injection H as <-.
        split; [reflexivity|]. now apply post_init_raises_assertion in Hnew.
Qed.

End RegistrationFacts.

Section DictShapes.
Context {V : Type}.
Implicit Types (d : dict PairInternalId V) (k : PairInternalId) (v : V).

Lemma dict_set_Forall (P : PairInternalId * V -> Prop) k v d :
  Forall P d -> P (k, v) -> Forall P (dict_set id_eqb k v d).
Proof.
  intros Hd Hnew. apply Forall_forall. intros e He.
  destruct (dict_set_In _ _ _ _ He) as [->|Hin]; [exact Hnew|].
  rewrite Forall_forall in Hd. now apply Hd.
Qed.

Lemma dict_del_Forall (P : PairInternalId * V -> Prop) k d :
  Forall P d -> Forall P (dict_del id_eqb k d).
Proof.
  intro Hd. apply Forall_forall. intros e He.
  rewrite Forall_forall in Hd. apply Hd. now apply (dict_del_incl k d).
Qed.

Lemma dict_mem_false_get k d :
  dict_mem id_eqb k d = false -> dict_get id_eqb k d = None.
Proof. unfold dict_mem. now destruct (dict_get id_eqb k d). Qed.

End DictShapes.

Section RegistrationRoundTrips.
Context {PK : PairKinds}.

(** An alpha of zero removes the raw signal of the pair. *)
Lemma zero_alpha_removes (p : TradingPairIdentifier) (alpha : Q)
    (sl tp tsl : option Q) (lev : option PyNum) (m : AlphaModel) :
  is_spot p = true ->
  alpha == 0 ->
  NoDup (dict_keys (raw_signals m)) ->
  exists m',
    set_signal p alpha sl tp tsl lev m = (Ok tt, m')
    /\ dict_get id_eqb (internal_id p) (raw_signals m') = None
    /\ (forall k, k <> internal_id p ->
          dict_get id_eqb k (raw_signals m') = dict_get id_eqb k (raw_signals m))
    /\ signals m' = signals m.
Proof.
  intros Hspot Hz Hnd. unfold set_signal. run_py. rewrite Hspot. simpl.
  assert (Hneg : Qltb alpha 0 = false).
  { apply Qltb_ge. rewrite Hz. apply Qle_refl. }
  rewrite Hneg. simpl. apply Qeq_bool_iff in Hz. rewrite Hz.
  destruct (dict_mem id_eqb (internal_id p) (raw_signals m)) eqn:Hmem;
    unfold ret; simpl.
  - eexists. split; [reflexivity|]. simpl.
    split; [now apply dict_get_del_same|].
    split; [|reflexivity]. intros k Hk. now apply dict_get_del_other.
  - exists m. split; [reflexivity|].
    split; [now apply dict_mem_false_get|]. auto.
Qed.

(** X3. [set_signal] with an alpha of zero returns for every spot pair,
    whatever the leverage; afterwards the pair has no raw signal, every
    other raw signal is as before, and [signals] is untouched. *)
Theorem set_signal_zero_removes (p : TradingPairIdentifier) (alpha : Q)
    (sl tp tsl : option Q) (lev : option PyNum) (m : AlphaModel) :
  is_spot p = true ->
  alpha == 0 ->
  NoDup (dict_keys (raw_signals m)) ->
  exists m',
    set_signal p alpha sl tp tsl lev m = (Ok tt, m')
    /\ dict_get id_eqb (internal_id p) (raw_signals m') = None
    /\ (forall k, k <> internal_id p ->
          dict_get id_eqb k (raw_signals m') = dict_get id_eqb k (raw_signals m))
    /\ signals m' = signals m.
Proof. intros. apply zero_alpha_removes; assumption. Qed.

(** X4. A call of [set_signal] that passes the checks stores the signal
    built from its arguments under the id of the pair, replacing what
    was there: the last write wins.  A pair registered before keeps its
    place in the dictionary, a new one goes last; the other raw signals
    and [signals] are as before. *)
Theorem set_signal_last_write_wins (p : TradingPairIdentifier) (alpha : Q)
    (sl tp tsl : option Q) (lev : option PyNum) (m : AlphaModel) :
  is_spot p = true ->
  ~ alpha == 0 ->
  (alpha < 0 -> lev <> None) ->
  leverage_accepted lev = true ->
  exists m',
    set_signal p alpha sl tp tsl lev m = (Ok tt, m')
    /\ dict_get id_eqb (internal_id p) (raw_signals m')
       = Some (registered p alpha sl tp tsl lev)
    /\ (forall k, k <> internal_id p ->
          dict_get id_eqb k (raw_signals m') = dict_get id_eqb k (raw_signals m))
    /\ dict_keys (raw_signals m')
       = (if dict_mem id_eqb (internal_id p) (raw_signals m)
          then dict_keys (raw_signals m)
          else dict_keys (raw_signals m) ++ [internal_id p])
    /\ signals m' = signals m.
Proof.
  intros Hspot Hnz Hlev Hacc. unfold set_signal. run_py. rewrite Hspot. simpl.
  apply Qeq_bool_false in Hnz.
  assert (Hpost : new_signal p alpha sl tp tsl 0 0 None lev
                  = Ok (registered p alpha sl tp tsl lev)).
  { unfold new_signal. apply post_init_ok_iff. simpl. auto. }
  assert (Hgoal : exists m',
             (Ok tt,
              set_raw_signals
                (dict_set id_eqb (internal_id p) (registered p alpha sl tp tsl lev)
                   (raw_signals m)) m) = (Ok tt, m')
             /\ dict_get id_eqb (internal_id p) (raw_signals m')
                = Some (registered p alpha sl tp tsl lev)
             /\ (forall k, k <> internal_id p ->
                   dict_get id_eqb k (raw_signals m')
                   = dict_get id_eqb k (raw_signals m))
             /\ dict_keys (raw_signals m')
                = (if dict_mem id_eqb (internal_id p) (raw_signals m)
                   then dict_keys (raw_signals m)
                   else dict_keys (raw_signals m) ++ [internal_id p])
             /\ signals m' = signals m).
  { eexists. split; [reflexivity|]. simpl.
    split; [apply dict_get_set_same|].
    split; [intros k Hk; now apply dict_get_set_other|].
    split; [|reflexivity].
    destruct (dict_mem id_eqb (internal_id p) (raw_signals m)) eqn:Hmem.
    - apply dict_set_keys_present. now apply dict_mem_in_keys.
    - rewrite dict_set_fresh.
      + unfold dict_keys. now rewrite map_app.
      + intro Hin. apply dict_mem_in_keys in Hin. congruence. }
  destruct (Qltb alpha 0) eqn:Hneg; simpl.
  - apply Qltb_lt in Hneg. destruct lev as [l|]; [|now destruct (Hlev Hneg)].
    simpl. rewrite Hnz, Hpost. exact Hgoal.
  - rewrite Hnz, Hpost. exact Hgoal.
Qed.

Lemma registered_well_set (d : signal_dict) (s : TradingPairSignal) :
  registered_well d -> registrable s ->
  registered_well (dict_set id_eqb (internal_id (pair s)) s d).
Proof.
  intros [[Hnd Hkey] Hreg] Hs. repeat split.
  - now apply dict_set_keys_NoDup.
  - now apply dict_set_Forall.
  - now apply dict_set_Forall.
Qed.

Lemma registered_well_del (d : signal_dict) (k : PairInternalId) :
  registered_well d -> registered_well (dict_del id_eqb k d).
Proof.
  intros [[Hnd Hkey] Hreg]. repeat split.
  - now apply dict_del_keys_NoDup.
  - now apply dict_del_Forall.
  - now apply dict_del_Forall.
Qed.

(** [set_signal] keeps the raw signals well registered. *)
Lemma registered_after_set_signal (p : TradingPairIdentifier) (alpha : Q)
    (sl tp tsl : option Q) (lev : option PyNum) (m : AlphaModel) :
  registered_well (raw_signals m) ->
  registered_well (raw_signals (snd (set_signal p alpha sl tp tsl lev m))).
Proof.
  intro Hwell. unfold set_signal. run_py.
  destruct (is_spot p) eqn:Hspot; simpl; [|exact Hwell].
  assert (Hstore : forall s',
             Qeq_bool alpha 0 = false ->
             (alpha < 0 -> lev <> None) ->
             new_signal p alpha sl tp tsl 0 0 None lev = Ok s' ->
             registered_well (dict_set id_eqb (internal_id p) s' (raw_signals m))).
  { intros s' Hnz Hlev Hnew. unfold new_signal in Hnew.
    apply post_init_ok_iff in Hnew. simpl in Hnew.
    destruct Hnew as [-> [_ Hacc]].
    apply (registered_well_set (raw_signals m)
             (mkSignal p alpha sl tp tsl 0 0 0 0 None 0 0 (PyFloat 0) None
                false 0 0 None lev)); [exact Hwell|].
    unfold registrable. simpl. apply Qeq_bool_false in Hnz. auto. }
  destruct (Qltb alpha 0) eqn:Hneg; simpl.
  - destruct lev as [l|]; simpl; [|exact Hwell].
    destruct (Qeq_bool alpha 0) eqn:Hnz.
    + destruct (dict_mem _ _ _); unfold ret; simpl;
        [now apply registered_well_del|exact Hwell].
    + destruct (new_signal _ _ _ _ _ _ _ _ _) as [s'|e] eqn:Hnew; simpl;
        [|exact Hwell].
      apply Hstore; [reflexivity|discriminate|reflexivity].
  - apply Qltb_ge in Hneg. destruct (Qeq_bool alpha 0) eqn:Hnz.
    + destruct (dict_mem _ _ _); unfold ret; simpl;
        [now apply registered_well_del|exact Hwell].
    + destruct (new_signal _ _ _ _ _ _ _ _ _) as [s'|e] eqn:Hnew; simpl;
        [|exact Hwell].
      apply Hstore; [reflexivity| |reflexivity].
      intro H. exfalso. exact (Qlt_not_le _ _ H Hneg).
Qed.

(** X5. Whatever its arguments and its outcome, [set_signal] keeps
    [raw_signals] well registered: no key twice, every signal under the
    id of its own spot pair, with a non-zero signal, a leverage when the
    signal is negative, and a leverage that is none, zero or a positive
    float. *)
Theorem set_signal_keeps_registered (p : TradingPairIdentifier) (alpha : Q)
    (sl tp tsl : option Q) (lev : option PyNum) (m : AlphaModel) :
  registered_well (raw_signals m) ->
  registered_well (raw_signals (snd (set_signal p alpha sl tp tsl lev m))).
Proof. intros. apply registered_after_set_signal; assumption. Qed.

End RegistrationRoundTrips.

(* ===================================================================== *)
(** ** More on the selection *)
(* ===================================================================== *)

Section ListShapes.
Context {A B : Type}.

Lemma NoDup_map_filter (f : A -> B) (g : A -> bool) (l : list A) :
  NoDup (map f l) -> NoDup (map f (filter g l)).
Proof.
  induction l as [|x l IH]; simpl; intro Hnd; [constructor|].
  inversion Hnd as [|? ? Hx Hl]; subst.
  destruct (g x); simpl; [|now apply IH].
  constructor; [|now apply IH].
  intro Hin. apply Hx. apply in_map_iff in Hin.
  destruct Hin as [y [Hy Hin]]. apply filter_In in Hin.
  apply in_map_iff. exists y. tauto.
Qed.

Lemma NoDup_map_firstn (f : A -> B) (n : nat) (l : list A) :
  NoDup (map f l) -> NoDup (map f (firstn n l)).
Proof.
  intro Hnd. rewrite <- (firstn_skipn n l), map_app in Hnd.
  now apply NoDup_app_remove_r in Hnd.
Qed.

Lemma In_firstn (n : nat) (l : list A) (x : A) : In x (firstn n l) -> In x l.
Proof.
  intro H. rewrite <- (firstn_skipn n l). apply in_or_app. now left.
Qed.

End ListShapes.

Section SortFixed.
Context {A : Type} (key : A -> Q).

(** Sorting a list that is in descending order gives the list back. *)
Lemma sorted_reverse_fixed (l : list A) :
  StronglySorted (ranks_above key) l -> sorted_reverse key l = l.
Proof.
  induction 1 as [|x l Hs IH Hx]; simpl; [reflexivity|].
  rewrite IH. destruct l as [|y l]; simpl; [reflexivity|].
  inversion Hx as [|? ? Hy _]; subst. unfold ranks_above in Hy.
  now rewrite (proj2 (Qltb_ge _ _) Hy).
Qed.

End SortFixed.

Lemma dict_get_In {V : Type} (k : PairInternalId) (v : V)
    (d : dict PairInternalId V) :
  dict_get id_eqb k d = Some v -> In (k, v) d.
Proof.
  induction d as [|[k' v'] d IH]; simpl; [discriminate|].
  destruct (id_eqb k k') eqn:E.
  - apply id_eqb_eq in E. subst k'. intro H. injection H as ->. now left.
  - intro H. right. now apply IH.
Qed.

Section SelectionFacts.
Context {PK : PairKinds}.

Lemma registered_well_ids (d : signal_dict) :
  keyed_by_pair d ->
  map (fun s => internal_id (pair s)) (dict_values d) = dict_keys d.
Proof.
  intros [_ Hkey]. unfold dict_values, dict_keys. rewrite map_map.
  induction Hkey as [|[k s] d Hk _ IH]; simpl; [reflexivity|].
  simpl in Hk. now rewrite IH, Hk.
Qed.

(** The ids of the selected signals are distinct when the raw signals
    sit under the ids of their pairs. *)
Lemma top_signals_distinct (count : Z) (threshold : Q) (m : AlphaModel) :
  keyed_by_pair (raw_signals m) ->
  NoDup (map (fun s => internal_id (pair s)) (top_signals count threshold m)).
Proof.
  intro Hkey. unfold top_signals, nlargest. apply NoDup_map_firstn.
  apply (Permutation_NoDup
           (l := map (fun s => internal_id (pair s)) (filtered_signals threshold m))).
  - apply Permutation_map. symmetry. apply sorted_reverse_perm.
  - unfold filtered_signals. apply NoDup_map_filter.
    rewrite (registered_well_ids _ Hkey). apply Hkey.
Qed.

(** The shape of the selected signals. *)
Lemma selection_shape (count : Z) (threshold : Q) (m : AlphaModel) :
  let result := select_top_signals count threshold m in
  fst result = Ok tt
  /\ raw_signals (snd result) = raw_signals m
  /\ keyed_by_pair (signals (snd result))
  /\ (forall k s, In (k, s) (signals (snd result)) ->
        In s (dict_values (raw_signals m)) /\ threshold <= Qabs (signal s))
  /\ ((count <= 0)%Z -> signals (snd result) = []).
Proof.
  unfold select_top_signals, modify. simpl.
  assert (Hin : forall k s,
             In (k, s)
               (dict_of_list id_eqb
                  (map (fun s => (internal_id (pair s), s))
                       (top_signals count threshold m))) ->
             k = internal_id (pair s) /\ In s (top_signals count threshold m)).
  { intros k s H. apply dict_of_list_In in H. apply in_map_iff in H.
    destruct H as [s0 [Heq Hs0]]. injection Heq as <- <-. auto. }
  split; [reflexivity|]. split; [reflexivity|]. split; [split|split].
  - apply dict_of_list_NoDup.
  - apply Forall_forall. intros [k s] H. simpl. now apply Hin.
  - intros k s H. destruct (Hin k s H) as [_ Hs].
    unfold top_signals, nlargest in Hs. apply In_firstn in Hs.
    apply (Permutation_in _ (sorted_reverse_perm _ _)) in Hs.
    unfold filtered_signals in Hs. apply filter_In in Hs.
    now rewrite Qle_bool_iff in Hs.
  - intro Hcount. unfold top_signals, nlargest.
    replace (Z.to_nat count) with 0%nat by lia. reflexivity.
Qed.

(** X6. [select_top_signals] never raises and never changes
    [raw_signals]; the [signals] it stores have no repeated key, each
    sits under the id of its own pair and is a raw signal with
    [abs(signal) >= threshold]; for a count below one nothing is
    selected. *)
Theorem select_top_signals_shape (count : Z) (threshold : Q) (m : AlphaModel) :
  let result := select_top_signals count threshold m in
  fst result = Ok tt
  /\ raw_signals (snd result) = raw_signals m
  /\ keyed_by_pair (signals (snd result))
  /\ (forall k s, In (k, s) (signals (snd result)) ->
        In s (dict_values (raw_signals m)) /\ threshold <= Qabs (signal s))
  /\ ((count <= 0)%Z -> signals (snd result) = []).
Proof. intros. apply selection_shape; assumption. Qed.

(** X7. On well registered raw signals, [select_top_signals] stores the
    selected signals in descending order of [raw_weight], which is then
    the order in which [iterate_signals] yields them and in which
    [get_signals_sorted_by_weight] returns them; there are as many as
    [count] allows, and they are well registered in turn. *)
Theorem select_top_signals_order (count : Z) (threshold : Q) (m : AlphaModel) :
  registered_well (raw_signals m) ->
  let m' := snd (select_top_signals count threshold m) in
  iterate_signals m' = top_signals count threshold m
  /\ StronglySorted (ranks_above raw_weight) (iterate_signals m')
  /\ get_signals_sorted_by_weight m' = iterate_signals m'
  /\ length (iterate_signals m')
     = Nat.min (Z.to_nat count)
         (length (filter (fun s => Qle_bool threshold (Qabs (signal s)))
                    (dict_values (raw_signals m))))
  /\ registered_well (signals m').
Proof.
  intros [Hkey Hreg] m'.
  assert (Hsig : signals m'
                 = map (fun s => (internal_id (pair s), s))
                       (top_signals count threshold m)).
  { unfold m', select_top_signals, modify. simpl.
    apply dict_of_list_distinct. rewrite map_map. simpl.
    now apply top_signals_distinct. }
  assert (Hit : iterate_signals m' = top_signals count threshold m).
  { unfold iterate_signals, dict_values. rewrite Hsig, map_map. simpl.
    apply map_id. }
  destruct (nlargest_spec raw_weight count (filtered_signals threshold m))
    as [rest [Hperm [Hlen [Hsorted _]]]].
  split; [exact Hit|]. split; [rewrite Hit; exact Hsorted|].
  split; [|split].
  - unfold get_signals_sorted_by_weight. fold (iterate_signals m').
    rewrite Hit. now apply sorted_reverse_fixed.
  - rewrite Hit. exact Hlen.
  - destruct (selection_shape count threshold m)
      as [_ [_ [Hk [Hin _]]]].
    split; [exact Hk|]. apply Forall_forall. intros [k s] H. simpl.
    destruct (Hin k s H) as [Hraw _].
    unfold dict_values in Hraw. apply in_map_iff in Hraw.
    destruct Hraw as [[k0 s0] [Heq Hraw]]. simpl in Heq. subst s0.
    rewrite Forall_forall in Hreg. exact (Hreg _ Hraw).
Qed.

(** X8. A pair whose signal was set to zero is not selected: after
    [set_signal] with an alpha of zero followed by [select_top_signals],
    [get_signal_by_pair] finds no signal for the pair. *)
Theorem zero_signal_is_not_selected (p : TradingPairIdentifier) (alpha : Q)
    (sl tp tsl : option Q) (lev : option PyNum) (count : Z) (threshold : Q)
    (m : AlphaModel) :
  registered_well (raw_signals m) ->
  is_spot p = true ->
  alpha == 0 ->
  let m1 := snd (set_signal p alpha sl tp tsl lev m) in
  let m2 := snd (select_top_signals count threshold m1) in
  get_signal_by_pair m2 p = None.
Proof.
  intros Hwell Hspot Hz m1 m2.
  pose proof (registered_after_set_signal p alpha sl tp tsl lev m Hwell) as Hwell1.
  fold m1 in Hwell1.
  destruct (zero_alpha_removes p alpha sl tp tsl lev m Hspot Hz)
    as [m1' [Hrun [Hgone _]]]; [apply Hwell|].
  assert (Hm1 : m1 = m1') by (unfold m1; now rewrite Hrun). subst m1'.
  unfold get_signal_by_pair, get_signal_by_pair_id.
  destruct (dict_get id_eqb (internal_id p) (signals m2)) as [s|] eqn:Hget;
    [|reflexivity].
  exfalso. apply dict_get_In in Hget.
  destruct (selection_shape count threshold m1)
    as [_ [_ [[_ Hkeyed] [Hin _]]]].
  fold m2 in Hkeyed, Hin.
  destruct (Hin _ _ Hget) as [Hraw _].
  rewrite Forall_forall in Hkeyed. specialize (Hkeyed _ Hget). simpl in Hkeyed.
  unfold dict_values in Hraw. apply in_map_iff in Hraw.
  destruct Hraw as [[k0 s0] [Heq Hraw]]. simpl in Heq. subst s0.
  destruct Hwell1 as [[_ Hk1] _]. rewrite Forall_forall in Hk1.
  specialize (Hk1 _ Hraw). simpl in Hk1.
  assert (Hmem : In (internal_id p) (dict_keys (raw_signals m1))).
  { unfold dict_keys. apply in_map_iff. exists (k0, s). simpl.
    split; [congruence|exact Hraw]. }
  apply dict_mem_in_keys in Hmem. unfold dict_mem in Hmem.
  now rewrite Hgone in Hmem.
Qed.

End SelectionFacts.

(* ===================================================================== *)
(** ** The merge of the old weights *)
(* ===================================================================== *)

Section OldWeights.
Context {PK : PairKinds}.

(** The signal that [set_old_weight] creates for a pair without one. *)
Lemma new_signal_for_holding (p op : TradingPairIdentifier) (w v : Q) :
  is_spot p = true ->
  new_signal p 0 None None None w v (Some op) None
  = Ok (mkSignal p 0 None None None 0 0 w v (Some op) 0 0 (PyFloat 0) None
          false 0 0 None None).
Proof.
  intro Hspot. unfold new_signal. apply post_init_ok_iff. simpl. auto.
Qed.

(** What [set_old_weight] stores, and where. *)
Lemma old_weight_stored (p op : TradingPairIdentifier) (w v : Q)
    (m : AlphaModel) :
  (is_spot p = false ->
   set_old_weight p w v op m = (Raise (AssertionError "pair.is_spot()"), m))
  /\
  (is_spot p = true ->
   exists m' s',
     set_old_weight p w v op m = (Ok tt, m')
     /\ get_signal_by_pair m' p = Some s'
     /\ old_weight s' = w /\ old_value s' = v /\ old_pair s' = Some op
     /\ match get_signal_by_pair m p with
        | Some s => s' = set_old w v (Some op) s
        | None =>
            pair s' = p /\ signal s' = 0 /\ normalised_weight s' = 0
            /\ raw_weight s' = 0 /\ leverage s' = None
            /\ position_adjust_ignored s' = false
        end
     /\ (forall k, k <> internal_id p ->
           get_signal_by_pair_id m' k = get_signal_by_pair_id m k)).
Proof.
  unfold get_signal_by_pair, get_signal_by_pair_id, set_old_weight. run_py.
  split; intro Hspot; rewrite Hspot; simpl; [reflexivity|].
  destruct (dict_get id_eqb (internal_id p) (signals m)) as [s|] eqn:Hget.
  - eexists. exists (set_old w v (Some op) s).
    split; [reflexivity|]. simpl.
    split; [apply dict_get_set_same|].
    repeat (split; [reflexivity|]).
    intros k Hk. now apply dict_get_set_other.
  - rewrite (new_signal_for_holding p op w v Hspot). simpl.
    eexists. eexists. split; [reflexivity|]. simpl.
    split; [apply dict_get_set_same|]. simpl.
    repeat (split; [reflexivity|]).
    split; [repeat split|].
    intros k Hk. now apply dict_get_set_other.
Qed.

(** X9. [set_old_weight] raises for a pair that is not a spot pair and
    leaves the model as it was.  For a spot pair it returns, and
    [get_signal_by_pair] then finds a signal that carries the old
    weight, the old value and the old pair: the signal that was there,
    otherwise unchanged, or else a new signal of strength zero and
    weight zero.  The signals that [signals] holds for other pairs are
    as before. *)
Theorem set_old_weight_round_trip (p op : TradingPairIdentifier) (w v : Q)
    (m : AlphaModel) :
  (is_spot p = false ->
   set_old_weight p w v op m = (Raise (AssertionError "pair.is_spot()"), m))
  /\
  (is_spot p = true ->
   exists m' s',
     set_old_weight p w v op m = (Ok tt, m')
     /\ get_signal_by_pair m' p = Some s'
     /\ old_weight s' = w /\ old_value s' = v /\ old_pair s' = Some op
     /\ match get_signal_by_pair m p with
        | Some s => s' = set_old w v (Some op) s
        | None =>
            pair s' = p /\ signal s' = 0 /\ normalised_weight s' = 0
            /\ raw_weight s' = 0 /\ leverage s' = None
            /\ position_adjust_ignored s' = false
        end
     /\ (forall k, k <> internal_id p ->
           get_signal_by_pair_id m' k = get_signal_by_pair_id m k)).
Proof. intros. apply old_weight_stored; assumption. Qed.

(** X10. Whatever its outcome, [set_old_weight] keeps [signals] keyed
    by pair id without repeated key, and keeps every signal identified
    by a spot pair. *)
Theorem set_old_weight_keeps_shape (p op : TradingPairIdentifier) (w v : Q)
    (m : AlphaModel) :
  keyed_by_pair (signals m) -> spot_pairs (signals m) ->
  keyed_by_pair (signals (snd (set_old_weight p w v op m)))
  /\ spot_pairs (signals (snd (set_old_weight p w v op m))).
Proof.
  intros [Hnd Hkey] Hspots. unfold set_old_weight. run_py.
  destruct (is_spot p) eqn:Hspot; simpl; [|now repeat split].
  destruct (dict_get id_eqb (internal_id p) (signals m)) as [s|] eqn:Hget.
  - simpl. apply dict_get_In in Hget.
    assert (Hp : internal_id p = internal_id (pair s)).
    { rewrite Forall_forall in Hkey. exact (Hkey _ Hget). }
    assert (Hs : is_spot (pair s) = true).
    { unfold spot_pairs in Hspots. rewrite Forall_forall in Hspots.
      exact (Hspots _ Hget). }
    repeat split.
    + now apply dict_set_keys_NoDup.
    + now apply dict_set_Forall.
    + now apply dict_set_Forall.
  - rewrite (new_signal_for_holding p op w v Hspot). simpl. repeat split.
    + now apply dict_set_keys_NoDup.
    + now apply dict_set_Forall.
    + now apply dict_set_Forall.
Qed.

End OldWeights.

(* ===================================================================== *)
(** ** What the loops leave alone *)
(* ===================================================================== *)

Section LoopFrames.
Context {K V P A : Type} (body : M (V * P) A).

(** A relation between a value and what the body makes of it, whatever
    the outcome, holds entry by entry between the dictionary before and
    after the loop, whatever the outcome; the keys stay in place. *)
Lemma for_each_value_entrywise (rel : V -> V -> Prop) :
  (forall v, rel v v) ->
  (forall v p o v' p', body (v, p) = (o, (v', p')) -> rel v v') ->
  forall (d : dict K V) (p : P),
    Forall2 (fun kv kv' => fst kv' = fst kv /\ rel (snd kv) (snd kv'))
      d (fst (snd (for_each_value body d p))).
Proof.
  intros Hrefl Hbody. induction d as [|[k v] d IH]; intro p; simpl.
  - constructor.
  - destruct (body (v, p)) as [[a|e] [v' p']] eqn:Hb.
    + specialize (IH p').
      destruct (for_each_value body d p') as [[r|e] [d'' p'']]; simpl in *;
        (constructor; [simpl; split; [reflexivity|exact (Hbody _ _ _ _ _ Hb)]
                      |exact IH]).
    + simpl. constructor.
      * simpl. split; [reflexivity|exact (Hbody _ _ _ _ _ Hb)].
      * clear - Hrefl. induction d as [|kv d IHd]; constructor;
          [split; [reflexivity|apply Hrefl]|exact IHd].
Qed.

(** A property of the shared state that the body keeps, whatever the
    outcome, holds after the loop, whatever the outcome. *)
Lemma for_each_value_state (inv : P -> Prop) :
  (forall v p o v' p', inv p -> body (v, p) = (o, (v', p')) -> inv p') ->
  forall (d : dict K V) (p : P), inv p -> inv (snd (snd (for_each_value body d p))).
Proof.
  intro Hbody. induction d as [|[k v] d IH]; intros p Hp; simpl; [exact Hp|].
  destruct (body (v, p)) as [[a|e] [v' p']] eqn:Hb.
  - pose proof (Hbody _ _ _ _ _ Hp Hb) as Hp'. specialize (IH p' Hp').
    now destruct (for_each_value body d p') as [[r|e] [d'' p'']].
  - simpl. exact (Hbody _ _ _ _ _ Hp Hb).
Qed.

(** When a returning body leaves the shared state alone and returns
    the same on its own result, so does the loop. *)
Lemma for_each_value_again (d d' : dict K V) (p p' : P) r :
  (forall v q a v' q',
      body (v, q) = (Ok a, (v', q')) ->
      q' = q /\ body (v', q) = (Ok a, (v', q))) ->
  for_each_value body d p = (Ok r, (d', p')) ->
  p' = p /\ for_each_value body d' p = (Ok r, (d', p)).
Proof.
  intro Hbody. revert d' p p' r.
  induction d as [|[k v] d IH]; intros d' p p' r Hrun; simpl in Hrun.
  - injection Hrun as <- <- <-. auto.
  - destruct (body (v, p)) as [[a|e] [v' p1]] eqn:Hb; [|discriminate].
    destruct (Hbody _ _ _ _ _ Hb) as [-> Hagain].
    destruct (for_each_value body d p) as [[r1|e] [d1 p2]] eqn:Hrest;
      [|discriminate].
    injection Hrun as <- <- <-.
    destruct (IH _ _ _ _ Hrest) as [-> Hrest'].
    split; [reflexivity|]. simpl. now rewrite Hagain, Hrest'.
Qed.

End LoopFrames.

Section TargetFrames.
Context {PK : PairKinds} {PM : PositionManager}.

(** The fields that the target computation leaves alone. *)
Lemma target_position_inputs (equity : Q) (s s' : TradingPairSignal)
    (pm pm' : pm_state) o :
  target_position equity (s, pm) = (o, (s', pm')) ->
  same_inputs s s'
  /\ position_id s' = position_id s
  /\ position_adjust_ignored s' = position_adjust_ignored s
  /\ profit_before_trades s' = profit_before_trades s
  /\ profit_before_trades_pct s' = profit_before_trades_pct s.
Proof.
  rewrite target_position_run. cbv zeta. unfold same_inputs.
  destruct (map_pair_for_signal s pm) as [synthetic|e].
  2:{ intro H. injection H as _ <- _. simpl. auto 20. }
  destruct (is_flipping s).
  { intro H. injection H as _ <- _. simpl. auto 20. }
  destruct (Qltb _ 0).
  2:{ intro H. injection H as _ <- _. simpl. auto 20. }
  destruct (estimate_asset_quantity _ _ pm) as [q|e];
    intro H; injection H as _ <- _; simpl; auto 20.
Qed.

Lemma same_inputs_refl (s : TradingPairSignal) : same_inputs s s.
Proof. unfold same_inputs. auto 20. Qed.

Lemma same_inputs_is_flipping (s s' : TradingPairSignal) :
  same_inputs s s' -> is_flipping s' = is_flipping s.
Proof.
  unfold same_inputs, is_flipping.
  intros [_ [-> [_ [_ [_ [_ [-> [_ [_ [-> _]]]]]]]]]]. reflexivity.
Qed.

(** X11. Whatever its outcome, [calculate_target_positions] leaves the
    position manager, the epsilon and the keys of [signals] as they
    were, records the equity, and on every signal of [signals] changes
    nothing but the target, the adjustment, its quantity and the
    synthetic pair. *)
Theorem calculate_target_positions_frame (equity : Q) (m : AlphaModel)
    (pm : pm_state) :
  let result := calculate_target_positions equity (m, pm) in
  let m' := fst (snd result) in
  snd (snd result) = pm
  /\ investable_equity m' = Some equity
  /\ close_position_weight_epsilon m' = close_position_weight_epsilon m
  /\ dict_keys (signals m') = dict_keys (signals m)
  /\ entrywise
       (fun s s' =>
          same_inputs s s'
          /\ position_id s' = position_id s
          /\ position_adjust_ignored s' = position_adjust_ignored s
          /\ profit_before_trades s' = profit_before_trades s
          /\ profit_before_trades_pct s' = profit_before_trades_pct s)
       (signals m) (signals m').
Proof.
  unfold calculate_target_positions, for_each_signal. run_py.
  pose proof (for_each_value_state (target_position equity) (fun p => p = pm)
                (fun v p o v' p' (Hp : p = pm)
                     (Hb : target_position equity (v, p) = (o, (v', p'))) =>
                   eq_trans (target_position_keeps_manager _ _ _ _ _ _ Hb) Hp)
                (signals m) pm eq_refl) as Hpm.
  pose proof (for_each_value_keys (target_position equity) (signals m) pm) as Hkeys.
  pose proof (for_each_value_entrywise (target_position equity)
                (fun s s' =>
                   same_inputs s s'
                   /\ position_id s' = position_id s
                   /\ position_adjust_ignored s' = position_adjust_ignored s
                   /\ profit_before_trades s' = profit_before_trades s
                   /\ profit_before_trades_pct s' = profit_before_trades_pct s)
                (fun s => conj (same_inputs_refl s)
                            (conj eq_refl (conj eq_refl (conj eq_refl eq_refl))))
                (fun v p o v' p' Hb => target_position_inputs _ _ _ _ _ _ Hb)
                (signals m) pm) as Hentry.
  destruct (for_each_value (target_position equity) (signals m) pm)
    as [[r|e] [d' p']]; simpl in *; auto 10.
Qed.

(** Running the body again on its own result changes nothing. *)
Lemma target_position_again (equity : Q) (s s' : TradingPairSignal)
    (pm pm' : pm_state) :
  target_position equity (s, pm) = (Ok tt, (s', pm')) ->
  pm' = pm /\ target_position equity (s', pm) = (Ok tt, (s', pm)).
Proof.
  intro Hrun. pose proof (target_position_keeps_manager _ _ _ _ _ _ Hrun) as ->.
  split; [reflexivity|]. revert Hrun. rewrite !target_position_run. cbv zeta.
  unfold map_pair_for_signal, is_flipping.
  destruct s as [p sg sl tp tsl rw nw ow ov op pt pa pq pid ign pb pbp sy lev].
  simpl.
  destruct (if Qltb 0 sg then Ok p
            else if Qltb sg 0 then get_shorting_pair p pm else Ok p)
    as [synthetic|e] eqn:Hmap; [|discriminate].
  destruct (if Qeq_bool nw 0 then false
            else match op with
                 | Some op0 =>
                     if Qltb sg 0 then is_long op0 || is_spot op0
                     else if Qltb 0 sg then is_short op0 else false
                 | None => false
                 end) eqn:Hflip.
  - intro H. injection H as <-. simpl. now rewrite Hmap, Hflip.
  - destruct (Qltb (nw * equity - ov) 0) eqn:Hneg.
    + destruct (estimate_asset_quantity p (nw * equity - ov) pm) as [q|e] eqn:Hq;
        [|discriminate].
      destruct (is_float q) eqn:Hf; [|discriminate].
      intro H. injection H as <-. simpl.
      now rewrite Hmap, Hflip, Hneg, Hq, Hf.
    + intro H. injection H as <-. simpl. now rewrite Hmap, Hflip, Hneg.
Qed.

(** X12. [calculate_target_positions] is idempotent: when it has
    returned, running it again with the same equity returns and changes
    neither the model nor the position manager. *)
Theorem calculate_target_positions_again (equity : Q) (m m' : AlphaModel)
    (pm pm' : pm_state) :
  calculate_target_positions equity (m, pm) = (Ok tt, (m', pm')) ->
  calculate_target_positions equity (m', pm') = (Ok tt, (m', pm')).
Proof.
  unfold calculate_target_positions, for_each_signal. run_py.
  destruct (for_each_value (target_position equity) (signals m) pm)
    as [[r|e] [d' p']] eqn:Hrun; [|discriminate].
  intro H. injection H as <- <-. simpl.
  destruct (for_each_value_again (target_position equity) _ _ _ _ _
              (fun v q a v' q' Hb =>
                 match a return target_position equity (v, q) = (Ok a, (v', q')) -> _
                 with tt => target_position_again equity v v' q q' end Hb)
              Hrun) as [-> Hagain].
  now rewrite Hagain.
Qed.

End TargetFrames.

Section GenerateFrames.
Context {PK : PairKinds} {R : Rendering} {PM : PositionManager}.

Lemma same_targets_refl (s : TradingPairSignal) : same_targets s s.
Proof. unfold same_targets. auto. Qed.

Lemma noted_same (s : TradingPairSignal) (pm : pm_state) :
  same_inputs s (noted s pm) /\ same_targets s (noted s pm).
Proof.
  unfold same_inputs, same_targets.
  assert (Hrw : raw_weight (noted s pm) = raw_weight s
                /\ old_value (noted s pm) = old_value s).
  { unfold noted, current_position. destruct s; simpl.
    repeat match goal with
           | |- context [match ?x with _ => _ end] => destruct x; simpl
           end; auto. }
  destruct Hrw as [Hrw Hov].
  rewrite noted_pair, noted_signal, noted_stop_loss, noted_take_profit,
    noted_trailing_stop_loss, noted_normalised_weight, noted_old_weight,
    noted_old_pair, noted_leverage, noted_position_target,
    noted_position_adjust_usd, noted_position_adjust_quantity,
    noted_synthetic_pair.
  auto 20.
Qed.

(** The rebalance branch leaves the signal as it was or sets its
    [position_id]. *)
Lemma rebalance_position_signal (s s0 s' : TradingPairSignal)
    (synthetic : TradingPairIdentifier) (cur : option TradingPosition)
    (pm pm' : pm_state) o :
  rebalance_position s synthetic cur (s0, pm) = (o, (s', pm')) ->
  s' = s0 \/ exists i, s' = set_position_id i s0.
Proof.
  unfold rebalance_position. unfold bind at 1.
  destruct (close_flipped s (s0, pm)) as [[closes|e] [s1 pm1]] eqn:Hc.
  2:{ apply close_flipped_keeps_signal in Hc. intro H. injection H as _ <- _.
      now left. }
  apply close_flipped_keeps_signal in Hc as Hs1. subst s1.
  unfold bind at 1.
  destruct (open_or_adjust s synthetic cur (s0, pm1)) as [[opens|e] [s2 pm2]]
    eqn:Ho.
  2:{ apply open_or_adjust_keeps_signal in Ho. intro H. injection H as _ <- _.
      now left. }
  apply open_or_adjust_keeps_signal in Ho as Hs2. subst s2.
  destruct (closes ++ opens) as [|first others].
  - unfold raise. intro H. injection H as _ <- _. now left.
  - run_py. destruct (truthy_id (trade_position_id first)); simpl;
      intro H; injection H as _ <- _; eauto.
Qed.

(** The fields that the loop body of the generation leaves alone. *)
Lemma rebalance_signal_frame (threshold epsilon : Q) (s s' : TradingPairSignal)
    (pm pm' : pm_state) o :
  rebalance_signal threshold epsilon (s, pm) = (o, (s', pm')) ->
  same_inputs s s' /\ same_targets s s'.
Proof.
  rewrite rebalance_signal_run. pose proof (noted_same s pm) as Hn.
  destruct (synthetic_pair s) as [synthetic|].
  2:{ intro H. injection H as _ <- _. exact Hn. }
  destruct (Qltb (Qabs (position_adjust_usd s)) threshold && negb (is_flipping s)).
  { intro H. injection H as _ <- _. exact Hn. }
  destruct (Qltb (normalised_weight s) epsilon).
  - destruct (current_position s pm) as [pos|].
    + rewrite call_run. intro H. injection H as _ <- _. exact Hn.
    + intro H. injection H as _ <- _. exact Hn.
  - intro H. destruct (rebalance_position_signal _ _ _ _ _ _ _ _ H) as [->|[i ->]];
      exact Hn.
Qed.

(** X13. Whatever its outcome, the trade generation adds no signal to
    [signals] and removes none, leaves the equity, the epsilon and the
    timestamp as they were, and on every signal of [signals] changes
    nothing of what the strategy, the weighting and the target
    computation have set: only the profit record,
    [position_adjust_ignored] and [position_id] can differ. *)
Theorem generate_frame (threshold : Q) (use_spot_for_long : bool)
    (m : AlphaModel) (pm : pm_state) :
  let m' :=
    fst (snd (generate_rebalance_trades_and_triggers threshold
                use_spot_for_long (m, pm))) in
  investable_equity m' = investable_equity m
  /\ close_position_weight_epsilon m' = close_position_weight_epsilon m
  /\ timestamp m' = timestamp m
  /\ dict_keys (signals m') = dict_keys (signals m)
  /\ entrywise (fun s s' => same_inputs s s' /\ same_targets s s')
       (signals m) (signals m').
Proof.
  assert (Hrefl : forall d : signal_dict,
             entrywise (fun s s' => same_inputs s s' /\ same_targets s s') d d).
  { induction d as [|kv d IH]; constructor;
      [split; [reflexivity|split; [apply same_inputs_refl|apply same_targets_refl]]
      |exact IH]. }
  unfold generate_rebalance_trades_and_triggers.
  destruct use_spot_for_long; unfold assert_, bind, raise, ret; simpl.
  2:{ repeat (split; [reflexivity|]). apply Hrefl. }
  unfold rebalance_signals, for_each_signal. run_py.
  pose proof (for_each_value_keys
                (rebalance_signal threshold (close_position_weight_epsilon m))
                (signals m) pm) as Hkeys.
  pose proof (for_each_value_entrywise
                (rebalance_signal threshold (close_position_weight_epsilon m))
                (fun s s' => same_inputs s s' /\ same_targets s s')
                (fun s => conj (same_inputs_refl s) (same_targets_refl s))
                (fun v p o v' p' Hb => rebalance_signal_frame _ _ _ _ _ _ _ Hb)
                (signals m) pm) as Hentry.
  destruct (for_each_value _ (signals m) pm) as [[r|e] [d' p']]; simpl in *;
    auto 10.
Qed.

End GenerateFrames.

(* ===================================================================== *)
(** ** The order of the generated trades *)
(* ===================================================================== *)

Section SortByFacts.
Context {A : Type} (key : A -> Z).

Lemma insert_asc_perm (x : A) (l : list A) :
  Permutation (insert_asc key x l) (x :: l).
Proof.
  induction l as [|y ys IH]; simpl; [reflexivity|].
  destruct (key y <? key x)%Z; [|reflexivity].
  rewrite IH. apply perm_swap.
Qed.

Lemma sort_by_perm (l : list A) : Permutation (sort_by key l) l.
Proof.
  induction l as [|x l IH]; simpl; [reflexivity|].
  rewrite insert_asc_perm. now constructor.
Qed.

Lemma insert_asc_sorted (x : A) (l : list A) :
  StronglySorted (fun a b => (key a <= key b)%Z) l ->
  StronglySorted (fun a b => (key a <= key b)%Z) (insert_asc key x l).
Proof.
  induction 1 as [|y ys Hs IH Hy]; simpl.
  - constructor; constructor.
  - destruct (key y <? key x)%Z eqn:E.
    + apply Z.ltb_lt in E. constructor; [exact IH|].
      apply Forall_forall. intros z Hz.
      apply (Permutation_in _ (insert_asc_perm x ys)) in Hz.
      destruct Hz as [<-|Hz]; [lia|].
      rewrite Forall_forall in Hy. now apply Hy.
    + apply Z.ltb_ge in E. constructor; [now constructor|].
      constructor; [exact E|].
      apply Forall_forall. intros z Hz. rewrite Forall_forall in Hy.
      specialize (Hy z Hz). simpl in Hy. lia.
Qed.

Lemma sort_by_sorted (l : list A) :
  StronglySorted (fun a b => (key a <= key b)%Z) (sort_by key l).
Proof.
  induction l as [|x l IH]; simpl; [constructor|].
  now apply insert_asc_sorted.
Qed.

(** The sort is stable: the entries of one key keep their order. *)
Lemma insert_asc_stable (c : Z) (x : A) (l : list A) :
  filter (fun a => (key a =? c)%Z) (insert_asc key x l)
  = filter (fun a => (key a =? c)%Z) (x :: l).
Proof.
  induction l as [|y ys IH]; simpl; [reflexivity|].
  destruct (key y <? key x)%Z eqn:E; [|reflexivity].
  apply Z.ltb_lt in E. simpl. rewrite IH. simpl.
  destruct (key y =? c)%Z eqn:Ey, (key x =? c)%Z eqn:Ex; try reflexivity.
  apply Z.eqb_eq in Ey, Ex. lia.
Qed.

Lemma sort_by_stable (c : Z) (l : list A) :
  filter (fun a => (key a =? c)%Z) (sort_by key l)
  = filter (fun a => (key a =? c)%Z) l.
Proof.
  induction l as [|x l IH]; simpl; [reflexivity|].
  rewrite insert_asc_stable. simpl. now rewrite IH.
Qed.

End SortByFacts.

Section GenerateOrder.
Context {PK : PairKinds} {R : Rendering} {PM : PositionManager}.

(** X14. The trades that the generation returns are the trades of all
    signals, none lost and none added, in ascending order of their
    execution sort position; trades of the same sort position stay in
    the order in which the loop produced them. *)
Theorem generate_trades_sorted (threshold : Q) (use_spot_for_long : bool)
    (m m' : AlphaModel) (pm pm' : pm_state) (trades : list TradeExecution) :
  generate_rebalance_trades_and_triggers threshold use_spot_for_long (m, pm)
  = (Ok trades, (m', pm')) ->
  exists per_signal,
    rebalance_signals threshold (m, pm) = (Ok per_signal, (m', pm'))
    /\ Permutation trades (List.concat (map snd per_signal))
    /\ StronglySorted
         (fun a b =>
            (get_execution_sort_position a <= get_execution_sort_position b)%Z)
         trades
    /\ forall c,
         filter (fun t => (get_execution_sort_position t =? c)%Z) trades
         = filter (fun t => (get_execution_sort_position t =? c)%Z)
             (List.concat (map snd per_signal)).
Proof.
  intro Hgen.
  destruct (generate_ok _ _ _ _ _ _ _ Hgen) as [_ [per_signal [Hloop [-> _]]]].
  exists per_signal. split; [exact Hloop|]. split; [apply sort_by_perm|].
  split; [apply sort_by_sorted|]. intro c. apply sort_by_stable.
Qed.

End GenerateOrder.

(* ===================================================================== *)
(** ** More branches of the trade generation *)
(* ===================================================================== *)

Section LoopMap.
Context {K V P A : Type} (body : M (V * P) A).

(** A loop whose body, on every value of the dictionary, returns
    [g v], leaves [f v] and keeps the shared state. *)
Lemma for_each_value_map (f : V -> V) (g : V -> A) (d : dict K V) (p : P) :
  (forall k v, In (k, v) d -> body (v, p) = (Ok (g v), (f v, p))) ->
  for_each_value body d p
  = (Ok (map (fun kv => (fst kv, g (snd kv))) d),
     (map (fun kv => (fst kv, f (snd kv))) d, p)).
Proof.
  induction d as [|[k v] d IH]; intro Hall; simpl; [reflexivity|].
  rewrite (Hall k v (or_introl eq_refl)), IH; [reflexivity|].
  intros k1 v1 Hin. apply (Hall k1 v1). now right.
Qed.

End LoopMap.

Section MoreBranches.
Context {PK : PairKinds} {R : Rendering} {PM : PositionManager}.

(** X15. When every signal has its synthetic pair, an adjustment below
    the trade threshold and no flip, the generation returns no trade,
    leaves the position manager as it was, and flags every signal as
    ignored. *)
Theorem nothing_to_rebalance (threshold : Q) (m : AlphaModel) (pm : pm_state) :
  (forall k s, In (k, s) (signals m) ->
     synthetic_pair s <> None
     /\ Qabs (position_adjust_usd s) < threshold
     /\ is_flipping s = false) ->
  generate_rebalance_trades_and_triggers threshold true (m, pm)
  = (Ok [],
     (set_signals
        (map (fun ks =>
                (fst ks, set_position_adjust_ignored true (noted (snd ks) pm)))
             (signals m)) m,
      pm)).
Proof.
  intro Hall. unfold generate_rebalance_trades_and_triggers, rebalance_signals,
    for_each_signal. run_py.
  rewrite (for_each_value_map
             (rebalance_signal threshold (close_position_weight_epsilon m))
             (fun s => set_position_adjust_ignored true (noted s pm))
             (fun _ => [])).
  - simpl. replace (List.concat _) with (@nil TradeExecution); [reflexivity|].
    clear Hall. induction (signals m) as [|ks d IH]; simpl; [reflexivity|exact IH].
  - intros k s Hin. destruct (Hall k s Hin) as [Hsyn [Hsmall Hflip]].
    rewrite rebalance_signal_run.
    destruct (synthetic_pair s); [|contradiction].
    now rewrite (proj2 (below_threshold_iff threshold s) (conj Hsmall Hflip)).
Qed.

(** A signal that is not short and carries no leverage goes to
    [adjust_position]. *)
Lemma open_or_adjust_spot (s s0 : TradingPairSignal)
    (synthetic : TradingPairIdentifier) (cur : option TradingPosition)
    (pm : pm_state) :
  0 <= signal s -> leverage s = None ->
  open_or_adjust s synthetic cur (s0, pm)
  = call (adjust_position synthetic (position_adjust_usd s)
            (position_adjust_quantity s) (normalised_weight s) (stop_loss s)
            (take_profit s) (trailing_stop_loss s) override_stop_loss
            adjust_position_notes) (s0, pm).
Proof.
  intros Hpos Hlev. unfold open_or_adjust.
  rewrite (proj2 (Qltb_ge _ _) Hpos), Hlev. reflexivity.
Qed.

(** X16. A signal that is not short ([signal >= 0]) and has no leverage,
    neither ignored nor dust.  When the generation returns, the trades
    of the signal are the closes followed by the trades of
    [adjust_position], called on the synthetic pair with the adjustment
    in dollars, its quantity, the normalised weight and the three risk
    parameters of the signal, and without overriding the stop loss; the
    closes are those of closing the open position of the old pair when
    the signal is flipping and none otherwise. *)
Theorem spot_signal_trades (threshold : Q) (use_spot_for_long : bool)
    (m m' : AlphaModel) (pm pm' : pm_state) (trades : list TradeExecution)
    (k : PairInternalId) (s : TradingPairSignal) :
  generate_rebalance_trades_and_triggers threshold use_spot_for_long (m, pm)
  = (Ok trades, (m', pm')) ->
  dict_get id_eqb k (signals m) = Some s ->
  threshold <= Qabs (position_adjust_usd s) \/ is_flipping s = true ->
  close_position_weight_epsilon m <= normalised_weight s ->
  0 <= signal s ->
  leverage s = None ->
  exists per_signal ts synthetic closes spots pm1 pm2 pm3,
    rebalance_signals threshold (m, pm) = (Ok per_signal, (m', pm'))
    /\ dict_get id_eqb k per_signal = Some ts
    /\ reached threshold m pm k pm1
    /\ synthetic_pair s = Some synthetic
    /\ ts = closes ++ spots
    /\ (is_flipping s = false -> closes = [] /\ pm2 = pm1)
    /\ (is_flipping s = true ->
        match current_position s pm1 with
        | Some pos =>
            close_position pos rebalance (flip_close_notes (noted s pm1)) pm1
            = (Ok closes, pm2)
        | None => closes = [] /\ pm2 = pm1
        end)
    /\ adjust_position synthetic (position_adjust_usd s)
         (position_adjust_quantity s) (normalised_weight s) (stop_loss s)
         (take_profit s) (trailing_stop_loss s) false adjust_position_notes pm2
       = (Ok spots, pm3).
Proof.
  intros Hgen Hk Hpast Hweight Hpos Hlev.
  destruct (generate_ok _ _ _ _ _ _ _ Hgen) as [_ [per_signal [Hloop [_ Hget]]]].
  destruct (Hget k s Hk) as [pm1 [ts [s' [pm3 [Hreach [Hbody [Hd Hr]]]]]]].
  destruct (rebalance_signal_ok _ _ _ _ _ _ _ Hbody)
    as [synthetic [Hsyn [[Hlt [Hnf _]]|[[_ [Hdust _]]|[_ [_ Hbranch]]]]]].
  - exfalso. destruct Hpast as [Hge|Hf]; [|congruence].
    exact (Qlt_not_le _ _ Hlt Hge).
  - exfalso. exact (Qlt_not_le _ _ Hdust Hweight).
  - destruct (rebalance_position_ok _ _ _ _ _ _ _ _ Hbranch)
      as [closes [opens [pm2 [first [others [Hc [Ho [Hts _]]]]]]]].
    destruct (close_flipped_ok _ _ _ _ _ Hc) as [Hc1 Hc2].
    rewrite noted_is_flipping in Hc1, Hc2.
    rewrite noted_current_position in Hc2.
    rewrite open_or_adjust_spot, call_run in Ho;
      [|now rewrite noted_signal|now rewrite noted_leverage].
    rewrite noted_position_adjust_usd, noted_position_adjust_quantity,
      noted_normalised_weight, noted_stop_loss, noted_take_profit,
      noted_trailing_stop_loss in Ho.
    exists per_signal, ts, synthetic, closes, opens, pm1, pm2, pm3.
    repeat (split; [assumption|]).
    injection Ho as H1 H2. unfold override_stop_loss in *.
    destruct (adjust_position _ _ _ _ _ _ _ _ _ pm2). simpl in *. now subst.
Qed.

(** X17. The same kind of signal when it is not flipping, in the loop
    body: when [adjust_position] returns no trade the body raises, and
    so it does when the first trade has no position id or the position
    id 0; the position manager keeps what [adjust_position] did.
    Otherwise the body returns these trades and connects the signal to
    the position of the first one. *)
Theorem spot_branch_needs_a_trade (threshold epsilon : Q) (s : TradingPairSignal)
    (synthetic : TradingPairIdentifier) (pm pm' : pm_state)
    (ts : list TradeExecution) :
  synthetic_pair s = Some synthetic ->
  threshold <= Qabs (position_adjust_usd s) ->
  epsilon <= normalised_weight s ->
  is_flipping s = false ->
  0 <= signal s ->
  leverage s = None ->
  adjust_position synthetic (position_adjust_usd s) (position_adjust_quantity s)
    (normalised_weight s) (stop_loss s) (take_profit s) (trailing_stop_loss s)
    false adjust_position_notes pm
  = (Ok ts, pm') ->
  rebalance_signal threshold epsilon (s, pm)
  = match ts with
    | [] =>
        (Raise (AssertionError "Assuming always on trade for rebalance"),
         (noted s pm, pm'))
    | first :: _ =>
        if truthy_id (trade_position_id first)
        then (Ok ts, (set_position_id (trade_position_id first) (noted s pm), pm'))
        else (Raise (AssertionError "last_trade.position_id"), (noted s pm, pm'))
    end.
Proof.
  intros Hsyn Hpast Hweight Hflip Hpos Hlev Hadjust.
  rewrite rebalance_signal_run, Hsyn.
  rewrite (proj2 (not_below_threshold_iff threshold s) (or_introl Hpast)).
  rewrite (proj2 (Qltb_ge _ _) Hweight).
  unfold rebalance_position. unfold bind at 1.
  rewrite close_flipped_run, noted_is_flipping, Hflip.
  unfold bind at 1.
  rewrite open_or_adjust_spot, call_run;
    [|now rewrite noted_signal|now rewrite noted_leverage].
  rewrite noted_position_adjust_usd, noted_position_adjust_quantity,
    noted_normalised_weight, noted_stop_loss, noted_take_profit,
    noted_trailing_stop_loss.
  unfold override_stop_loss. rewrite Hadjust. simpl.
  destruct ts as [|first others]; [reflexivity|].
  run_py. now destruct (truthy_id (trade_position_id first)).
Qed.

(** X18. A flipping signal whose normalised weight is not below the
    close epsilon and whose old pair is neither spot nor short (a
    leveraged long) cannot be generated: the generation raises, and in
    the loop body, for a signal with its synthetic pair and a pricing
    pair, it is [get_flip_label], called for the log line, that raises,
    before any position is closed.  (Below the epsilon the flip branch
    is not reached.) *)
Theorem flip_from_long_is_unsupported (threshold : Q) (use_spot_for_long : bool)
    (m : AlphaModel) (pm : pm_state) (k : PairInternalId)
    (s : TradingPairSignal) (op : TradingPairIdentifier) :
  dict_get id_eqb k (signals m) = Some s ->
  is_flipping s = true ->
  old_pair s = Some op ->
  is_spot op = false ->
  is_short op = false ->
  close_position_weight_epsilon m <= normalised_weight s ->
  (exists e st,
     generate_rebalance_trades_and_triggers threshold use_spot_for_long (m, pm)
     = (Raise e, st))
  /\
  (forall pm1 synthetic pricing,
     synthetic_pair s = Some synthetic ->
     get_pricing_pair (pair s) = Ok pricing ->
     rebalance_signal threshold (close_position_weight_epsilon m) (s, pm1)
     = (Raise (AssertionError "Unsupported"), (noted s pm1, pm1))).
Proof.
  intros Hk Hflip Hop Hspot Hshort Hweight.
  assert (Hlabel : get_flip_label s = Raise (AssertionError "Unsupported")).
  { unfold get_flip_label. now rewrite Hop, Hspot, Hshort. }
  assert (Hbody : forall pm1 synthetic,
             synthetic_pair s = Some synthetic ->
             rebalance_signal threshold (close_position_weight_epsilon m) (s, pm1)
             = (match get_pricing_pair (pair s) with
                | Ok _ => Raise (AssertionError "Unsupported")
                | Raise e => Raise e
                end, (noted s pm1, pm1))).
  { intros pm1 synthetic Hsyn. rewrite rebalance_signal_run, Hsyn.
    rewrite (proj2 (not_below_threshold_iff threshold s) (or_intror Hflip)).
    rewrite (proj2 (Qltb_ge _ _) Hweight).
    unfold rebalance_position. unfold bind at 1.
    rewrite close_flipped_run, noted_is_flipping, Hflip, noted_pair,
      noted_get_flip_label, Hlabel.
    now destruct (get_pricing_pair (pair s)). }
  split.
  - apply (generate_raise _ _ _ _ k s Hk). intro pm1.
    destruct (synthetic_pair s) as [synthetic|] eqn:Hsyn.
    + rewrite (Hbody pm1 synthetic eq_refl).
      destruct (get_pricing_pair (pair s)); eauto.
    + rewrite rebalance_signal_run, Hsyn. eauto.
  - intros pm1 synthetic pricing Hsyn Hpricing.
    now rewrite (Hbody pm1 synthetic Hsyn), Hpricing.
Qed.

End MoreBranches.

(* ===================================================================== *)
(** ** Labels, synthetic pairs and [has_trades] *)
(* ===================================================================== *)

Section Labels.
Context {PK : PairKinds}.

(** X19. When the old pair is of one kind only (not short if it is spot
    or long), a flipping signal is labelled [spot -> short] for a spot
    old pair and [short -> spot] for a short one, and [get_flip_label]
    raises for any other old pair. *)
Theorem flip_label_of_flipping (s : TradingPairSignal) (op : TradingPairIdentifier) :
  is_flipping s = true ->
  old_pair s = Some op ->
  (is_spot op = true -> is_short op = false) ->
  (is_long op = true -> is_short op = false) ->
  get_flip_label s
  = if is_spot op then Ok "spot -> short"%string
    else if is_short op then Ok "short -> spot"%string
    else Raise (AssertionError "Unsupported").
Proof.
  intros Hflip Hop Hspot Hlong. unfold is_flipping in Hflip.
  unfold get_flip_label. rewrite Hop in *.
  destruct (Qeq_bool (normalised_weight s) 0); [discriminate|].
  destruct (Qltb (signal s) 0) eqn:Hneg.
  - destruct (is_spot op) eqn:Es; [reflexivity|].
    rewrite orb_false_r in Hflip. now rewrite (Hlong Hflip).
  - destruct (Qltb 0 (signal s)) eqn:Hpos; [|discriminate].
    destruct (is_spot op) eqn:Es.
    + rewrite (Hspot eq_refl) in Hflip. discriminate.
    + now rewrite Hflip.
Qed.

End Labels.

Section SyntheticPairs.
Context {PK : PairKinds} {PM : PositionManager}.

Lemma target_position_synthetic (equity : Q) (s s' : TradingPairSignal)
    (pm pm' : pm_state) :
  target_position equity (s, pm) = (Ok tt, (s', pm')) ->
  exists synthetic,
    map_pair_for_signal s pm = Ok synthetic
    /\ synthetic_pair s' = Some synthetic.
Proof.
  rewrite target_position_run. cbv zeta.
  destruct (map_pair_for_signal s pm) as [synthetic|e]; [|discriminate].
  intro H. exists synthetic. split; [reflexivity|]. revert H.
  destruct (is_flipping s); [intro H; now injection H as <- _|].
  destruct (Qltb _ 0); [|intro H; now injection H as <- _].
  destruct (estimate_asset_quantity _ _ pm); [|discriminate].
  intro H. now injection H as _ <- _.
Qed.

(** X20. When [calculate_target_positions] has returned, every signal
    has a synthetic pair, so that its [is_spot] and [is_short] return: a
    signal that is not short trades as its own pair, a short signal as
    the shorting pair that the trading universe gave for it. *)
Theorem synthetic_pairs_after_targets (equity : Q) (m m' : AlphaModel)
    (pm pm' : pm_state) (k : PairInternalId) (s : TradingPairSignal) :
  calculate_target_positions equity (m, pm) = (Ok tt, (m', pm')) ->
  dict_get id_eqb k (signals m) = Some s ->
  exists s',
    get_signal_by_pair_id m' k = Some s'
    /\ (0 <= signal s ->
        synthetic_pair s' = Some (pair s)
        /\ signal_is_spot s' = Ok (is_spot (pair s))
        /\ signal_is_short s' = Ok (is_short (pair s)))
    /\ (signal s < 0 ->
        exists shorting,
          get_shorting_pair (pair s) pm = Ok shorting
          /\ synthetic_pair s' = Some shorting
          /\ signal_is_spot s' = Ok (is_spot shorting)
          /\ signal_is_short s' = Ok (is_short shorting)).
Proof.
  unfold calculate_target_positions, for_each_signal, get_signal_by_pair_id.
  run_py.
  destruct (for_each_value (target_position equity) (signals m) pm)
    as [[r|e] [d' p']] eqn:Hrun; [|discriminate].
  intros H Hk. injection H as <- <-.
  destruct (for_each_value_get id_eqb (target_position equity)
              (fun p => p = pm)) with (1 := fun v p o v' p' (Hp : p = pm)
                 (Hb : target_position equity (v, p) = (o, (v', p'))) =>
                 eq_trans (target_position_keeps_manager _ _ _ _ _ _ Hb) Hp)
              (3 := Hrun) as [_ Hget]; [reflexivity|].
  destruct (Hget k s Hk) as [p1 [a [s' [p2 [-> [_ [Hb [Hd _]]]]]]]].
  destruct a. exists s'. simpl. split; [exact Hd|].
  destruct (target_position_synthetic _ _ _ _ _ Hb) as [synthetic [Hmap Hsyn]].
  unfold map_pair_for_signal in Hmap. unfold signal_is_spot, signal_is_short.
  rewrite Hsyn. split.
  - intro Hpos. rewrite (proj2 (Qltb_ge _ _) Hpos) in Hmap.
    destruct (Qltb 0 (signal s)); injection Hmap as <-; auto.
  - intro Hneg.
    assert (Hn : Qltb 0 (signal s) = false).
    { apply Qltb_ge. now apply Qlt_le_weak. }
    rewrite Hn, (proj2 (Qltb_lt _ _) Hneg) in Hmap.
    exists synthetic. auto.
Qed.

End SyntheticPairs.

Section HasTrades.
Context {PK : PairKinds} {R : Rendering} {PM : PositionManager}.

Lemma truth_has_trades (s : TradingPairSignal) :
  truth (has_trades s)
  = (negb (Qeq_bool (normalised_weight s) 0) || negb (Qeq_bool (old_weight s) 0))
    && negb (position_adjust_ignored s).
Proof.
  unfold has_trades.
  destruct (Qeq_bool (normalised_weight s) 0) eqn:En; simpl.
  - destruct (Qeq_bool (old_weight s) 0) eqn:Eo; simpl; [|reflexivity].
    now rewrite Eo.
  - now rewrite En.
Qed.

(** X21. After a returning generation, [has_trades] of a signal that
    was not flagged before is true exactly when one of its two weights
    is non-zero and the signal passed the trade threshold test (its
    adjustment is not below the threshold, or it is flipping). *)
Theorem has_trades_after_generation (threshold : Q) (use_spot_for_long : bool)
    (m m' : AlphaModel) (pm pm' : pm_state) (trades : list TradeExecution)
    (k : PairInternalId) (s : TradingPairSignal) :
  generate_rebalance_trades_and_triggers threshold use_spot_for_long (m, pm)
  = (Ok trades, (m', pm')) ->
  dict_get id_eqb k (signals m) = Some s ->
  position_adjust_ignored s = false ->
  exists s',
    get_signal_by_pair_id m' k = Some s'
    /\ (truth (has_trades s') = true
        <-> (~ normalised_weight s == 0 \/ ~ old_weight s == 0)
            /\ (threshold <= Qabs (position_adjust_usd s)
                \/ is_flipping s = true)).
Proof.
  intros Hgen Hk Hfresh.
  destruct (generate_ok _ _ _ _ _ _ _ Hgen) as [_ [per_signal [_ [_ Hget]]]].
  destruct (Hget k s Hk) as [pm1 [ts [s' [pm3 [_ [Hbody [Hd _]]]]]]].
  exists s'. split; [exact Hd|]. rewrite truth_has_trades.
  assert (Hweights : negb (Qeq_bool (normalised_weight s) 0)
                     || negb (Qeq_bool (old_weight s) 0) = true
                     <-> ~ normalised_weight s == 0 \/ ~ old_weight s == 0).
  { now rewrite orb_true_iff, !negb_true_iff, !Qeq_bool_false. }
  destruct (rebalance_signal_frame _ _ _ _ _ _ _ Hbody)
    as [[_ [_ [_ [_ [_ [_ [Hnw [How _]]]]]]]] _].
  rewrite Hnw, How.
  destruct (rebalance_signal_ok _ _ _ _ _ _ _ Hbody)
    as [synthetic [_ [[Hlt [Hnf [_ [-> _]]]]|[[Hpast [_ [-> _]]]|[Hpast [_ Hbranch]]]]]].
  - simpl. rewrite andb_false_r. split; [discriminate|].
    intros [_ [Hge|Hf]]; [|congruence].
    exfalso. exact (Qlt_not_le _ _ Hlt Hge).
  - rewrite noted_position_adjust_ignored, Hfresh, andb_true_r, Hweights. tauto.
  - destruct (rebalance_position_ok _ _ _ _ _ _ _ _ Hbranch)
      as [closes [opens [pm2 [first [others [_ [_ [_ [_ [_ ->]]]]]]]]]].
    simpl. rewrite noted_position_adjust_ignored, Hfresh, andb_true_r, Hweights.
    tauto.
Qed.

End HasTrades.

(* ===================================================================== *)
(** ** A holding without a new signal *)
(* ===================================================================== *)

Section Holdings.
Context {PK : PairKinds} {R : Rendering} {PM : PositionManager}.

Lemma Qabs_zero_target (equity v : Q) : Qabs (0 * equity - v) == Qabs v.
Proof.
  assert (H : 0 * equity - v == - v) by ring.
  rewrite H. apply Qabs_opp.
Qed.

(** X22. An open position whose spot pair has no signal in the model,
    with a close epsilon above zero and a quantity estimator that
    answers with a float: [set_old_weight] creates a signal of strength
    zero for it, the target computation gives that signal a target of
    zero and an adjustment of minus the old value, and the loop body of
    the generation then closes the open position of the old pair when
    the old value reaches the trade threshold, and ignores the signal,
    keeping the position, when it does not.  (With an epsilon of zero
    the weight of zero is not below it and the close branch is not
    taken.) *)
Theorem holding_without_signal (p op : TradingPairIdentifier)
    (w v equity threshold epsilon : Q) (m : AlphaModel) (pm : pm_state) :
  is_spot p = true ->
  get_signal_by_pair m p = None ->
  0 < epsilon ->
  (forall usd, exists x, estimate_asset_quantity p usd pm = Ok (PyFloat x)) ->
  exists m1 s1 s2,
    set_old_weight p w v op m = (Ok tt, m1)
    /\ get_signal_by_pair m1 p = Some s1
    /\ target_position equity (s1, pm) = (Ok tt, (s2, pm))
    /\ position_target s2 == 0
    /\ position_adjust_usd s2 == - v
    /\ synthetic_pair s2 = Some p
    /\ (threshold <= Qabs v ->
        rebalance_signal threshold epsilon (s2, pm)
        = match get_current_position_for_pair op pm with
          | Some pos =>
              (fst (close_position pos rebalance
                      (dust_close_notes (noted s2 pm)) pm),
               (noted s2 pm,
                snd (close_position pos rebalance
                       (dust_close_notes (noted s2 pm)) pm)))
          | None => (Ok [], (noted s2 pm, pm))
          end)
    /\ (Qabs v < threshold ->
        rebalance_signal threshold epsilon (s2, pm)
        = (Ok [], (set_position_adjust_ignored true (noted s2 pm), pm))).
Proof.
  intros Hspot Hnone Heps Hest.
  destruct (proj2 (old_weight_stored p op w v m) Hspot)
    as [m1 [s1 [Hset [Hget [_ [Hov [Hop [Hnew _]]]]]]]].
  rewrite Hnone in Hnew.
  destruct Hnew as [Hpair [Hsig [Hnw [_ [_ _]]]]].
  assert (Hmap : map_pair_for_signal s1 pm = Ok p).
  { unfold map_pair_for_signal. now rewrite Hsig, Hpair. }
  destruct (target_position_total equity s1 pm) as [s2 Hrun].
  { exists p. exact Hmap. }
  { now rewrite Hpair. }
  assert (Hflip1 : is_flipping s1 = false).
  { unfold is_flipping. now rewrite Hnw. }
  destruct (target_position_ok _ _ _ _ _ Hrun) as [Htarget [_ Hadjust]].
  destruct (Hadjust Hflip1) as [Hadj _].
  destruct (target_position_synthetic _ _ _ _ _ Hrun) as [synthetic [Hm Hsyn]].
  rewrite Hmap in Hm. injection Hm as <-.
  destruct (target_position_inputs _ _ _ _ _ _ Hrun)
    as [[_ [_ [_ [_ [_ [_ [Hnw2 [_ [_ [Hop2 _]]]]]]]]]] _].
  pose proof (same_inputs_is_flipping _ _
                (proj1 (target_position_inputs _ _ _ _ _ _ Hrun))) as Hflip2.
  rewrite Hflip1 in Hflip2.
  assert (Habs : Qabs (position_adjust_usd s2) == Qabs v).
  { rewrite Hadj, Htarget, Hnw, Hov. apply Qabs_zero_target. }
  exists m1, s1, s2.
  split; [exact Hset|]. split; [exact Hget|]. split; [exact Hrun|].
  split; [rewrite Htarget, Hnw; ring|].
  split; [rewrite Hadj, Htarget, Hnw, Hov; ring|].
  split; [exact Hsyn|]. split.
  - intro Hge. rewrite rebalance_signal_run, Hsyn.
    assert (Hpast : threshold <= Qabs (position_adjust_usd s2))
      by now rewrite Habs.
    rewrite (proj2 (not_below_threshold_iff threshold s2) (or_introl Hpast)).
    assert (Hdust : normalised_weight s2 < epsilon) by now rewrite Hnw2, Hnw.
    rewrite (proj2 (Qltb_lt _ _) Hdust).
    unfold current_position. rewrite Hop2, Hop.
    destruct (get_current_position_for_pair op pm); [apply call_run|reflexivity].
  - intro Hlt. rewrite rebalance_signal_run, Hsyn.
    assert (Hsmall : Qabs (position_adjust_usd s2) < threshold)
      by now rewrite Habs.
    now rewrite (proj2 (below_threshold_iff threshold s2) (conj Hsmall Hflip2)).
Qed.

End Holdings.

(* ===================================================================== *)
(** ** Weight differences of a keyed model *)
(* ===================================================================== *)

Section KeyedDiffs.
Context {W : Weighting}.

Lemma keyed_comprehension {B : Type} (f : TradingPairSignal -> B) (d : signal_dict) :
  keyed_by_pair d ->
  dict_of_list id_eqb
    (map (fun s => (internal_id (pair s), f s)) (dict_values d))
  = map (fun ks => (fst ks, f (snd ks))) d.
Proof.
  intros [Hnd Hkey].
  assert (Heq : map (fun s => (internal_id (pair s), f s)) (dict_values d)
                = map (fun ks => (fst ks, f (snd ks))) d).
  { unfold dict_values. rewrite map_map.
    induction Hkey as [|[k s] d Hk _ IH]; simpl; [reflexivity|].
    simpl in Hk. rewrite Hk. f_equal. apply IH. now inversion Hnd. }
  rewrite Heq. apply dict_of_list_distinct. now rewrite map_map.
Qed.

Lemma filter_none {B : Type} (f : B -> bool) (l : list B) :
  (forall x, In x l -> f x = false) -> filter f l = [].
Proof.
  induction l as [|x l IH]; intro Hall; simpl; [reflexivity|].
  rewrite (Hall x (or_introl eq_refl)). apply IH.
  intros y Hy. apply Hall. now right.
Qed.

Lemma dict_get_of_entry {V : Type} (k : PairInternalId) (v : V)
    (d : dict PairInternalId V) :
  NoDup (dict_keys d) -> In (k, v) d -> dict_get id_eqb k d = Some v.
Proof.
  induction d as [|[k' v'] d IH]; simpl; intros Hnd Hin; [contradiction|].
  inversion Hnd as [|? ? Hk' Hd]; subst.
  destruct Hin as [Heq|Hin].
  - injection Heq as -> ->. now rewrite id_eqb_refl.
  - destruct (id_eqb k k') eqn:E; [|now apply IH].
    apply id_eqb_eq in E. subst k'. exfalso. apply Hk'.
    unfold dict_keys. apply in_map_iff. now exists (k, v).
Qed.

(** X23. On a model whose signals sit under the ids of their pairs, a
    returning [calculate_weight_diffs] gives one difference per signal,
    in the order of the signals: its normalised weight minus its old
    weight. *)
Theorem calculate_weight_diffs_per_signal (m m' : AlphaModel) (diffs : weight_dict) :
  keyed_by_pair (signals m) ->
  calculate_weight_diffs m = (Ok diffs, m') ->
  diffs
  = map (fun ks => (fst ks, normalised_weight (snd ks) - old_weight (snd ks)))
        (signals m).
Proof.
  intros Hkey. unfold calculate_weight_diffs. run_py.
  destruct (check_normalised_weights (new_weights m)); [|discriminate].
  destruct (check_normalised_weights (existing_weights m)); [|discriminate].
  intro H. injection H as <- _.
  unfold new_weights, existing_weights.
  rewrite (keyed_comprehension normalised_weight _ Hkey),
    (keyed_comprehension old_weight _ Hkey).
  destruct Hkey as [Hnd _].
  assert (Hk : forall (f : TradingPairSignal -> Q),
             dict_keys (map (fun ks : PairInternalId * TradingPairSignal =>
                               (fst ks, f (snd ks))) (signals m))
             = dict_keys (signals m)).
  { intro f. unfold dict_keys. rewrite map_map. reflexivity. }
  rewrite weight_diffs_unfold by (rewrite Hk; exact Hnd).
  replace (filter _ _) with (@nil (PairInternalId * Q)).
  - simpl. rewrite app_nil_r, map_map. simpl.
    apply map_ext_in. intros [k s] Hin. simpl. f_equal. f_equal.
    unfold get_or_zero.
    rewrite (dict_get_map (fun _ s => old_weight s) k (signals m)).
    now rewrite (dict_get_of_entry k s (signals m) Hnd Hin).
  - symmetry. apply filter_none. intros [k w] Hin. simpl.
    apply negb_false_iff. apply dict_mem_in_keys.
    rewrite Hk, <- (Hk old_weight). unfold dict_keys.
    apply in_map_iff. now exists (k, w).
Qed.

End KeyedDiffs.

(* ===================================================================== *)
(** ** The further properties on concrete models *)
(* ===================================================================== *)

Section FurtherExamples.
Import Demo.

Lemma empty_registered_well : registered_well [].
Proof. repeat constructor. Qed.

Lemma registered_model_well : registered_well (raw_signals registered_model).
Proof.
  unfold registered_model. apply registered_after_set_signal.
  apply registered_after_set_signal. apply empty_registered_well.
Qed.

Lemma set_signal_zero_removes_witness :
  exists m',
    set_signal eth_usdc 0 None None None None registered_model = (Ok tt, m')
    /\ dict_get id_eqb (Some 1%Z) (raw_signals m') = None.
Proof.
  destruct (@set_signal_zero_removes kinds eth_usdc 0 None None None None
              registered_model) as [m' [Hrun [Hgone _]]].
  - reflexivity.
  - reflexivity.
  - apply registered_model_well.
  - exists m'. auto.
Defined.

Lemma set_signal_last_write_wins_witness :
  exists m',
    set_signal btc_usdc (- (1)) None None None (Some (PyFloat 2)) registered_model
    = (Ok tt, m')
    /\ dict_get id_eqb (Some 2%Z) (raw_signals m')
       = Some (registered btc_usdc (- (1)) None None None (Some (PyFloat 2)))
    /\ dict_keys (raw_signals m') = [Some 1%Z; Some 2%Z].
Proof.
  destruct (@set_signal_last_write_wins kinds btc_usdc (- (1)) None None None
              (Some (PyFloat 2)) registered_model)
    as [m' [Hrun [Hget [_ [Hkeys _]]]]].
  - reflexivity.
  - discriminate.
  - discriminate.
  - reflexivity.
  - exists m'. auto.
Defined.

Lemma set_signal_keeps_registered_witness :
  registered_well
    (raw_signals (snd (set_signal eth_usdc 2 None None None None (new_model None)))).
Proof.
  apply (@set_signal_keeps_registered kinds). apply empty_registered_well.
Defined.

Lemma select_top_signals_order_witness :
  iterate_signals (snd (select_top_signals 1 0 registered_model))
  = top_signals 1 0 registered_model.
Proof.
  exact (proj1 (@select_top_signals_order kinds 1 0 registered_model
                  registered_model_well)).
Defined.

Lemma zero_signal_is_not_selected_witness :
  get_signal_by_pair
    (snd (select_top_signals 5 0
            (snd (set_signal eth_usdc 0 None None None None registered_model))))
    eth_usdc
  = None.
Proof.
  apply (@zero_signal_is_not_selected kinds eth_usdc 0 None None None None 5 0
           registered_model registered_model_well); reflexivity.
Defined.

Lemma set_old_weight_keeps_shape_witness :
  keyed_by_pair
    (signals (snd (set_old_weight eth_usdc (6 # 10) 600 eth_usdc (new_model None)))).
Proof.
  apply (@set_old_weight_keeps_shape kinds eth_usdc eth_usdc (6 # 10) 600
           (new_model None)); repeat constructor.
Defined.

Lemma calculate_target_positions_again_witness :
  exists m' pm',
    calculate_target_positions 1000
      (with_signals
         [ weighted eth_usdc (- (8 # 10)) (Some (PyFloat 3)) 1 (6 # 10) 600
             (Some eth_usdc) ], flip_portfolio)
    = (Ok tt, (m', pm'))
    /\ calculate_target_positions 1000 (m', pm') = (Ok tt, (m', pm')).
Proof.
  destruct (calculate_target_positions 1000
              (with_signals
                 [ weighted eth_usdc (- (8 # 10)) (Some (PyFloat 3)) 1 (6 # 10)
                     600 (Some eth_usdc) ], flip_portfolio))
    as [[[]|e] [m' pm']] eqn:Hrun; [|vm_compute in Hrun; discriminate].
  exists m', pm'. split; [reflexivity|].
  exact (@calculate_target_positions_again kinds manager 1000 _ _ _ _ Hrun).
Defined.

Lemma generate_trades_sorted_witness :
  exists trades,
    fst (generate_rebalance_trades_and_triggers 10 true (flip_model, flip_portfolio))
    = Ok trades
    /\ StronglySorted
         (fun a b =>
            (get_execution_sort_position a <= get_execution_sort_position b)%Z)
         trades.
Proof.
  destruct flip_scenario_trades as [m' [pm' [Hgen _]]].
  destruct (@generate_trades_sorted kinds rendering manager 10 true _ _ _ _ _ Hgen)
    as [per_signal [_ [_ [Hsorted _]]]].
  eexists. rewrite Hgen. split; [reflexivity|exact Hsorted].
Defined.

Lemma nothing_to_rebalance_witness :
  fst (generate_rebalance_trades_and_triggers 10 true (dust_model, dust_portfolio))
  = Ok [].
Proof.
  rewrite (@nothing_to_rebalance kinds rendering manager 10 dust_model
             dust_portfolio); [reflexivity|].
  intros k s Hin. vm_compute in Hin.
  destruct Hin as [Hin|[Hin|[]]]; injection Hin as <- <-;
    (split; [discriminate|split; reflexivity]).
Defined.

Lemma spot_signal_trades_witness :
  exists per_signal ts synthetic,
    fst (rebalance_signals 10 (equal_weight_model, empty_portfolio))
    = Ok per_signal
    /\ dict_get id_eqb (Some 1%Z) per_signal = Some ts
    /\ synthetic_pair (signal_of equal_weight_model eth_usdc) = Some synthetic.
Proof.
  destruct equal_weight_scenario_trades as [m' [pm' Hgen]].
  pose proof (fun s =>
                @spot_signal_trades kinds rendering manager 10 true
                  equal_weight_model m' empty_portfolio pm' _ (Some 1%Z) s Hgen)
    as Hspot.
  edestruct Hspot
    as [per_signal [ts [synthetic [closes [spots [pm1 [pm2 [pm3 H]]]]]]]].
  - reflexivity.
  - left. discriminate.
  - discriminate.
  - discriminate.
  - reflexivity.
  - destruct H as [Hloop [Hts [_ [Hsyn _]]]].
    exists per_signal, ts, synthetic. rewrite Hloop.
    split; [reflexivity|]. split; [exact Hts|exact Hsyn].
Defined.

Lemma spot_branch_needs_a_trade_witness :
  fst (rebalance_signal 10 (5 # 1000)
         (signal_of equal_weight_model eth_usdc, empty_portfolio))
  = Ok [ mkTrade (Some 1%Z) eth_usdc ((1 # 2) * 1000 - 0)
           "Rebalance for signal {signal}" ].
Proof.
  rewrite (@spot_branch_needs_a_trade kinds rendering manager 10 (5 # 1000)
             (signal_of equal_weight_model eth_usdc) eth_usdc empty_portfolio
             (mkPortfolio [mkPosition 1 eth_usdc ((1 # 2) * 1000 - 0) 0] 2)
             [ mkTrade (Some 1%Z) eth_usdc ((1 # 2) * 1000 - 0)
                 "Rebalance for signal {signal}" ]);
    try reflexivity; discriminate.
Defined.

Lemma flip_from_long_is_unsupported_witness :
  fst (rebalance_signal 10 (close_position_weight_epsilon from_long_model)
         (signal_of from_long_model eth_usdc, long_portfolio))
  = Raise (AssertionError "Unsupported").
Proof.
  edestruct (@flip_from_long_is_unsupported kinds rendering manager 10 true
               from_long_model long_portfolio (Some 1%Z)
               (signal_of from_long_model eth_usdc) eth_usdc_long)
    as [_ Hbody].
  - reflexivity.
  - reflexivity.
  - reflexivity.
  - reflexivity.
  - reflexivity.
  - discriminate.
  - rewrite (Hbody long_portfolio (short_of eth_usdc) eth_usdc);
      reflexivity.
Defined.

Lemma flip_label_of_flipping_witness :
  get_flip_label (signal_of flip_model eth_usdc) = Ok "spot -> short"%string.
Proof.
  rewrite (@flip_label_of_flipping kinds (signal_of flip_model eth_usdc) eth_usdc);
    reflexivity.
Defined.

Lemma synthetic_pairs_after_targets_witness :
  exists s',
    get_signal_by_pair_id flip_model (Some 1%Z) = Some s'
    /\ synthetic_pair s' = Some eth_usdc_short.
Proof.
  destruct (calculate_target_positions 1000
              (with_signals
                 [ weighted eth_usdc (- (8 # 10)) (Some (PyFloat 3)) 1 (6 # 10)
                     600 (Some eth_usdc) ], flip_portfolio))
    as [[[]|e] [m' pm']] eqn:Hrun; [|vm_compute in Hrun; discriminate].
  destruct (@synthetic_pairs_after_targets kinds manager 1000 _ _ _ _
              (Some 1%Z) _ Hrun eq_refl) as [s' [Hs' [_ Hshort]]].
  destruct Hshort as [shorting [Hget [Hsyn _]]]; [reflexivity|].
  exists s'. unfold flip_model, targeted. rewrite Hrun. simpl.
  split; [exact Hs'|]. simpl in Hget. injection Hget as <-. exact Hsyn.
Defined.

Lemma has_trades_after_generation_witness :
  exists s',
    get_signal_by_pair_id
      (fst (snd (generate_rebalance_trades_and_triggers 10 true
                   (flip_model, flip_portfolio)))) (Some 1%Z)
    = Some s'
    /\ truth (has_trades s') = true.
Proof.
  destruct flip_scenario_trades as [m' [pm' [Hgen _]]].
  pose proof (fun s =>
                @has_trades_after_generation kinds rendering manager 10 true
                  flip_model m' flip_portfolio pm' _ (Some 1%Z) s Hgen) as Hhas.
  edestruct Hhas as [s' [Hs' Htruth]].
  - reflexivity.
  - reflexivity.
  - exists s'. rewrite Hgen. simpl. split; [exact Hs'|].
    apply Htruth. split; left; discriminate.
Defined.

Lemma holding_without_signal_witness :
  exists s2,
    position_adjust_usd s2 == - (600)
    /\ fst (rebalance_signal 10 (5 # 1000) (s2, flip_portfolio))
       = Ok [ mkTrade (Some 7%Z) eth_usdc (- (600))
                (dust_close_notes (noted s2 flip_portfolio)) ].
Proof.
  destruct (@holding_without_signal kinds rendering manager eth_usdc eth_usdc
              (6 # 10) 600 1000 10 (5 # 1000) (new_model None) flip_portfolio)
    as [m1 [s1 [s2 [_ [_ [_ [_ [Hadj [_ [Hclose _]]]]]]]]]].
  - reflexivity.
  - reflexivity.
  - reflexivity.
  - intro usd. eexists. reflexivity.
  - exists s2. split; [exact Hadj|]. rewrite Hclose; [reflexivity|discriminate].
Defined.

Lemma calculate_weight_diffs_per_signal_witness :
  fst (calculate_weight_diffs shifted_model)
  = Ok [ (Some 1%Z, (6 # 10) - (5 # 10)); (Some 2%Z, (4 # 10) - (5 # 10)) ].
Proof.
  destruct (calculate_weight_diffs shifted_model) as [[diffs|e] m'] eqn:Hrun;
    [|vm_compute in Hrun; discriminate].
  rewrite (@calculate_weight_diffs_per_signal weighting shifted_model m' diffs);
    [reflexivity| |exact Hrun].
  split; [|repeat constructor].
  repeat constructor; simpl; intuition discriminate.
Defined.

End FurtherExamples.
